(** * Icinga 2: dynamic containers and perfdata writers

    A shallow embedding of
    - [lib/base/rcu_ptr.hpp], [lib/base/array.cpp], [lib/base/dictionary.cpp]
      (the containers of dynamic values behind a read-copy-update cell),
    - [lib/base/objectlock.cpp] (the scoped lock of an object), and
    - [lib/perfdata/graphitewriter.cpp], [lib/perfdata/opentsdbwriter.cpp]
      (the metric escapers and line emitters),
    followed by the properties of the specification and by further
    properties of the code, each stated over these definitions.

    Conventions.  The model is sequential: one thread runs a method from its
    first statement to its last, so the compare-and-swap of [copy_update]
    succeeds at its first attempt and the locks a method takes on its way
    are not represented.  A C++
    [double] is a primitive binary64 float, a [String] a [string] of bytes, a
    [std::vector] a [list].  [long] is 64 bits wide and [int] 32 bits wide
    (LP64), and a conversion to a narrower signed type keeps the low bits. *)

From Stdlib Require Import ZArith Lia Bool Ascii.
From Stdlib Require Import Floats.PrimFloat.
From Stdlib Require Import Numbers.DecimalString.
From Stdlib Require Import Structures.OrdersEx.
From stdpp Require Import base list sorting strings gmap.

Local Open Scope Z_scope.

(** ** Dynamic values *)

(** Modelled from the spec: the dynamic value of [base/value.hpp] (not among
    the sources), a tagged union over empty, number, boolean, string and
    object reference.  The constructors carry the names of its [ValueType]
    tags.  An object is held by reference; the reference is all that the
    containers look at. *)
Inductive Value : Type :=
| ValueEmpty
| ValueNumber (d : float)
| ValueBoolean (b : bool)
| ValueString (s : string)
| ValueObject (ref : positive).

Definition Empty : Value := ValueEmpty.

(** Modelled from the spec: the debug-info payload a caller of the scripting
    layer hands to the field accessors ([base/debuginfo.hpp] is not among the
    sources): a position in a script file. *)
Record DebugInfo : Type := mkDebugInfo {
  Path : string;
  FirstLine : Z;
  FirstColumn : Z;
  LastLine : Z;
  LastColumn : Z
}.

(** ** Outcomes of fallible code *)

(** The exceptions the modelled code throws: the [ScriptError] of the
    scripting layer with its message and debug info, and those of the
    standard library. *)
Inductive Exception : Type :=
| ScriptError (message : string) (debugInfo : DebugInfo)
| std_invalid_argument (what : string)
| std_out_of_range
| std_length_error
| std_exception (what : string).

(** A call returns, throws, or stops at a failed [ASSERT]. *)
Inductive Result (A : Type) : Type :=
| Ok (a : A)
| Throw (e : Exception)
| AssertionFailed.

Arguments Ok {A} a.
Arguments Throw {A} e.
Arguments AssertionFailed {A}.

Definition bind {A B : Type} (r : Result A) (k : A -> Result B) : Result B :=
  match r with
  | Ok a => k a
  | Throw e => Throw e
  | AssertionFailed => AssertionFailed
  end.

Notation "'let*' x ':=' r 'in' k" := (bind r (fun x => k))
  (at level 10, x name, r at level 100, k at level 200, only parsing).

(** Modelled from the spec: the [ASSERT] macro of [base/debug.hpp] (not among
    the sources); an operation whose assertion does not hold fails. *)
Definition ASSERT (cond : bool) : Result unit :=
  if cond then Ok tt else AssertionFailed.

(** ** Machine integers *)

Definition INT_MIN : Z := - 2 ^ 31.
Definition INT_MAX : Z := 2 ^ 31 - 1.
Definition LONG_MIN : Z := - 2 ^ 63.
Definition LONG_MAX : Z := 2 ^ 63 - 1.
Definition PTRDIFF_MAX : Z := 2 ^ 63 - 1.

(** [int x = <long expression>]: the low 32 bits, read as two's complement. *)
Definition static_cast_int (z : Z) : Z := (z + 2 ^ 31) mod 2 ^ 32 - 2 ^ 31.

(** [int + int], wrapping. *)
Definition int_add (a b : Z) : Z := static_cast_int (a + b).

(** [static_cast<size_t>(int)] and the implicit conversion of an [int]
    argument to [size_type]. *)
Definition static_cast_size_t (z : Z) : Z := z mod 2 ^ 64.

(** ** Convert *)

Definition is_digit (c : ascii) : bool :=
  ((48 <=? nat_of_ascii c) && (nat_of_ascii c <=? 57))%nat.

Fixpoint parse_digits (s : string) (acc : Z) : option Z :=
  match s with
  | EmptyString => Some acc
  | String c s' =>
      if is_digit c
      then parse_digits s' (10 * acc + Z.of_nat (nat_of_ascii c - 48))
      else None
  end.

Definition parse_unsigned (s : string) : option Z :=
  match s with
  | EmptyString => None
  | _ => parse_digits s 0
  end.

(** [boost::lexical_cast<long>]: an optional sign and at least one decimal
    digit, nothing before or after, and a value that fits a [long]. *)
Definition lexical_cast_long (s : string) : option Z :=
  let signed :=
    match s with
    | String "-"%char rest => option_map Z.opp (parse_unsigned rest)
    | String "+"%char rest => parse_unsigned rest
    | _ => parse_unsigned s
    end in
  match signed with
  | Some v => if (LONG_MIN <=? v) && (v <=? LONG_MAX) then Some v else None
  | None => None
  end.

(** Modelled from the spec: [Convert::ToLong] of [base/convert.hpp] (not among
    the sources).  A field name either parses as an integer or the conversion
    throws; the exception is built from the field name alone.  The field
    accessors of the array take the conversion as a parameter; this one
    instantiates it. *)
Definition Convert_ToLong (val : string) : Result Z :=
  match lexical_cast_long val with
  | Some v => Ok v
  | None => Throw (std_invalid_argument ("Can't convert '" +:+ val +:+ "' to an integer."))
  end.

(** [Convert::ToString] of an integer and [operator<<] of a [long]: the
    decimal numeral. *)
Definition Convert_ToString_long (z : Z) : string :=
  NilZero.string_of_int (Z.to_int z).

(** ** rcu_ptr *)

Section rcu_ptr.
Context {T : Type}.

(** [read]: the published snapshot. *)
Definition rcu_ptr_read (sp : T) : T := sp.

(** [reset] and [operator=]: publish [r], whatever was there. *)
Definition rcu_ptr_reset (r : T) (sp : T) : T := r.

(** [copy_update]: copy the snapshot, run [fun_] on the copy, publish the
    copy.  When [fun_] does not return, the copy is dropped and the cell
    keeps the snapshot it had. *)
Definition rcu_ptr_copy_update (fun_ : T -> Result T) (sp : T) : Result unit * T :=
  match fun_ sp with
  | Ok r => (Ok tt, r)
  | Throw e => (Throw e, sp)
  | AssertionFailed => (AssertionFailed, sp)
  end.
End rcu_ptr.

(** ** std::vector *)

Section vector.
Context {A : Type}.

(** [v.at(n)] *)
Definition vector_at (n : nat) (v : list A) : Result A :=
  match v !! n with
  | Some x => Ok x
  | None => Throw std_out_of_range
  end.

(** [v.at(n) = x] *)
Definition vector_at_assign (n : nat) (x : A) (v : list A) : Result (list A) :=
  if (n <? length v)%nat then Ok (<[n := x]> v) else Throw std_out_of_range.

(** [v.insert(v.begin() + n, x)], for [n <= v.size()] *)
Definition vector_insert (n : nat) (x : A) (v : list A) : list A :=
  take n v ++ x :: drop n v.

(** [v.resize(n)] with [n] a [size_type]: beyond [max_size()], which no
    element type lets exceed [PTRDIFF_MAX], it throws; otherwise the vector
    is cut or padded with value-initialised elements. *)
Definition vector_resize (dflt : A) (n : Z) (v : list A) : Result (list A) :=
  if n <=? PTRDIFF_MAX then Ok (resize (Z.to_nat n) dflt v) else Throw std_length_error.
End vector.

(** ** Array ([lib/base/array.cpp]) *)

Abbreviation ArrayData := (list Value).

(** The state of an [Array] is the snapshot its [m_Data] cell holds; a method
    maps it to its outcome and the snapshot the cell holds afterwards. *)
Definition EmptyArrayData : ArrayData := [].

Definition Array_GetView (m_Data : ArrayData) : ArrayData := rcu_ptr_read m_Data.

Definition Array_Get (index : nat) (m_Data : ArrayData) : Result Value :=
  let data := Array_GetView m_Data in
  vector_at index data.

Definition Array_Set (index : nat) (value : Value) (m_Data : ArrayData)
  : Result unit * ArrayData :=
  rcu_ptr_copy_update (fun data => vector_at_assign index value data) m_Data.

Definition Array_Add (value : Value) (m_Data : ArrayData) : Result unit * ArrayData :=
  rcu_ptr_copy_update (fun data => Ok (data ++ [value])) m_Data.

Definition Array_GetLength (m_Data : ArrayData) : nat :=
  let data := Array_GetView m_Data in
  length data.

Definition Array_Insert (index : nat) (value : Value) (m_Data : ArrayData)
  : Result unit * ArrayData :=
  rcu_ptr_copy_update (fun data =>
    let* _ := ASSERT (index <=? length data)%nat in
    Ok (vector_insert index value data)) m_Data.

Definition Array_Resize (newSize : nat) (m_Data : ArrayData) : Result unit * ArrayData :=
  rcu_ptr_copy_update (fun data => vector_resize Empty (Z.of_nat newSize) data) m_Data.

Definition Array_Clear (m_Data : ArrayData) : Result unit * ArrayData :=
  (Ok tt, rcu_ptr_reset [] m_Data).

Definition out_of_bounds (index : Z) (debugInfo : DebugInfo) : Exception :=
  ScriptError ("Array index '" +:+ Convert_ToString_long index +:+ "' is out of bounds.") debugInfo.

Section Array_fields.
(** [Convert::ToLong] and [Object::GetFieldByName], the lookup in the
    prototype of the object ([base/convert.hpp] and [base/object.cpp] are
    not among the sources). *)
Variable Convert_ToLong : string -> Result Z.
Variable Object_GetFieldByName : string -> bool -> DebugInfo -> Result Value.

Definition Array_GetFieldByName (field : string) (sandboxed : bool)
    (debugInfo : DebugInfo) (m_Data : ArrayData) : Result Value :=
  match Convert_ToLong field with
  | Ok l =>
      let index := static_cast_int l in
      let data := Array_GetView m_Data in
      if (index <? 0) || (Z.of_nat (length data) <=? static_cast_size_t index)
      then Throw (out_of_bounds index debugInfo)
      else vector_at (Z.to_nat index) data
  | Throw _ => Object_GetFieldByName field sandboxed debugInfo
  | AssertionFailed => AssertionFailed
  end.

Definition Array_SetFieldByName (field : string) (value : Value)
    (debugInfo : DebugInfo) (m_Data : ArrayData) : Result unit * ArrayData :=
  match Convert_ToLong field with
  | Ok l =>
      let index := static_cast_int l in
      if index <? 0
      then (Throw (out_of_bounds index debugInfo), m_Data)
      else
        rcu_ptr_copy_update (fun data =>
          let* data :=
            if Z.of_nat (length data) <=? static_cast_size_t index
            then vector_resize Empty (static_cast_size_t (int_add index 1)) data
            else Ok data in
          vector_at_assign (Z.to_nat index) value data) m_Data
  | Throw e => (Throw e, m_Data)
  | AssertionFailed => (AssertionFailed, m_Data)
  end.
End Array_fields.

(** *** The other methods of the array *)

Section vector_capacity.
Context {A : Type}.

(** [v.erase(v.begin() + n)], for [n < v.size()]; erasing at [v.end()] or
    behind it is undefined. *)
Definition vector_erase (n : nat) (v : list A) : list A := delete n v.

(** [v.reserve(n)]: the elements stay, only the capacity may grow; beyond
    [max_size()] it throws. *)
Definition vector_reserve (n : Z) (v : list A) : Result (list A) :=
  if n <=? PTRDIFF_MAX then Ok v else Throw std_length_error.
End vector_capacity.

Section Array_methods.
(** [operator==] of two values, which [std::find] compares with, and
    [Value::Clone] ([base/value.cpp] and [base/value-operators.cpp] are not
    among the sources). *)
Variable Value_equals : Value -> Value -> bool.
Variable Value_Clone : Value -> Value.

(** The constructors from a sequence: the new object holds a copy of it. *)
Definition Array_Array (data : ArrayData) : ArrayData := data.

Definition Array_Contains (value : Value) (m_Data : ArrayData) : bool :=
  let data := Array_GetView m_Data in
  match find (fun x => Value_equals x value) data with
  | Some _ => true
  | None => false
  end.

Definition Array_Remove (index : nat) (m_Data : ArrayData) : Result unit * ArrayData :=
  rcu_ptr_copy_update (fun data => Ok (vector_erase index data)) m_Data.

Definition Array_Reserve (newSize : nat) (m_Data : ArrayData) : Result unit * ArrayData :=
  rcu_ptr_copy_update (fun data => vector_reserve (Z.of_nat newSize) data) m_Data.

(** [CopyTo(dest)]: the state threaded through is the cell of [dest]; the
    view of the source is taken before the update starts. *)
Definition Array_CopyTo (m_Data dest : ArrayData) : Result unit * ArrayData :=
  let ourData := Array_GetView m_Data in
  rcu_ptr_copy_update (fun data => Ok (data ++ ourData)) dest.

Definition Array_ShallowClone (m_Data : ArrayData) : ArrayData :=
  Array_Array (Array_GetView m_Data).

Definition Array_Clone (m_Data : ArrayData) : ArrayData :=
  let result := foldl (fun result val => result ++ [Value_Clone val]) [] (Array_GetView m_Data) in
  Array_Array result.

(** [Reverse]: a new array, filled from the view read backwards. *)
Definition Array_Reverse (m_Data : ArrayData) : ArrayData :=
  let result := EmptyArrayData in
  let ourData := Array_GetView m_Data in
  (rcu_ptr_copy_update (fun data => Ok (data ++ reverse ourData)) result).2.
End Array_methods.

(** ** Algorithms of the standard library used by the mapping *)

Section algorithms.
Context {A B : Type}.

(** The loop of [std::lower_bound] over [first, first + len): halve the
    range until it is empty.  The range shrinks at every turn, so [fuel]
    turns are enough whenever [len <= fuel]. *)
Fixpoint lower_bound_loop (comp : A -> B -> bool) (v : list A) (val : B)
    (fuel first len : nat) : nat :=
  match fuel with
  | O => first
  | S fuel' =>
      if (len =? 0)%nat then first
      else
        let half := (len / 2)%nat in
        let middle := (first + half)%nat in
        match v !! middle with
        | Some x =>
            if comp x val
            then lower_bound_loop comp v val fuel' (middle + 1)%nat (len - half - 1)%nat
            else lower_bound_loop comp v val fuel' first half
        | None => first
        end
  end.

(** The precondition of [std::lower_bound]: the range is partitioned, no
    element that compares less than [val] follows one that does not. *)
Definition partitioned (comp : A -> B -> bool) (val : B) (v : list A) : Prop :=
  forall i j x y, (i <= j)%nat -> v !! i = Some x -> v !! j = Some y ->
    comp y val = true -> comp x val = true.

(** [std::lower_bound(v.begin(), v.end(), val, comp) - v.begin()] *)
Definition std_lower_bound (comp : A -> B -> bool) (v : list A) (val : B) : nat :=
  lower_bound_loop comp v val (length v) 0%nat (length v).

(** [std::unique] followed by [erase] of the tail: of every run of
    consecutive elements equivalent under [pred], the first is kept.
    [kept] is the element last written to the result. *)
Fixpoint unique_from (pred : A -> A -> bool) (kept : A) (v : list A) : list A :=
  match v with
  | [] => [kept]
  | x :: v' => if pred kept x then unique_from pred kept v' else kept :: unique_from pred x v'
  end.

Definition std_unique (pred : A -> A -> bool) (v : list A) : list A :=
  match v with
  | [] => []
  | x :: v' => unique_from pred x v'
  end.
End algorithms.

(** A range-for loop whose body works on a state and may throw: the loop ends
    at the first iteration that does not return. *)
Fixpoint for_each {S A : Type} (body : A -> S -> Result unit * S) (range : list A) (s : S)
  : Result unit * S :=
  match range with
  | [] => (Ok tt, s)
  | x :: range' =>
      match body x s with
      | (Ok _, s') => for_each body range' s'
      | failed => failed
      end
  end.

(** ** Dictionary ([lib/base/dictionary.cpp]) *)

(** [operator<] and [operator==] of [String]: the order of [std::string],
    byte by byte with a proper prefix first. *)
Definition String_less (a b : string) : bool :=
  match String_as_OT.compare a b with
  | Lt => true
  | _ => false
  end.

Abbreviation DictionaryPair := (string * Value)%type.
Abbreviation DictionaryData := (list (string * Value)).

Definition EmptyDictionaryData : DictionaryData := [].

(** The two lambdas of the constructor. *)
Definition pair_key_less (a b : DictionaryPair) : bool := String_less a.1 b.1.
Definition pair_key_equal (a b : DictionaryPair) : bool := String.eqb a.1 b.1.

Definition KeyLessComparer (a : DictionaryPair) (b : string) : bool := String_less a.1 b.

(** The key of the first pair is less than, and is not greater than, the key
    of the second. *)
Definition key_lt (a b : DictionaryPair) : Prop := String_less a.1 b.1 = true.
Definition key_le (a b : DictionaryPair) : Prop := pair_key_less b a = false.

(** The invariant of a snapshot: its keys, read from front to back, go
    strictly up. *)
Definition keys_ascending (data : DictionaryData) : Prop :=
  forall i j ki kj, (i < j)%nat ->
    data.*1 !! i = Some ki -> data.*1 !! j = Some kj -> String_less ki kj = true.

(** What the C++ standard promises of [std::sort] called with the comparison
    of the constructor: the elements are rearranged, and afterwards no element
    is less than one before it.  The order in which elements of equal keys
    end up is left open. *)
Definition std_sort_contract_on
    (sort : (DictionaryPair -> DictionaryPair -> bool) -> DictionaryData -> DictionaryData)
    (data : DictionaryData) : Prop :=
  sort pair_key_less data ≡ₚ data /\
  StronglySorted key_le (sort pair_key_less data).

Definition std_sort_contract
    (sort : (DictionaryPair -> DictionaryPair -> bool) -> DictionaryData -> DictionaryData)
  : Prop :=
  forall data, std_sort_contract_on sort data.

Section Dictionary.
(** [std::sort], of which the sources fix the call and the standard the
    contract, and [Value::Clone] ([base/value.cpp] is not among the
    sources). *)
Variable std_sort :
  (DictionaryPair -> DictionaryPair -> bool) -> DictionaryData -> DictionaryData.
Variable Value_Clone : Value -> Value.

(** [Dictionary::Dictionary(DictionaryData data)]: the snapshot the new
    object holds. *)
Definition Dictionary_Dictionary (data : DictionaryData) : DictionaryData :=
  let data := std_sort pair_key_less data in
  let data := std_unique pair_key_equal data in
  data.

Definition Dictionary_GetView (m_Data : DictionaryData) : DictionaryData := rcu_ptr_read m_Data.

Definition Dictionary_Get (key : string) (m_Data : DictionaryData) : Value :=
  let data := Dictionary_GetView m_Data in
  let it := std_lower_bound KeyLessComparer data key in
  match data !! it with
  | None => Empty
  | Some kv => if negb (String.eqb kv.1 key) then Empty else kv.2
  end.

(** [Get(key, &result)]: the flag returned and the value written through
    [result], if any. *)
Definition Dictionary_Get_result (key : string) (m_Data : DictionaryData)
  : bool * option Value :=
  let data := Dictionary_GetView m_Data in
  let it := std_lower_bound KeyLessComparer data key in
  match data !! it with
  | None => (false, None)
  | Some kv => if negb (String.eqb kv.1 key) then (false, None) else (true, Some kv.2)
  end.

Definition Dictionary_Set (key : string) (value : Value) (m_Data : DictionaryData)
  : Result unit * DictionaryData :=
  rcu_ptr_copy_update (fun data =>
    let it := std_lower_bound KeyLessComparer data key in
    match data !! it with
    | Some kv =>
        if String.eqb kv.1 key
        then Ok (<[it := (kv.1, value)]> data)
        else Ok (vector_insert it (key, value) data)
    | None => Ok (vector_insert it (key, value) data)
    end) m_Data.

Definition Dictionary_GetLength (m_Data : DictionaryData) : nat :=
  let data := Dictionary_GetView m_Data in
  length data.

Definition Dictionary_Contains (key : string) (m_Data : DictionaryData) : bool :=
  let data := Dictionary_GetView m_Data in
  let it := std_lower_bound KeyLessComparer data key in
  match data !! it with
  | None => false
  | Some kv => String.eqb kv.1 key
  end.

Definition Dictionary_Remove (key : string) (m_Data : DictionaryData)
  : Result unit * DictionaryData :=
  rcu_ptr_copy_update (fun data =>
    let it := std_lower_bound KeyLessComparer data key in
    match data !! it with
    | Some kv => if String.eqb kv.1 key then Ok (delete it data) else Ok data
    | None => Ok data
    end) m_Data.

Definition Dictionary_Clear (m_Data : DictionaryData) : Result unit * DictionaryData :=
  (Ok tt, rcu_ptr_reset [] m_Data).

(** [CopyTo(dest)]: the state threaded through the loop is the cell of
    [dest]. *)
Definition Dictionary_CopyTo (m_Data dest : DictionaryData) : Result unit * DictionaryData :=
  for_each (fun kv dest => Dictionary_Set kv.1 kv.2 dest) (Dictionary_GetView m_Data) dest.

Definition Dictionary_ShallowClone (m_Data : DictionaryData) : DictionaryData :=
  Dictionary_Dictionary (Dictionary_GetView m_Data).

Definition Dictionary_Clone (m_Data : DictionaryData) : DictionaryData :=
  let result := map (fun kv : DictionaryPair => (kv.1, Value_Clone kv.2)) (Dictionary_GetView m_Data) in
  Dictionary_Dictionary result.

Definition Dictionary_GetKeys (m_Data : DictionaryData) : list string :=
  map fst (Dictionary_GetView m_Data).

Definition Dictionary_SetFieldByName (field : string) (value : Value)
    (debugInfo : DebugInfo) (m_Data : DictionaryData) : Result unit * DictionaryData :=
  Dictionary_Set field value m_Data.

Definition Dictionary_HasOwnField (field : string) (m_Data : DictionaryData) : bool :=
  Dictionary_Contains field m_Data.

(** The snapshots a program can bring a mapping to: those of freshly
    constructed objects, and those a method leaves in the cell it updates. *)
Inductive Dictionary_reachable : DictionaryData -> Prop :=
| reach_default :
    Dictionary_reachable EmptyDictionaryData
| reach_construct data :
    Dictionary_reachable (Dictionary_Dictionary data)
| reach_Set key value d :
    Dictionary_reachable d -> Dictionary_reachable (Dictionary_Set key value d).2
| reach_SetFieldByName field value debugInfo d :
    Dictionary_reachable d ->
    Dictionary_reachable (Dictionary_SetFieldByName field value debugInfo d).2
| reach_Remove key d :
    Dictionary_reachable d -> Dictionary_reachable (Dictionary_Remove key d).2
| reach_Clear d :
    Dictionary_reachable d -> Dictionary_reachable (Dictionary_Clear d).2
| reach_CopyTo d dest :
    Dictionary_reachable d -> Dictionary_reachable dest ->
    Dictionary_reachable (Dictionary_CopyTo d dest).2
| reach_ShallowClone d :
    Dictionary_reachable d -> Dictionary_reachable (Dictionary_ShallowClone d)
| reach_Clone d :
    Dictionary_reachable d -> Dictionary_reachable (Dictionary_Clone d).
End Dictionary.

(** *** The field accessors of the mapping *)

Section Dictionary_fields.
(** [GetPrototypeField], the lookup in the prototype of the object
    ([base/object.cpp] is not among the sources); it is given the object, the
    field, the sandbox flag and the debug info. *)
Variable GetPrototypeField : DictionaryData -> string -> bool -> DebugInfo -> Result Value.

(** [Dictionary(std::initializer_list<Pair>)] *)
Definition Dictionary_of_initializer_list
    (std_sort : (DictionaryPair -> DictionaryPair -> bool) -> DictionaryData -> DictionaryData)
    (init : list DictionaryPair) : DictionaryData :=
  Dictionary_Dictionary std_sort init.

Definition Dictionary_GetFieldByName (field : string) (sandboxed : bool)
    (debugInfo : DebugInfo) (m_Data : DictionaryData) : Result Value :=
  let value := Empty in
  match Dictionary_Get_result field m_Data with
  | (true, written) => Ok (default value written)
  | (false, _) => GetPrototypeField m_Data field false debugInfo
  end.

Definition Dictionary_GetOwnField (field : string) (m_Data : DictionaryData)
  : bool * option Value :=
  Dictionary_Get_result field m_Data.
End Dictionary_fields.

(** The finite map a snapshot stands for: every key with the value of the
    first pair that carries it. *)
Definition Dictionary_to_map (data : DictionaryData) : gmap string Value :=
  list_to_map data.

(** A sort that keeps elements of equal keys in the order of the input
    (insertion from the right, in front of the first element that is not
    smaller). *)
Fixpoint insert_sorted (comp : DictionaryPair -> DictionaryPair -> bool)
    (x : DictionaryPair) (v : DictionaryData) : DictionaryData :=
  match v with
  | [] => [x]
  | y :: v' => if comp y x then y :: insert_sorted comp x v' else x :: v
  end.

Fixpoint stable_sort (comp : DictionaryPair -> DictionaryPair -> bool)
    (v : DictionaryData) : DictionaryData :=
  match v with
  | [] => []
  | x :: v' => insert_sorted comp x (stable_sort comp v')
  end.

(** A sort within the contract that does not keep that order. *)
Definition reversing_sort (comp : DictionaryPair -> DictionaryPair -> bool)
    (v : DictionaryData) : DictionaryData :=
  stable_sort comp (reverse v).

(** The first pair of a sequence that carries [key]. *)
Definition first_occurrence (key : string) (data : DictionaryData) : option DictionaryPair :=
  find (fun kv : DictionaryPair => String.eqb kv.1 key) data.

(** The pairs of a sequence that carry [key], in their order. *)
Definition pairs_of_key (key : string) (data : DictionaryData) : DictionaryData :=
  List.filter (fun kv : DictionaryPair => String.eqb kv.1 key) data.

(** A sort is stable on [data] when it leaves the pairs of every key in the
    order they have in [data]. *)
Definition stable_on
    (sort : (DictionaryPair -> DictionaryPair -> bool) -> DictionaryData -> DictionaryData)
    (data : DictionaryData) : Prop :=
  forall key, pairs_of_key key (sort pair_key_less data) = pairs_of_key key data.

(** ** [std::sort] of GNU libstdc++

    The sort of the standard library the constructor is linked against on
    Linux: [std::sort] of [bits/stl_algo.h] with the heap functions of
    [bits/stl_heap.h] (GCC 12), function by function, under their names
    without the leading underscores.  An iterator is a position in the
    vector, the vector is passed along, a moved element is a copied one
    (every position moved from is assigned before it is read again), and
    every loop carries fuel, of which the length of the vector is enough. *)

Section libstdcxx.
Context {A : Type} (comp : A -> A -> bool).

(** [comp(i, j)], [comp(val, j)] and [comp(i, val)] on the elements at the
    positions. *)
Definition comp_at (v : list A) (i j : nat) : bool :=
  match v !! i, v !! j with
  | Some x, Some y => comp x y
  | _, _ => false
  end.

Definition comp_val_at (v : list A) (val : A) (j : nat) : bool :=
  match v !! j with
  | Some y => comp val y
  | None => false
  end.

Definition comp_at_val (v : list A) (i : nat) (val : A) : bool :=
  match v !! i with
  | Some x => comp x val
  | None => false
  end.

(** The move assignment of the element at [j] to the position [i], and
    [std::iter_swap(i, j)]. *)
Definition move_to (i j : nat) (v : list A) : list A :=
  match v !! j with
  | Some y => <[i := y]> v
  | None => v
  end.

Definition iter_swap (i j : nat) (v : list A) : list A :=
  match v !! i, v !! j with
  | Some x, Some y => <[j := x]> (<[i := y]> v)
  | _, _ => v
  end.

(** [__push_heap]: the hole rises while its parent is less than the value. *)
Fixpoint push_heap_loop (fuel first holeIndex topIndex : nat) (value : A) (v : list A)
  : list A :=
  let parent := ((holeIndex - 1) / 2)%nat in
  match fuel with
  | O => <[(first + holeIndex)%nat := value]> v
  | S fuel' =>
      if (topIndex <? holeIndex)%nat && comp_at_val v (first + parent) value
      then push_heap_loop fuel' first parent topIndex value
             (move_to (first + holeIndex) (first + parent) v)
      else <[(first + holeIndex)%nat := value]> v
  end.

Definition push_heap (first holeIndex topIndex : nat) (value : A) (v : list A) : list A :=
  push_heap_loop (length v) first holeIndex topIndex value v.

(** The first loop of [__adjust_heap]: the hole sinks to the larger of its
    children.  It gives the hole, the second child and the vector. *)
Fixpoint adjust_heap_loop (fuel first holeIndex secondChild len : nat) (v : list A)
  : nat * nat * list A :=
  match fuel with
  | O => (holeIndex, secondChild, v)
  | S fuel' =>
      if (secondChild <? (len - 1) / 2)%nat
      then
        let secondChild := (2 * (secondChild + 1))%nat in
        let secondChild :=
          if comp_at v (first + secondChild) (first + (secondChild - 1))
          then (secondChild - 1)%nat else secondChild in
        adjust_heap_loop fuel' first secondChild secondChild len
          (move_to (first + holeIndex) (first + secondChild) v)
      else (holeIndex, secondChild, v)
  end.

(** [__adjust_heap].  The distances are signed in the library: [(len - 2) / 2]
    is negative for [len = 0], where the test on the second child fails; the
    test [2 <= len] keeps that with natural numbers. *)
Definition adjust_heap (first holeIndex len : nat) (value : A) (v : list A) : list A :=
  let topIndex := holeIndex in
  let '(holeIndex, secondChild, v) :=
    adjust_heap_loop (length v) first holeIndex holeIndex len v in
  let '(holeIndex, v) :=
    if Nat.even len && (2 <=? len)%nat && (secondChild =? (len - 2) / 2)%nat
    then
      let secondChild := (2 * (secondChild + 1))%nat in
      ((secondChild - 1)%nat, move_to (first + holeIndex) (first + (secondChild - 1)) v)
    else (holeIndex, v) in
  push_heap first holeIndex topIndex value v.

(** [__pop_heap(first, last, result)] *)
Definition pop_heap (first last result : nat) (v : list A) : list A :=
  match v !! result with
  | Some value => adjust_heap first 0 (last - first) value (move_to result first v)
  | None => v
  end.

(** [__make_heap] *)
Fixpoint make_heap_loop (fuel first parent len : nat) (v : list A) : list A :=
  match fuel with
  | O => v
  | S fuel' =>
      match v !! (first + parent)%nat with
      | Some value =>
          let v := adjust_heap first parent len value v in
          if (parent =? 0)%nat then v else make_heap_loop fuel' first (parent - 1) len v
      | None => v
      end
  end.

Definition make_heap (first last : nat) (v : list A) : list A :=
  if (last - first <? 2)%nat then v
  else
    let len := (last - first)%nat in
    make_heap_loop (length v) first ((len - 2) / 2) len v.

(** [__sort_heap] *)
Fixpoint sort_heap (fuel first last : nat) (v : list A) : list A :=
  match fuel with
  | O => v
  | S fuel' =>
      if (1 <? last - first)%nat
      then let last := (last - 1)%nat in sort_heap fuel' first last (pop_heap first last last v)
      else v
  end.

(** [__heap_select] and [__partial_sort] *)
Definition heap_select (first middle last : nat) (v : list A) : list A :=
  let v := make_heap first middle v in
  foldl (fun v i => if comp_at v i first then pop_heap first middle i v else v)
    v (seq middle (last - middle)).

Definition partial_sort (first middle last : nat) (v : list A) : list A :=
  let v := heap_select first middle last v in
  sort_heap (length v) first middle v.

(** [__move_median_to_first(result, a, b, c)] *)
Definition move_median_to_first (result a b c : nat) (v : list A) : list A :=
  if comp_at v a b then
    if comp_at v b c then iter_swap result b v
    else if comp_at v a c then iter_swap result c v
    else iter_swap result a v
  else if comp_at v a c then iter_swap result a v
  else if comp_at v b c then iter_swap result c v
  else iter_swap result b v.

(** [__unguarded_partition(first, last, pivot)], with its two inner loops. *)
Fixpoint scan_up (fuel first pivot : nat) (v : list A) : nat :=
  match fuel with
  | O => first
  | S fuel' => if comp_at v first pivot then scan_up fuel' (first + 1) pivot v else first
  end.

Fixpoint scan_down (fuel last pivot : nat) (v : list A) : nat :=
  match fuel with
  | O => last
  | S fuel' => if comp_at v pivot last then scan_down fuel' (last - 1) pivot v else last
  end.

Fixpoint unguarded_partition (fuel first last pivot : nat) (v : list A) : nat * list A :=
  match fuel with
  | O => (first, v)
  | S fuel' =>
      let first := scan_up (length v) first pivot v in
      let last := (last - 1)%nat in
      let last := scan_down (length v) last pivot v in
      if negb (first <? last)%nat then (first, v)
      else unguarded_partition fuel' (first + 1) last pivot (iter_swap first last v)
  end.

(** [__unguarded_partition_pivot] *)
Definition unguarded_partition_pivot (first last : nat) (v : list A) : nat * list A :=
  let mid := (first + (last - first) / 2)%nat in
  let v := move_median_to_first first (first + 1) mid (last - 1) v in
  unguarded_partition (length v) (first + 1) last first v.

(** [__unguarded_linear_insert(last)]: the element at [last] moves down past
    the elements it is less than. *)
Fixpoint unguarded_linear_insert_loop (fuel last : nat) (val : A) (v : list A) : list A :=
  let next := (last - 1)%nat in
  match fuel with
  | O => <[last := val]> v
  | S fuel' =>
      if comp_val_at v val next
      then unguarded_linear_insert_loop fuel' next val (move_to last next v)
      else <[last := val]> v
  end.

Definition unguarded_linear_insert (last : nat) (v : list A) : list A :=
  match v !! last with
  | Some val => unguarded_linear_insert_loop last last val v
  | None => v
  end.

(** [std::move_backward(first, i, i + 1)] and [*first = val], for [val] the
    element that was at [i]. *)
Definition move_backward_to_first (first i : nat) (v : list A) : list A :=
  match v !! i with
  | Some val => take first v ++ val :: take (i - first) (drop first v) ++ drop (S i) v
  | None => v
  end.

(** [__insertion_sort] and [__unguarded_insertion_sort] *)
Definition insertion_sort_step (first : nat) (v : list A) (i : nat) : list A :=
  if comp_at v i first then move_backward_to_first first i v
  else unguarded_linear_insert i v.

Definition insertion_sort (first last : nat) (v : list A) : list A :=
  if (first =? last)%nat then v
  else foldl (insertion_sort_step first) v (seq (first + 1) (last - (first + 1))).

Definition unguarded_insertion_sort (first last : nat) (v : list A) : list A :=
  foldl (fun v i => unguarded_linear_insert i v) v (seq first (last - first)).

(** [_S_threshold] *)
Definition S_threshold : nat := 16.

(** [__final_insertion_sort] *)
Definition final_insertion_sort (first last : nat) (v : list A) : list A :=
  if (S_threshold <? last - first)%nat
  then unguarded_insertion_sort (first + S_threshold) last
         (insertion_sort first (first + S_threshold) v)
  else insertion_sort first last v.

(** [__introsort_loop]: the recursive call takes the upper part, the loop goes
    on with the lower one. *)
Fixpoint introsort_loop (fuel first last depth_limit : nat) (v : list A) : list A :=
  match fuel with
  | O => v
  | S fuel' =>
      if (S_threshold <? last - first)%nat
      then
        if (depth_limit =? 0)%nat then partial_sort first last last v
        else
          let depth_limit := (depth_limit - 1)%nat in
          let '(cut, v) := unguarded_partition_pivot first last v in
          let v := introsort_loop fuel' cut last depth_limit v in
          introsort_loop fuel' first cut depth_limit v
      else v
  end.

(** [std::sort(first, last, comp)] on the whole vector. *)
Definition libstdcxx_sort (v : list A) : list A :=
  let first := 0%nat in
  let last := length v in
  if (first =? last)%nat then v
  else
    let v := introsort_loop (length v) first last (Nat.log2 (last - first) * 2) v in
    final_insertion_sort first last v.
End libstdcxx.

(** What the insertion sort of the library computes on a sorted front part:
    the element goes behind the last element that is not greater. *)
Fixpoint insert_upper (comp : DictionaryPair -> DictionaryPair -> bool)
    (x : DictionaryPair) (v : DictionaryData) : DictionaryData :=
  match v with
  | [] => [x]
  | y :: v' => if comp x y then x :: v else y :: insert_upper comp x v'
  end.

(** ** Strings of the writers *)

Definition LF : string := String (ascii_of_nat 10) EmptyString.

Fixpoint String_map (f : ascii -> ascii) (s : string) : string :=
  match s with
  | EmptyString => EmptyString
  | String c s' => String (f c) (String_map f s')
  end.

(** [boost::replace_all(input, search, format)]: the occurrences of [search]
    are found from left to right, the scan going on behind each one, and
    every one is replaced by [format].  [skip] counts the characters of the
    occurrence just replaced that the scan still has to pass. *)
Fixpoint replace_all_from (search format : string) (skip : nat) (input : string) : string :=
  match input with
  | EmptyString => EmptyString
  | String c input' =>
      match skip with
      | S skip' => replace_all_from search format skip' input'
      | O =>
          if String.prefix search input
          then format +:+ replace_all_from search format (String.length search - 1) input'
          else String c (replace_all_from search format 0 input')
      end
  end.

Definition boost_replace_all (input search format : string) : string :=
  match search with
  | EmptyString => input
  | _ => replace_all_from search format 0 input
  end.

(** Whether [search] occurs in [s]. *)
Fixpoint occurs (search s : string) : bool :=
  match s with
  | EmptyString => String.prefix search EmptyString
  | String _ s' => String.prefix search s || occurs search s'
  end.

(** Whether the character [c] occurs in [s]. *)
Fixpoint has_char (c : ascii) (s : string) : bool :=
  match s with
  | EmptyString => false
  | String c' s' => Ascii.eqb c' c || has_char c s'
  end.

(** One replacement of a character by another, which is what
    [boost::replace_all] does when [search] and [format] are one character
    long. *)
Definition replace_char (a b : ascii) (c : ascii) : ascii :=
  if Ascii.eqb c a then b else c.

(** ** Perfdata values and the line stream *)

(** Modelled from the spec: the perfdata value of [base/perfdatavalue.hpp]
    (not among the sources), a numeric datum with a label and optional
    thresholds; the fields the writers read, under the names of their
    getters. *)
Record PerfdataValue : Type := mkPerfdataValue {
  GetLabel : string;
  GetValue : float;
  GetCrit : Value;
  GetWarn : Value;
  GetMin : Value;
  GetMax : Value
}.

(** Modelled from the spec: the line stream of a writer ([base/stream.hpp]
    and [base/networkstream.hpp] are not among the sources).  [Write] hands a
    line to the peer or throws on failure. *)
Record NetworkStream : Type := mkNetworkStream {
  written : list string;
  failing : bool
}.

Definition Stream_Write (buffer : string) (stream : NetworkStream) : Result NetworkStream :=
  if failing stream
  then Throw (std_exception "write")
  else Ok {| written := written stream ++ [buffer]; failing := false |}.

(** Modelled from the spec: the conversion of a [Value] in a condition
    ([base/value.hpp] is not among the sources): a threshold is truthy when it
    is a nonzero number; the empty value is not. *)
Definition Value_ToBool (v : Value) : bool :=
  match v with
  | ValueEmpty => false
  | ValueNumber d => negb (PrimFloat.eqb d 0%float)
  | ValueBoolean b => b
  | ValueString s => negb (String.eqb s EmptyString)
  | ValueObject _ => true
  end.

(** The numbers among the values, as [operator double] reads them. *)
Definition Value_nonzero (v : Value) : bool :=
  match v with
  | ValueNumber d => negb (PrimFloat.eqb d 0%float)
  | _ => false
  end.

Definition Value_numeric (v : Value) : bool :=
  match v with
  | ValueEmpty | ValueNumber _ => true
  | _ => false
  end.

(** What the loops over the performance data take from their environment. *)
Section writer_environment.
(** [boost::lexical_cast<double>] of a value that is neither a number, a
    boolean nor empty. *)
Variable lexical_cast_double : Value -> Result float.
(** [val.IsObjectType<PerfdataValue>()] with the object behind it, and
    [PerfdataValue::Parse], [None] when it throws. *)
Variable as_PerfdataValue : Value -> option PerfdataValue.
Variable PerfdataValue_Parse : Value -> option PerfdataValue.

(** [operator double] of [Value], taken when a threshold is passed as the
    [double value] of [SendMetric]. *)
Definition Value_ToDouble (v : Value) : Result float :=
  match v with
  | ValueNumber d => Ok d
  | ValueBoolean b => Ok (if b then 1%float else 0%float)
  | ValueEmpty => Ok 0%float
  | _ => lexical_cast_double v
  end.

(** The head of the loops over the performance data: the element itself
    when it is a [PerfdataValue], what it parses to otherwise, and nothing
    ([continue]) when parsing throws. *)
Definition perfdata_element (val : Value) : option PerfdataValue :=
  match as_PerfdataValue val with
  | Some pdv => Some pdv
  | None => PerfdataValue_Parse val
  end.
End writer_environment.

(** A statement that works on the state of a writer. *)
Definition Action (S : Type) : Type := S -> Result unit * S.

Definition skip {S : Type} : Action S := fun s => (Ok tt, s).

Definition seq {S : Type} (first second : Action S) : Action S :=
  fun s =>
    match first s with
    | (Ok _, s') => second s'
    | failed => failed
    end.

Definition when {S : Type} (cond : bool) (body : Action S) : Action S :=
  if cond then body else skip.

(** Evaluate an argument that may throw, then run the call. *)
Definition with_value {S A : Type} (r : Result A) (k : A -> Action S) : Action S :=
  fun s =>
    match r with
    | Ok a => k a s
    | Throw e => (Throw e, s)
    | AssertionFailed => (AssertionFailed, s)
    end.

Declare Scope action_scope.
Delimit Scope action_scope with action.
Notation "a ;; b" := (seq a b)
  (at level 100, b at level 200, right associativity) : action_scope.

(** ** GraphiteWriter ([lib/perfdata/graphitewriter.cpp]) *)

Module GraphiteWriter.

Record State : Type := mkState {
  GetConnected : bool;
  m_Stream : NetworkStream;
  GetEnableSendThresholds : bool;
  GetEnableSendMetadata : bool
}.

Definition EscapeMetric (str : string) : string :=
  let result := str in
  let result := boost_replace_all result " " "_" in
  let result := boost_replace_all result "." "_" in
  let result := boost_replace_all result "\" "_" in
  let result := boost_replace_all result "/" "_" in
  result.

Definition EscapeMetricLabel (str : string) : string :=
  let result := str in
  let result := boost_replace_all result " " "_" in
  let result := boost_replace_all result "\" "_" in
  let result := boost_replace_all result "/" "_" in
  let result := boost_replace_all result "::" "." in
  result.

Section methods.
Variable Convert_ToString_double : float -> string.
Variable static_cast_long : float -> Z.
Variable lexical_cast_double : Value -> Result float.
Variable as_PerfdataValue : Value -> option PerfdataValue.
Variable PerfdataValue_Parse : Value -> option PerfdataValue.

(** The text [SendMetric] builds. *)
Definition metric_line (prefix name : string) (value ts : float) : string :=
  prefix +:+ "." +:+ name +:+ " " +:+ Convert_ToString_double value +:+ " "
    +:+ Convert_ToString_long (static_cast_long ts) +:+ LF.

(** [SendMetric]; the checkable is only named in the debug log, which is
    not modelled.  A failed write is rethrown. *)
Definition SendMetric (prefix name : string) (value ts : float) : Action State :=
  fun self =>
    let metric := metric_line prefix name value ts in
    if negb (GetConnected self) then (Ok tt, self)
    else
      match Stream_Write metric (m_Stream self) with
      | Ok stream =>
          (Ok tt, {| GetConnected := GetConnected self;
                     m_Stream := stream;
                     GetEnableSendThresholds := GetEnableSendThresholds self;
                     GetEnableSendMetadata := GetEnableSendMetadata self |})
      | Throw ex => (Throw ex, self)
      | AssertionFailed => (AssertionFailed, self)
      end.

(** [if (pdv->GetX()) SendMetric(..., pdv->GetX(), ts);] *)
Definition SendThreshold (prefix name : string) (threshold : Value) (ts : float)
  : Action State :=
  when (Value_ToBool threshold)
    (with_value (Value_ToDouble lexical_cast_double threshold)
       (fun value => SendMetric prefix name value ts)).

(** The body of the loop of [SendPerfdata] behind the parsing. *)
Definition SendPerfdataValue (prefix : string) (pdv : PerfdataValue) (ts : float)
  : Action State :=
  fun self =>
    let escapedKey := EscapeMetricLabel (GetLabel pdv) in
    (SendMetric prefix (escapedKey +:+ ".value") (GetValue pdv) ts ;;
     when (GetEnableSendThresholds self)
       (SendThreshold prefix (escapedKey +:+ ".crit") (GetCrit pdv) ts ;;
        SendThreshold prefix (escapedKey +:+ ".warn") (GetWarn pdv) ts ;;
        SendThreshold prefix (escapedKey +:+ ".min") (GetMin pdv) ts ;;
        SendThreshold prefix (escapedKey +:+ ".max") (GetMax pdv) ts))%action self.

(** [SendPerfdata]; [perfdata] is [cr->GetPerformanceData()], [None] for
    a null pointer. *)
Definition SendPerfdata (prefix : string) (perfdata : option ArrayData) (ts : float)
  : Action State :=
  match perfdata with
  | None => skip
  | Some perfdata =>
      for_each (fun val =>
        match perfdata_element as_PerfdataValue PerfdataValue_Parse val with
        | Some pdv => SendPerfdataValue prefix pdv ts
        | None => skip
        end) perfdata
  end.
End methods.

End GraphiteWriter.

(** ** OpenTsdbWriter ([lib/perfdata/opentsdbwriter.cpp]) *)

(** [std::map<String, String>]: the entries in the order of their keys, which
    is the order a range-for visits them in. *)
Abbreviation std_map := (list (string * string)).

(** [m[key] = value] *)
Fixpoint std_map_assign (key value : string) (m : std_map) : std_map :=
  match m with
  | [] => [(key, value)]
  | (k, v) :: m' =>
      if String_less key k then (key, value) :: m
      else if String.eqb k key then (key, value) :: m'
      else (k, v) :: std_map_assign key value m'
  end.

(** Modelled from the spec: the hosts, services, checkables and check results
    of the domain model ([icinga/checkable.hpp] and its neighbours are not
    among the sources), as far as the handler reads them.  A getter whose
    result is passed as the [double value] of [SendMetric] is given at that
    type. *)
Record Host : Type := mkHost {
  Host_GetName : string;
  Host_GetState : float
}.

Record Service : Type := mkService {
  Service_GetShortName : string;
  Service_GetState : float;
  Service_GetHost : Host
}.

Inductive CheckableObject : Type :=
| OfService (service : Service)
| OfHost (host : Host).

Record Checkable : Type := mkCheckable {
  object : CheckableObject;
  GetEnablePerfdata : bool;
  GetStateType : float;
  IsReachable : float;
  GetDowntimeDepth : float;
  GetAcknowledgement : float;
  GetCheckAttempt : float;
  GetMaxCheckAttempts : float
}.

Record CheckResult : Type := mkCheckResult {
  GetExecutionEnd : float;
  GetPerformanceData : option ArrayData;
  CalculateLatency : float;
  CalculateExecutionTime : float
}.

Module OpenTsdbWriter.

Record State : Type := mkState {
  IsPaused : bool;
  m_Stream : option NetworkStream
}.

Definition EscapeTag (str : string) : string :=
  let result := str in
  let result := boost_replace_all result " " "_" in
  let result := boost_replace_all result "\" "_" in
  result.

Definition EscapeMetric (str : string) : string :=
  let result := str in
  let result := boost_replace_all result " " "_" in
  let result := boost_replace_all result "." "_" in
  let result := boost_replace_all result "\" "_" in
  let result := boost_replace_all result ":" "_" in
  result.

(** The two statements of [SendPerfdata] that make the key. *)
Definition escaped_key (label : string) : string :=
  let escaped_key := EscapeMetric label in
  let escaped_key := boost_replace_all escaped_key "::" "." in
  escaped_key.

Section methods.
Variable Convert_ToString_double : float -> string.
Variable static_cast_long : float -> Z.
Variable lexical_cast_double : Value -> Result float.
Variable as_PerfdataValue : Value -> option PerfdataValue.
Variable PerfdataValue_Parse : Value -> option PerfdataValue.
(** [IcingaApplication::GetInstance()->GetEnablePerfdata()] *)
Variable IcingaApplication_GetEnablePerfdata : bool.

(** The loop of [SendMetric] over the tags.  A tag value is a [String];
    [Convert::ToString] gives it back. *)
Definition tags_string (tags : std_map) : string :=
  foldl (fun tags_string tag => tags_string +:+ (" " +:+ tag.1 +:+ "=" +:+ tag.2))
    EmptyString tags.

(** The text [SendMetric] builds. *)
Definition put_line (metric : string) (tags : std_map) (value ts : float) : string :=
  "put " +:+ metric +:+ " " +:+ Convert_ToString_long (static_cast_long ts) +:+ " "
    +:+ Convert_ToString_double value +:+ " " +:+ tags_string tags +:+ LF.

(** [SendMetric]; the checkable is only named in the debug log, which is
    not modelled.  A failed write drops the stream. *)
Definition SendMetric (metric : string) (tags : std_map) (value ts : float)
  : Action State :=
  fun self =>
    let put := put_line metric tags value ts in
    match m_Stream self with
    | None => (Ok tt, self)
    | Some stream =>
        match Stream_Write put stream with
        | Ok stream => (Ok tt, {| IsPaused := IsPaused self; m_Stream := Some stream |})
        | Throw _ => (Ok tt, {| IsPaused := IsPaused self; m_Stream := None |})
        | AssertionFailed => (AssertionFailed, self)
        end
    end.

(** [if (pdv->GetX()) SendMetric(..., pdv->GetX(), ts);] *)
Definition SendThreshold (metric : string) (tags : std_map) (threshold : Value)
    (ts : float) : Action State :=
  when (Value_ToBool threshold)
    (with_value (Value_ToDouble lexical_cast_double threshold)
       (fun value => SendMetric metric tags value ts)).

(** The body of the loop of [SendPerfdata] behind the parsing. *)
Definition SendPerfdataValue (metric : string) (tags : std_map) (pdv : PerfdataValue)
    (ts : float) : Action State :=
  let escaped_key := escaped_key (GetLabel pdv) in
  (SendMetric (metric +:+ "." +:+ escaped_key) tags (GetValue pdv) ts ;;
   SendThreshold (metric +:+ "." +:+ escaped_key +:+ "_crit") tags (GetCrit pdv) ts ;;
   SendThreshold (metric +:+ "." +:+ escaped_key +:+ "_warn") tags (GetWarn pdv) ts ;;
   SendThreshold (metric +:+ "." +:+ escaped_key +:+ "_min") tags (GetMin pdv) ts ;;
   SendThreshold (metric +:+ "." +:+ escaped_key +:+ "_max") tags (GetMax pdv) ts)%action.

Definition SendPerfdata (metric : string) (tags : std_map) (cr : CheckResult)
    (ts : float) : Action State :=
  match GetPerformanceData cr with
  | None => skip
  | Some perfdata =>
      for_each (fun val =>
        match perfdata_element as_PerfdataValue PerfdataValue_Parse val with
        | Some pdv => SendPerfdataValue metric tags pdv ts
        | None => skip
        end) perfdata
  end.

Definition CheckResultHandler (checkable : Checkable) (cr : CheckResult) : Action State :=
  fun self =>
    if IsPaused self then (Ok tt, self)
    else if negb IcingaApplication_GetEnablePerfdata || negb (GetEnablePerfdata checkable)
    then (Ok tt, self)
    else
      let host :=
        match object checkable with
        | OfService service => Service_GetHost service
        | OfHost host => host
        end in
      let tags : std_map := [] in
      let escaped_hostName := EscapeTag (Host_GetName host) in
      let tags := std_map_assign "host" escaped_hostName tags in
      let ts := GetExecutionEnd cr in
      let metric :=
        match object checkable with
        | OfService service => "icinga.service." +:+ EscapeMetric (Service_GetShortName service)
        | OfHost _ => "icinga.host"
        end in
      let state :=
        match object checkable with
        | OfService service => Service_GetState service
        | OfHost host => Host_GetState host
        end in
      let check_tags :=
        match object checkable with
        | OfService service =>
            let tags := std_map_assign "type" "service" tags in
            std_map_assign "service" (EscapeTag (Service_GetShortName service)) tags
        | OfHost _ => std_map_assign "type" "host" tags
        end in
      (SendMetric (metric +:+ ".state") tags state ts ;;
       SendMetric (metric +:+ ".state_type") tags (GetStateType checkable) ts ;;
       SendMetric (metric +:+ ".reachable") tags (IsReachable checkable) ts ;;
       SendMetric (metric +:+ ".downtime_depth") tags (GetDowntimeDepth checkable) ts ;;
       SendMetric (metric +:+ ".acknowledgement") tags (GetAcknowledgement checkable) ts ;;
       SendPerfdata metric tags cr ts ;;
       let metric := "icinga.check" in
       SendMetric (metric +:+ ".current_attempt") check_tags (GetCheckAttempt checkable) ts ;;
       SendMetric (metric +:+ ".max_check_attempts") check_tags (GetMaxCheckAttempts checkable) ts ;;
       SendMetric (metric +:+ ".latency") check_tags (CalculateLatency cr) ts ;;
       SendMetric (metric +:+ ".execution_time") check_tags (CalculateExecutionTime cr) ts
      )%action self.
End methods.

Section reconnect.
(** [socket->Connect(GetHost(), GetPort())] and the stream made of the
    socket: a stream, or the exception of the failed connection
    ([base/tcpsocket.cpp] is not among the sources). *)
Variable TcpSocket_Connect : Result NetworkStream.

Definition ReconnectTimerHandler : Action State :=
  fun self =>
    if IsPaused self then (Ok tt, self)
    else
      match m_Stream self with
      | Some _ => (Ok tt, self)
      | None =>
          match TcpSocket_Connect with
          | Ok stream => (Ok tt, {| IsPaused := IsPaused self; m_Stream := Some stream |})
          | Throw _ => (Ok tt, self)
          | AssertionFailed => (AssertionFailed, self)
          end
      end.
End reconnect.

End OpenTsdbWriter.

(** ** The check result handler of the Graphite writer *)

Section GraphiteWriter_handler.
Variable Convert_ToString_double : float -> string.
Variable static_cast_long : float -> Z.
Variable lexical_cast_double : Value -> Result float.
Variable as_PerfdataValue : Value -> option PerfdataValue.
Variable PerfdataValue_Parse : Value -> option PerfdataValue.
(** [IcingaApplication::GetInstance()->GetEnablePerfdata()] *)
Variable IcingaApplication_GetEnablePerfdata : bool.
(** [m_WorkQueue.IsWorkerThread()] *)
Variable IsWorkerThread : bool.
(** The two name templates of the configuration, and
    [MacroProcessor::ResolveMacros] of a template for a checkable and its
    result, with [EscapeMacroMetric] as the escaper ([icinga/macroprocessor.cpp]
    is not among the sources). *)
Variable GetHostNameTemplate : string.
Variable GetServiceNameTemplate : string.
Variable ResolveMacros : string -> Checkable -> CheckResult -> Result string.

Definition GraphiteWriter_AssertOnWorkQueue : Result unit := ASSERT IsWorkerThread.

Definition GraphiteWriter_CheckResultHandlerInternal (checkable : Checkable)
    (cr : CheckResult) : Action GraphiteWriter.State :=
  fun self =>
    match GraphiteWriter_AssertOnWorkQueue with
    | Ok _ =>
        if negb IcingaApplication_GetEnablePerfdata || negb (GetEnablePerfdata checkable)
        then (Ok tt, self)
        else
          let template :=
            match object checkable with
            | OfService _ => GetServiceNameTemplate
            | OfHost _ => GetHostNameTemplate
            end in
          match ResolveMacros template checkable cr with
          | Ok prefix =>
              let prefixPerfdata := prefix +:+ ".perfdata" in
              let prefixMetadata := prefix +:+ ".metadata" in
              let ts := GetExecutionEnd cr in
              let state :=
                match object checkable with
                | OfService service => Service_GetState service
                | OfHost host => Host_GetState host
                end in
              let send := GraphiteWriter.SendMetric Convert_ToString_double static_cast_long prefixMetadata in
              (when (GraphiteWriter.GetEnableSendMetadata self)
                 (send "state" state ts ;;
                  send "current_attempt" (GetCheckAttempt checkable) ts ;;
                  send "max_check_attempts" (GetMaxCheckAttempts checkable) ts ;;
                  send "state_type" (GetStateType checkable) ts ;;
                  send "reachable" (IsReachable checkable) ts ;;
                  send "downtime_depth" (GetDowntimeDepth checkable) ts ;;
                  send "acknowledgement" (GetAcknowledgement checkable) ts ;;
                  send "latency" (CalculateLatency cr) ts ;;
                  send "execution_time" (CalculateExecutionTime cr) ts) ;;
               GraphiteWriter.SendPerfdata Convert_ToString_double static_cast_long lexical_cast_double
                 as_PerfdataValue PerfdataValue_Parse prefixPerfdata (GetPerformanceData cr) ts
              )%action self
          | Throw e => (Throw e, self)
          | AssertionFailed => (AssertionFailed, self)
          end
    | Throw e => (Throw e, self)
    | AssertionFailed => (AssertionFailed, self)
    end.
End GraphiteWriter_handler.

(** ** What the specification expects of the writers *)

(** The escapers without their last [replace_all], character by character. *)
Definition graphite_metric_char (c : ascii) : ascii :=
  replace_char "/" "_" (replace_char "\" "_" (replace_char "." "_" (replace_char " " "_" c))).

Definition graphite_label_char (c : ascii) : ascii :=
  replace_char "/" "_" (replace_char "\" "_" (replace_char " " "_" c)).

Definition tsdb_metric_char (c : ascii) : ascii :=
  replace_char ":" "_" (replace_char "\" "_" (replace_char "." "_" (replace_char " " "_" c))).

Definition tsdb_tag_char (c : ascii) : ascii :=
  replace_char "\" "_" (replace_char " " "_" c).

(** The number a numeric threshold stands for. *)
Definition threshold_number (v : Value) : float :=
  match v with
  | ValueNumber d => d
  | _ => 0%float
  end.

(** The thresholds of a parsed perfdata value are numbers or empty. *)
Definition numeric_thresholds (pdv : PerfdataValue) : bool :=
  Value_numeric (GetCrit pdv) && Value_numeric (GetWarn pdv)
  && Value_numeric (GetMin pdv) && Value_numeric (GetMax pdv).

Section expected_lines.
Variable Convert_ToString_double : float -> string.
Variable static_cast_long : float -> Z.

(** What the specification lets a perfdata value put on the Graphite wire when
    thresholds are sent: the value, then each threshold that is not zero. *)
Definition expected_threshold_line (prefix key suffix : string) (threshold : Value)
    (ts : float) : list string :=
  if Value_nonzero threshold
  then [GraphiteWriter.metric_line Convert_ToString_double static_cast_long
          prefix (key +:+ suffix) (threshold_number threshold) ts]
  else [].

Definition expected_perfdata_lines (prefix : string) (pdv : PerfdataValue) (ts : float)
  : list string :=
  let key := GraphiteWriter.EscapeMetricLabel (GetLabel pdv) in
  [GraphiteWriter.metric_line Convert_ToString_double static_cast_long
     prefix (key +:+ ".value") (GetValue pdv) ts]
  ++ expected_threshold_line prefix key ".crit" (GetCrit pdv) ts
  ++ expected_threshold_line prefix key ".warn" (GetWarn pdv) ts
  ++ expected_threshold_line prefix key ".min" (GetMin pdv) ts
  ++ expected_threshold_line prefix key ".max" (GetMax pdv) ts.

(** The tags of an OpenTSDB line as the specification words them: every tag
    behind one space. *)
Definition spec_tags (tags : std_map) : string :=
  foldr (fun tag rest => " " +:+ tag.1 +:+ "=" +:+ tag.2 +:+ rest) EmptyString tags.

(** The OpenTSDB line as the specification words it:
    [put <metric> <ts> <value> k1=v1 k2=v2 ...], the tokens one space apart. *)
Definition spec_put_line (metric : string) (tags : std_map) (value ts : float) : string :=
  "put " +:+ metric +:+ " " +:+ Convert_ToString_long (static_cast_long ts) +:+ " "
    +:+ Convert_ToString_double value +:+ spec_tags tags +:+ LF.
End expected_lines.

(** A connected Graphite writer whose stream takes every line. *)
Definition connected_writer (lines : list string) (thresholds metadata : bool)
  : GraphiteWriter.State :=
  {| GraphiteWriter.GetConnected := true;
     GraphiteWriter.m_Stream := {| written := lines; failing := false |};
     GraphiteWriter.GetEnableSendThresholds := thresholds;
     GraphiteWriter.GetEnableSendMetadata := metadata |}.

(** An OpenTSDB writer with a stream that takes every line. *)
Definition streaming_writer (paused : bool) (lines : list string) : OpenTsdbWriter.State :=
  {| OpenTsdbWriter.IsPaused := paused;
     OpenTsdbWriter.m_Stream := Some {| written := lines; failing := false |} |}.

(** ** The lines a perfdata value stands for *)

Section written_lines.
Variable Convert_ToString_double : float -> string.
Variable static_cast_long : float -> Z.

(** The [.value] line of a perfdata value on the Graphite wire. *)
Definition graphite_value_line (prefix : string) (pdv : PerfdataValue) (ts : float) : string :=
  GraphiteWriter.metric_line Convert_ToString_double static_cast_long prefix
    (GraphiteWriter.EscapeMetricLabel (GetLabel pdv) +:+ ".value") (GetValue pdv) ts.

(** The line of a threshold on the OpenTSDB wire, if the threshold is a
    number other than zero. *)
Definition tsdb_threshold_line (metric : string) (tags : std_map) (key suffix : string)
    (threshold : Value) (ts : float) : list string :=
  if Value_nonzero threshold
  then [OpenTsdbWriter.put_line Convert_ToString_double static_cast_long
          (metric +:+ "." +:+ key +:+ suffix) tags (threshold_number threshold) ts]
  else [].

(** The lines of a perfdata value on the OpenTSDB wire: its value, then its
    thresholds. *)
Definition tsdb_perfdata_lines (metric : string) (tags : std_map) (pdv : PerfdataValue)
    (ts : float) : list string :=
  let key := OpenTsdbWriter.escaped_key (GetLabel pdv) in
  [OpenTsdbWriter.put_line Convert_ToString_double static_cast_long
     (metric +:+ "." +:+ key) tags (GetValue pdv) ts]
  ++ tsdb_threshold_line metric tags key "_crit" (GetCrit pdv) ts
  ++ tsdb_threshold_line metric tags key "_warn" (GetWarn pdv) ts
  ++ tsdb_threshold_line metric tags key "_min" (GetMin pdv) ts
  ++ tsdb_threshold_line metric tags key "_max" (GetMax pdv) ts.
End written_lines.

(** ** ObjectLock ([lib/base/objectlock.cpp]) *)

(** A [Lockable] is known by its address.  Its [m_Mutex] is a
    [boost::recursive_mutex]; of every mutex the number of times the running
    thread holds it is kept, other threads are not looked at. *)
Abbreviation Lockable := positive.

Definition Mutexes : Type := Lockable -> nat.

Definition recursive_mutex_lock (object : Lockable) (held : Mutexes) : Mutexes :=
  fun o => if decide (o = object) then S (held o) else held o.

(** [unlock], for a mutex the thread holds. *)
Definition recursive_mutex_unlock (object : Lockable) (held : Mutexes) : Mutexes :=
  fun o => if decide (o = object) then pred (held o) else held o.

Record ObjectLock : Type := mkObjectLock {
  m_Object : option Lockable;
  m_Locked : bool
}.

(** A method works on the lock and on the mutexes. *)
Definition ObjectLock_State : Type := ObjectLock * Mutexes.

(** [m_Object->m_Mutex]: the mutex of the object; the program does not
    survive the dereference of a null pointer. *)
Definition ObjectLock_mutex (self : ObjectLock) : Result Lockable :=
  match m_Object self with
  | Some object => Ok object
  | None => AssertionFailed
  end.

Definition ObjectLock_Lock : Action ObjectLock_State :=
  fun s =>
    let '(self, held) := s in
    match
      let* _ := ASSERT (negb (m_Locked self) && bool_decide (is_Some (m_Object self))) in
      ObjectLock_mutex self
    with
    | Ok mutex =>
        (Ok tt, ({| m_Object := m_Object self; m_Locked := true |},
                 recursive_mutex_lock mutex held))
    | Throw e => (Throw e, s)
    | AssertionFailed => (AssertionFailed, s)
    end.

Definition ObjectLock_Unlock : Action ObjectLock_State :=
  fun s =>
    let '(self, held) := s in
    if m_Locked self
    then
      match ObjectLock_mutex self with
      | Ok mutex =>
          (Ok tt, ({| m_Object := m_Object self; m_Locked := false |},
                   recursive_mutex_unlock mutex held))
      | Throw e => (Throw e, s)
      | AssertionFailed => (AssertionFailed, s)
      end
    else (Ok tt, s).

(** [ObjectLock(object)], [None] for a null pointer. *)
Definition ObjectLock_ObjectLock (object : option Lockable) (held : Mutexes)
  : Result unit * ObjectLock_State :=
  let self := {| m_Object := object; m_Locked := false |} in
  match object with
  | Some _ => ObjectLock_Lock (self, held)
  | None => (Ok tt, (self, held))
  end.

(** [~ObjectLock()] *)
Definition ObjectLock_destructor : Action ObjectLock_State := ObjectLock_Unlock.

(** ** Inputs of the examples *)

Definition script_position : DebugInfo :=
  {| Path := "zones.conf"; FirstLine := 3; FirstColumn := 1; LastLine := 3; LastColumn := 9 |}.

(** The pairs of testable property 3. *)
Definition a1_b2_a3 : DictionaryData :=
  [("a", ValueNumber 1); ("b", ValueNumber 2); ("a", ValueNumber 3)].

(** Seventeen pairs of one key, one more than the library sorts by insertion
    alone. *)
Definition seventeen_a : DictionaryData :=
  [("a", ValueNumber 1); ("a", ValueNumber 2); ("a", ValueNumber 3); ("a", ValueNumber 4);
   ("a", ValueNumber 5); ("a", ValueNumber 6); ("a", ValueNumber 7); ("a", ValueNumber 8);
   ("a", ValueNumber 9); ("a", ValueNumber 10); ("a", ValueNumber 11); ("a", ValueNumber 12);
   ("a", ValueNumber 13); ("a", ValueNumber 14); ("a", ValueNumber 15); ("a", ValueNumber 16);
   ("a", ValueNumber 17)].

(** Whether a value is the number [d]. *)
Definition is_number (d : float) (v : Value) : bool :=
  match v with
  | ValueNumber d' => PrimFloat.eqb d' d
  | _ => false
  end.

(** The check of scenario E2: service [cpu] of host [db-01] in state 2; its
    result ended at 1600000000 and carries no performance data. *)
Definition db_01 : Host := {| Host_GetName := "db-01"; Host_GetState := 0 |}.

Definition cpu : Service :=
  {| Service_GetShortName := "cpu"; Service_GetState := 2; Service_GetHost := db_01 |}.

Definition cpu_checkable : Checkable :=
  {| object := OfService cpu; GetEnablePerfdata := true; GetStateType := 1;
     IsReachable := 1; GetDowntimeDepth := 0; GetAcknowledgement := 0;
     GetCheckAttempt := 1; GetMaxCheckAttempts := 3 |}.

Definition cpu_result : CheckResult :=
  {| GetExecutionEnd := 1600000000; GetPerformanceData := None;
     CalculateLatency := 0; CalculateExecutionTime := 0 |}.

(** The perfdata of scenario E1, [rta=0.5ms;10;20;0;100], as the parser
    delivers it: the value in seconds, warn 10, crit 20, min 0, max 100. *)
Definition rta : PerfdataValue :=
  {| GetLabel := "rta"; GetValue := 0x1.0624dd2f1a9fcp-11;
     GetCrit := ValueNumber 20; GetWarn := ValueNumber 10;
     GetMin := ValueNumber 0; GetMax := ValueNumber 100 |}.

(** * Properties *)

(** ** The array *)

Lemma static_cast_int_id z : INT_MIN <= z <= INT_MAX -> static_cast_int z = z.
Proof.
  unfold static_cast_int, INT_MIN, INT_MAX. intros H.
  rewrite Z.mod_small; lia.
Qed.

Lemma static_cast_size_t_id z : 0 <= z <= INT_MAX -> static_cast_size_t z = z.
Proof.
  unfold static_cast_size_t, INT_MAX. intros H. apply Z.mod_small. lia.
Qed.

Lemma int_add_1 z : 0 <= z < INT_MAX -> int_add z 1 = z + 1.
Proof.
  unfold int_add, INT_MAX. intros H. apply static_cast_int_id. unfold INT_MIN, INT_MAX. lia.
Qed.

Lemma insert_padded {A} (l : list A) (x v : A) (k : nat) :
  <[(length l + k)%nat := v]> (l ++ replicate (S k) x) = l ++ replicate k x ++ [v].
Proof.
  rewrite insert_app_r. f_equal.
  induction k as [|k IH]; [done|].
  change (x :: <[k:=v]> (replicate (S k) x) = x :: replicate k x ++ [v]). by rewrite IH.
Qed.

(** C4.  [insert(i, v)] fails when [i] is beyond the length of the array (the
    assertion of the method stops it and the snapshot stays), appends [v]
    when [i] is the length, and for every [i] up to the length publishes the
    old snapshot with [v] at position [i]: the elements in front keep their
    places, those from [i] on move one place to the right. *)
Theorem Array_Insert_spec (A : ArrayData) (i : nat) (v : Value) :
  ((length A < i)%nat -> Array_Insert i v A = (AssertionFailed, A)) /\
  (i = length A -> Array_Insert i v A = (Ok tt, A ++ [v])) /\
  ((i <= length A)%nat ->
     exists A',
       Array_Insert i v A = (Ok tt, A') /\
       A' = take i A ++ v :: drop i A /\
       length A' = S (length A) /\
       (forall j, (j < i)%nat -> A' !! j = A !! j) /\
       A' !! i = Some v /\
       (forall j, (i <= j)%nat -> A' !! S j = A !! j)).
Proof.
  unfold Array_Insert, rcu_ptr_copy_update, ASSERT, vector_insert. repeat split.
  - intros H. destruct (Nat.leb_spec i (length A)); [lia | done].
  - intros ->. rewrite Nat.leb_refl. simpl. by rewrite take_ge, drop_ge by lia.
  - intros H. destruct (Nat.leb_spec i (length A)); [| lia]. simpl.
    eexists. split; [done|]. split; [done|].
    assert (Hlen : length (take i A) = i) by (rewrite length_take; lia).
    repeat split.
    + rewrite length_app. simpl. rewrite Hlen, length_drop. lia.
    + intros j Hj. rewrite lookup_app_l by lia. by apply lookup_take_lt.
    + by rewrite list_lookup_middle.
    + intros j Hj. rewrite lookup_app_r by lia. rewrite Hlen.
      replace (S j - i)%nat with (S (j - i)) by lia. simpl.
      rewrite lookup_drop. f_equal. lia.
Qed.

Lemma Array_Insert_spec_witness :
  Array_Insert 3 (ValueString "x") [ValueBoolean true; Empty]
    = (AssertionFailed, [ValueBoolean true; Empty]) /\
  Array_Insert 2 (ValueString "x") [ValueBoolean true; Empty]
    = (Ok tt, [ValueBoolean true; Empty; ValueString "x"]) /\
  exists A',
    Array_Insert 1 (ValueString "x") [ValueBoolean true; Empty] = (Ok tt, A') /\
    A' = [ValueBoolean true; ValueString "x"; Empty].
Proof.
  split; [| split].
  - apply (proj1 (Array_Insert_spec [ValueBoolean true; Empty] 3 (ValueString "x"))).
    simpl. lia.
  - apply (proj1 (proj2 (Array_Insert_spec [ValueBoolean true; Empty] 2 (ValueString "x")))).
    reflexivity.
  - destruct (proj2 (proj2 (Array_Insert_spec [ValueBoolean true; Empty] 1 (ValueString "x"))))
      as (A' & H1 & H2 & _).
    + simpl. lia.
    + exists A'. split; [exact H1 | exact H2].
Defined.

Section Array_field_theorems.
Variable ToLong : string -> Result Z.
Variable Proto : string -> bool -> DebugInfo -> Result Value.

Lemma Array_SetFieldByName_in_range (A : ArrayData) s v di n :
  ToLong s = Ok n -> 0 <= n < INT_MAX ->
  Array_SetFieldByName ToLong s v di A =
    if Z.of_nat (length A) <=? n
    then (Ok tt, A ++ replicate (Z.to_nat n - length A) Empty ++ [v])
    else (Ok tt, <[Z.to_nat n := v]> A).
Proof.
  intros Hs Hn. unfold Array_SetFieldByName. rewrite Hs.
  rewrite static_cast_int_id by (unfold INT_MIN, INT_MAX in *; lia).
  destruct (Z.ltb_spec n 0); [lia|].
  rewrite static_cast_size_t_id by lia. rewrite int_add_1 by lia.
  rewrite static_cast_size_t_id by lia.
  unfold rcu_ptr_copy_update. cbn beta.
  destruct (Z.leb_spec (Z.of_nat (length A)) n) as [Hge|Hlt].
  - unfold vector_resize.
    destruct (Z.leb_spec (n + 1) PTRDIFF_MAX) as [_|Hbig];
      [| unfold PTRDIFF_MAX, INT_MAX in *; lia].
    cbn [bind]. unfold vector_at_assign.
    rewrite length_resize.
    destruct (Nat.ltb_spec (Z.to_nat n) (Z.to_nat (n + 1))); [| lia].
    do 2 f_equal. rewrite resize_ge by lia.
    replace (Z.to_nat (n + 1) - length A)%nat with (S (Z.to_nat n - length A)) by lia.
    replace (Z.to_nat n) with (length A + (Z.to_nat n - length A))%nat at 1 by lia.
    apply insert_padded.
  - cbn [bind]. unfold vector_at_assign.
    destruct (Nat.ltb_spec (Z.to_nat n) (length A)); [done | lia].
Qed.

Lemma Array_SetFieldByName_negative (A : ArrayData) s v di n :
  ToLong s = Ok n -> INT_MIN <= n < 0 ->
  Array_SetFieldByName ToLong s v di A = (Throw (out_of_bounds n di), A).
Proof.
  intros Hs Hn. unfold Array_SetFieldByName. rewrite Hs.
  rewrite static_cast_int_id by (unfold INT_MIN, INT_MAX in *; lia).
  by destruct (Z.ltb_spec n 0); [| lia].
Qed.

Lemma Array_SetFieldByName_unparseable (A : ArrayData) s v di e :
  ToLong s = Throw e -> Array_SetFieldByName ToLong s v di A = (Throw e, A).
Proof. intros Hs. unfold Array_SetFieldByName. by rewrite Hs. Qed.

(** What the method does with a key the conversion rejects does not depend on
    the debug info it was called with. *)
Lemma Array_SetFieldByName_unparseable_any_debug_info (A : ArrayData) s v di di' :
  (forall n, ToLong s <> Ok n) ->
  Array_SetFieldByName ToLong s v di A = Array_SetFieldByName ToLong s v di' A.
Proof.
  intros Hs. unfold Array_SetFieldByName. destruct (ToLong s) as [n| |]; [| done | done].
  by destruct (Hs n).
Qed.

Lemma Array_GetFieldByName_in_range (A : ArrayData) s sandboxed di n :
  ToLong s = Ok n -> INT_MIN <= n <= INT_MAX ->
  Array_GetFieldByName ToLong Proto s sandboxed di A =
    if (n <? 0) || (Z.of_nat (length A) <=? n)
    then Throw (out_of_bounds n di)
    else match A !! Z.to_nat n with
         | Some x => Ok x
         | None => Throw std_out_of_range
         end.
Proof.
  intros Hs Hn. unfold Array_GetFieldByName. rewrite Hs.
  rewrite static_cast_int_id by done.
  destruct (Z.ltb_spec n 0); [done|].
  rewrite static_cast_size_t_id by lia. done.
Qed.

Lemma Array_GetFieldByName_unparseable (A : ArrayData) s sandboxed di e :
  ToLong s = Throw e ->
  Array_GetFieldByName ToLong Proto s sandboxed di A = Proto s sandboxed di.
Proof. intros Hs. unfold Array_GetFieldByName. by rewrite Hs. Qed.
End Array_field_theorems.

(** C3, as amended.  Whatever the conversion of field names is,
    [set-field-by-name(s, v)] with a key that converts to a negative [int]
    fails with a [ScriptError] that carries the debug info of the caller, and
    with a key the conversion rejects it fails with the exception of the
    conversion, the same for every debug info it is called with; in both
    cases the snapshot of the array stays as it was. *)
Theorem Array_SetFieldByName_rejects
    (ToLong : string -> Result Z) (A : ArrayData) (s : string) (v : Value) (di : DebugInfo) :
  (forall n, ToLong s = Ok n -> INT_MIN <= n < 0 ->
     Array_SetFieldByName ToLong s v di A = (Throw (out_of_bounds n di), A)) /\
  (forall e, ToLong s = Throw e ->
     Array_SetFieldByName ToLong s v di A = (Throw e, A) /\
     forall di', Array_SetFieldByName ToLong s v di' A = (Throw e, A)).
Proof.
  split.
  - intros n Hs Hn. by apply Array_SetFieldByName_negative.
  - intros e Hs. split; [| intros di']; by apply Array_SetFieldByName_unparseable.
Qed.

Lemma Array_SetFieldByName_rejects_witness :
  Array_SetFieldByName Convert_ToLong "-1" (ValueNumber 1) script_position [ValueBoolean true]
    = (Throw (ScriptError "Array index '-1' is out of bounds." script_position), [ValueBoolean true]) /\
  Array_SetFieldByName Convert_ToLong "notanindex" (ValueNumber 1) script_position [ValueBoolean true]
    = (Throw (std_invalid_argument "Can't convert 'notanindex' to an integer."),
       [ValueBoolean true]).
Proof.
  split.
  - apply (proj1 (Array_SetFieldByName_rejects Convert_ToLong [ValueBoolean true] "-1"
                    (ValueNumber 1) script_position) (-1)); [reflexivity | vm_compute; split; congruence].
  - apply (proj2 (Array_SetFieldByName_rejects Convert_ToLong [ValueBoolean true] "notanindex"
                    (ValueNumber 1) script_position)
             (std_invalid_argument "Can't convert 'notanindex' to an integer.")).
    reflexivity.
Defined.

(** The claim as stated fails: a key that does not parse makes the method
    throw what [Convert::ToLong] throws, not a [ScriptError] with the debug
    info of the caller. *)
Lemma Array_SetFieldByName_unparseable_is_no_ScriptError :
  (Array_SetFieldByName Convert_ToLong "notanindex" (ValueNumber 1) script_position []).1
    = Throw (std_invalid_argument "Can't convert 'notanindex' to an integer.") /\
  ~ (exists message,
       (Array_SetFieldByName Convert_ToLong "notanindex" (ValueNumber 1) script_position []).1
         = Throw (ScriptError message script_position)).
Proof.
  split; [reflexivity|]. intros [message H]. vm_compute in H. discriminate H.
Qed.

(** C6.  For a key that converts to an index [n] from the length of the array
    on and below [INT_MAX], [set-field-by-name] grows the array to [n + 1]
    elements: the old ones keep their places, the new places in front of [n]
    hold the empty value, place [n] holds [v]; so key 5 on the empty array
    gives five empty values and [v].  Beyond the range of [int] the index
    wraps: key 4294967296 on the empty array writes place 0 and leaves an
    array of one element. *)
Theorem Array_SetFieldByName_grows :
  (forall (ToLong : string -> Result Z) (A : ArrayData) s v di n,
     ToLong s = Ok n -> Z.of_nat (length A) <= n < INT_MAX ->
     exists A',
       Array_SetFieldByName ToLong s v di A = (Ok tt, A') /\
       A' = A ++ replicate (Z.to_nat n - length A) Empty ++ [v] /\
       Z.of_nat (length A') = n + 1 /\
       (forall j, (j < length A)%nat -> A' !! j = A !! j) /\
       (forall j, (length A <= j < Z.to_nat n)%nat -> A' !! j = Some Empty) /\
       A' !! Z.to_nat n = Some v) /\
  (forall v di,
     Array_SetFieldByName Convert_ToLong "5" v di []
       = (Ok tt, [Empty; Empty; Empty; Empty; Empty; v])) /\
  (forall v di,
     Convert_ToLong "4294967296" = Ok 4294967296 /\
     Array_SetFieldByName Convert_ToLong "4294967296" v di [] = (Ok tt, [v])).
Proof.
  split; [| split; [reflexivity | split; reflexivity]].
  intros ToLong A s v di n Hs Hn.
  rewrite (Array_SetFieldByName_in_range ToLong A s v di n) by (done || lia).
  destruct (Z.leb_spec (Z.of_nat (length A)) n); [| lia].
  eexists. split; [done|]. split; [done|].
  repeat split.
  - rewrite !length_app, length_replicate. simpl. lia.
  - intros j Hj. by rewrite lookup_app_l.
  - intros j Hj. rewrite lookup_app_r by lia. rewrite lookup_app_l
      by (rewrite length_replicate; lia).
    apply lookup_replicate_2. lia.
  - rewrite lookup_app_r by lia. rewrite lookup_app_r by (rewrite length_replicate; lia).
    rewrite length_replicate.
    by replace (Z.to_nat n - length A - (Z.to_nat n - length A))%nat with 0%nat by lia.
Qed.

Lemma Array_SetFieldByName_grows_witness :
  exists A',
    Array_SetFieldByName Convert_ToLong "2" (ValueString "x") script_position [ValueBoolean true] = (Ok tt, A') /\
    A' = [ValueBoolean true; Empty; ValueString "x"].
Proof.
  destruct (proj1 Array_SetFieldByName_grows Convert_ToLong [ValueBoolean true] "2"
              (ValueString "x") script_position 2) as (A' & H1 & H2 & _).
  - reflexivity.
  - vm_compute. split; congruence.
  - exists A'. split; [exact H1 | exact H2].
Defined.

(** C8.  For a key that converts to an integer [n] in the range of [int],
    [field-by-name] returns the element at [n] when [n] is within bounds and
    throws a [ScriptError] with the debug info of the caller when [n] is
    negative or not below the length (key 3 on two elements); for a key the
    conversion rejects it returns what the prototype lookup returns.  Beyond
    the range of [int] the index wraps: key 4294967296 on an array of one
    element returns that element. *)
Theorem Array_GetFieldByName_spec :
  (forall (ToLong : string -> Result Z) Proto (A : ArrayData) s sandboxed di,
     (forall n, ToLong s = Ok n -> INT_MIN <= n <= INT_MAX ->
        (0 <= n < Z.of_nat (length A) ->
           exists x, A !! Z.to_nat n = Some x /\
                     Array_GetFieldByName ToLong Proto s sandboxed di A = Ok x) /\
        (n < 0 \/ Z.of_nat (length A) <= n ->
           Array_GetFieldByName ToLong Proto s sandboxed di A = Throw (out_of_bounds n di))) /\
     (forall e, ToLong s = Throw e ->
        Array_GetFieldByName ToLong Proto s sandboxed di A = Proto s sandboxed di)) /\
  (forall Proto x y sandboxed di,
     Array_GetFieldByName Convert_ToLong Proto "3" sandboxed di [x; y]
       = Throw (ScriptError "Array index '3' is out of bounds." di)) /\
  (forall Proto A sandboxed di,
     Array_GetFieldByName Convert_ToLong Proto "notanindex" sandboxed di A
       = Proto "notanindex" sandboxed di) /\
  (forall Proto x sandboxed di,
     Convert_ToLong "4294967296" = Ok 4294967296 /\
     Array_GetFieldByName Convert_ToLong Proto "4294967296" sandboxed di [x] = Ok x).
Proof.
  split; [| split; [reflexivity | split; [reflexivity | split; reflexivity]]].
  intros ToLong Proto A s sandboxed di. split.
  - intros n Hs Hn.
    rewrite (Array_GetFieldByName_in_range ToLong Proto A s sandboxed di n) by done.
    split.
    + intros Hb. destruct (Z.ltb_spec n 0); [lia|].
      destruct (Z.leb_spec (Z.of_nat (length A)) n); [lia|]. simpl.
      destruct (lookup_lt_is_Some_2 A (Z.to_nat n)) as [x Hx]; [lia|].
      exists x. by rewrite Hx.
    + intros Hb. destruct (Z.ltb_spec n 0); [done|].
      destruct (Z.leb_spec (Z.of_nat (length A)) n); [done | lia].
  - intros e. apply Array_GetFieldByName_unparseable.
Qed.

Lemma Array_GetFieldByName_spec_witness :
  Array_GetFieldByName Convert_ToLong (fun _ _ _ => Ok Empty) "1" false script_position
    [ValueNumber 4; ValueNumber 5] = Ok (ValueNumber 5) /\
  Array_GetFieldByName Convert_ToLong (fun _ _ _ => Ok Empty) "-2" false script_position
    [ValueNumber 4; ValueNumber 5] = Throw (ScriptError "Array index '-2' is out of bounds." script_position) /\
  Array_GetFieldByName Convert_ToLong (fun _ _ _ => Ok (ValueString "len")) "len" false script_position
    [ValueNumber 4; ValueNumber 5] = Ok (ValueString "len").
Proof.
  pose proof (proj1 Array_GetFieldByName_spec Convert_ToLong) as H.
  split; [| split].
  - destruct (proj1 (proj1 (H (fun _ _ _ => Ok Empty) [ValueNumber 4; ValueNumber 5]
                              "1" false script_position) 1 eq_refl
                       ltac:(vm_compute; split; congruence))) as (x & Hx & Hr).
    + vm_compute. split; congruence.
    + rewrite Hr. f_equal. simpl in Hx. congruence.
  - apply (proj2 (proj1 (H (fun _ _ _ => Ok Empty) [ValueNumber 4; ValueNumber 5]
                           "-2" false script_position) (-2) eq_refl
                    ltac:(vm_compute; split; congruence))).
    left. reflexivity.
  - apply (proj2 (H (fun _ _ _ => Ok (ValueString "len")) [ValueNumber 4; ValueNumber 5]
                    "len" false script_position)
             (std_invalid_argument "Can't convert 'len' to an integer.")).
    reflexivity.
Defined.

(** ** The mapping *)

(** *** The order of keys *)

Lemma String_less_lt a b : String_less a b = true <-> String_as_OT.lt a b.
Proof.
  unfold String_less, String_as_OT.lt.
  destruct (String_as_OT.compare a b); split; congruence.
Qed.

Lemma String_less_irrefl a : String_less a a = false.
Proof.
  destruct (String_less a a) eqn:H; [| done].
  apply String_less_lt in H. by apply (StrictOrder_Irreflexive a) in H.
Qed.

Lemma String_less_trans a b c :
  String_less a b = true -> String_less b c = true -> String_less a c = true.
Proof.
  rewrite !String_less_lt. apply (@StrictOrder_Transitive _ _ String_as_OT.lt_strorder).
Qed.

Lemma String_less_total a b :
  String_less a b = false -> String_less b a = false -> a = b.
Proof.
  intros Hab Hba.
  destruct (String_as_OT.compare_spec a b) as [Heq|Hlt|Hgt]; [done | |].
  - apply String_less_lt in Hlt. congruence.
  - apply String_less_lt in Hgt. congruence.
Qed.

Lemma String_less_cases a b :
  String_less a b = true \/ a = b \/ String_less b a = true.
Proof.
  destruct (String_less a b) eqn:Hab; [by left|].
  destruct (String_less b a) eqn:Hba; [by right; right|].
  right; left. by apply String_less_total.
Qed.

Lemma String_less_le_trans a b c :
  String_less a b = true -> String_less c b = false -> String_less a c = true.
Proof.
  intros Hab Hcb. destruct (String_less_cases c b) as [H|[->|H]]; [congruence | done |].
  by apply String_less_trans with b.
Qed.


(** *** Binary search *)

Section lower_bound.
Context {A B : Type} (comp : A -> B -> bool) (val : B).

Lemma lower_bound_loop_spec (v : list A) (fuel first len : nat) :
  partitioned comp val v -> (len <= fuel)%nat -> (first + len <= length v)%nat ->
  let r := lower_bound_loop comp v val fuel first len in
  (first <= r <= first + len)%nat /\
  (forall i x, (first <= i < r)%nat -> v !! i = Some x -> comp x val = true) /\
  (forall i x, (r <= i < first + len)%nat -> v !! i = Some x -> comp x val = false).
Proof.
  intros Hpart. revert first len.
  induction fuel as [|fuel IH]; intros first len Hfuel Hlen; cbn [lower_bound_loop]; cbn zeta.
  - repeat split; intros; lia.
  - destruct (Nat.eqb_spec len 0) as [->|Hpos].
    { repeat split; intros; lia. }
    assert (Hhalf : (len / 2 < len)%nat) by (apply Nat.div_lt; lia).
    destruct (lookup_lt_is_Some_2 v (first + len / 2)) as [x Hx]; [lia|].
    rewrite Hx. destruct (comp x val) eqn:Hc.
    + destruct (IH (first + len / 2 + 1)%nat (len - len / 2 - 1)%nat) as (Hr & Hlo & Hhi);
        [lia | lia |].
      repeat split; try lia.
      * intros i y Hi Hy.
        destruct (Nat.le_gt_cases i (first + len / 2)) as [Hle|Hgt].
        -- by apply (Hpart i (first + len / 2)%nat y x).
        -- apply (Hlo i); [lia | done].
      * intros i y Hi Hy. apply (Hhi i); [lia | done].
    + destruct (IH first (len / 2)%nat) as (Hr & Hlo & Hhi); [lia | lia |].
      repeat split; try lia.
      * done.
      * intros i y Hi Hy.
        destruct (Nat.lt_ge_cases i (first + len / 2)) as [Hlt|Hge].
        -- apply (Hhi i); [lia | done].
        -- destruct (comp y val) eqn:Hcy; [| done].
           rewrite (Hpart (first + len / 2)%nat i x y) in Hc; done.
Qed.

Lemma std_lower_bound_spec (v : list A) :
  partitioned comp val v ->
  let it := std_lower_bound comp v val in
  (it <= length v)%nat /\
  (forall i x, (i < it)%nat -> v !! i = Some x -> comp x val = true) /\
  (forall i x, (it <= i)%nat -> v !! i = Some x -> comp x val = false).
Proof.
  intros Hpart. unfold std_lower_bound.
  destruct (lower_bound_loop_spec v (length v) 0 (length v)) as (Hr & Hlo & Hhi);
    [done | lia | lia |].
  repeat split; [lia | |].
  - intros i x Hi. apply Hlo. lia.
  - intros i x Hi Hx. apply (Hhi i); [| done]. apply lookup_lt_Some in Hx. lia.
Qed.
End lower_bound.


(** *** Sorted snapshots *)

Lemma StronglySorted_lookup {A} (R : relation A) (l : list A) i j x y :
  StronglySorted R l -> (i < j)%nat -> l !! i = Some x -> l !! j = Some y -> R x y.
Proof.
  intros Hs. revert i j. induction Hs as [|a l Hs IH Hall]; intros i j Hij Hi Hj.
  - by rewrite lookup_nil in Hi.
  - destruct j as [|j]; [lia|]. destruct i as [|i]; simpl in *.
    + injection Hi as <-. rewrite Forall_forall in Hall. apply Hall.
      by eapply list_elem_of_lookup_2.
    + apply (IH i j); [lia | done | done].
Qed.

Lemma lookup_StronglySorted {A} (R : relation A) (l : list A) :
  (forall i j x y, (i < j)%nat -> l !! i = Some x -> l !! j = Some y -> R x y) ->
  StronglySorted R l.
Proof.
  induction l as [|a l IH]; intros H; constructor.
  - apply IH. intros i j x y Hij Hi Hj. apply (H (S i) (S j)); [lia | done | done].
  - apply Forall_forall. intros y Hy. apply list_elem_of_lookup in Hy as [j Hj].
    apply (H 0%nat (S j)); [lia | done | done].
Qed.

Lemma keys_ascending_sorted (data : DictionaryData) :
  keys_ascending data <-> StronglySorted key_lt data.
Proof.
  unfold keys_ascending. split.
  - intros H. apply lookup_StronglySorted. intros i j x y Hij Hi Hj.
    apply (H i j); [done | |]; rewrite list_lookup_fmap; [by rewrite Hi | by rewrite Hj].
  - intros H i j ki kj Hij Hi Hj. rewrite list_lookup_fmap in Hi, Hj.
    destruct (data !! i) as [x|] eqn:Hx; [| done].
    destruct (data !! j) as [y|] eqn:Hy; [| done].
    simpl in *. injection Hi as <-. injection Hj as <-.
    by apply (StronglySorted_lookup key_lt data i j).
Qed.

Lemma sorted_partitioned (data : DictionaryData) key :
  StronglySorted key_lt data -> partitioned KeyLessComparer key data.
Proof.
  intros Hs i j x y Hij Hx Hy Hc. unfold KeyLessComparer in *.
  destruct (decide (i = j)) as [->|Hne]; [congruence|].
  apply String_less_trans with y.1; [| done].
  apply (StronglySorted_lookup key_lt data i j); [done | lia | done | done].
Qed.

(** Where the binary search ends in a sorted snapshot: every key in front is
    smaller, and the key found, if any, is [key] or greater. *)
Lemma lower_bound_sorted (data : DictionaryData) key :
  StronglySorted key_lt data ->
  let it := std_lower_bound KeyLessComparer data key in
  Forall (fun kv => String_less kv.1 key = true) (take it data) /\
  Forall (fun kv => String_less kv.1 key = false) (drop it data).
Proof.
  intros Hs it.
  destruct (std_lower_bound_spec KeyLessComparer key data (sorted_partitioned data key Hs))
    as (Hle & Hlo & Hhi).
  fold it in Hle, Hlo, Hhi. split; apply Forall_lookup; intros i kv Hi.
  - apply lookup_take_Some in Hi as [Hi Hlt]. by apply (Hlo i).
  - rewrite lookup_drop in Hi. apply (Hhi (it + i)%nat); [lia | done].
Qed.

Lemma sorted_insert_at (data : DictionaryData) it kv :
  StronglySorted key_lt data ->
  Forall (fun x => key_lt x kv) (take it data) ->
  Forall (fun x => key_lt kv x) (drop it data) ->
  StronglySorted key_lt (vector_insert it kv data).
Proof.
  intros Hs Hlo Hhi. unfold vector_insert.
  rewrite <- (take_drop it data) in Hs.
  apply StronglySorted_app in Hs as (Hcross & Hs1 & Hs2).
  apply StronglySorted_app_2; [| done | by constructor].
  intros x1 x2 Hx1 Hx2. apply elem_of_cons in Hx2 as [->|Hx2].
  - rewrite Forall_forall in Hlo. by apply Hlo.
  - by apply Hcross.
Qed.

Lemma sorted_same_keys (d1 d2 : DictionaryData) :
  d1.*1 = d2.*1 -> StronglySorted key_lt d1 -> StronglySorted key_lt d2.
Proof.
  intros Heq Hs. apply keys_ascending_sorted. apply keys_ascending_sorted in Hs.
  unfold keys_ascending in *. by rewrite <- Heq.
Qed.

Lemma sorted_delete (data : DictionaryData) it :
  StronglySorted key_lt data -> StronglySorted key_lt (delete it data).
Proof.
  intros Hs. rewrite delete_take_drop.
  rewrite <- (take_drop it data) in Hs.
  apply StronglySorted_app in Hs as (Hcross & Hs1 & Hs2).
  destruct (drop it data) as [|x rest] eqn:Hd.
  - rewrite (drop_ge data (S it)).
    + apply StronglySorted_app_2; [| done | constructor].
      intros ?? _ H. by apply elem_of_nil in H.
    + apply (f_equal length) in Hd. rewrite length_drop in Hd. simpl in Hd. lia.
  - replace (drop (S it) data) with rest.
    + apply StronglySorted_inv in Hs2 as [Hs2 _].
      apply StronglySorted_app_2; [| done | done].
      intros x1 x2 Hx1 Hx2. apply Hcross; [done | by right].
    + rewrite <- (Nat.add_1_r it), <- drop_drop, Hd. done.
Qed.

Lemma Dictionary_Set_Ok key value d : (Dictionary_Set key value d).1 = Ok tt.
Proof.
  unfold Dictionary_Set, rcu_ptr_copy_update.
  destruct (d !! _) as [kv|]; [destruct (String.eqb kv.1 key) |]; done.
Qed.

Lemma Dictionary_Set_sorted key value d :
  StronglySorted key_lt d -> StronglySorted key_lt (Dictionary_Set key value d).2.
Proof.
  intros Hs. unfold Dictionary_Set, rcu_ptr_copy_update.
  destruct (lower_bound_sorted d key Hs) as [Hlo Hhi].
  set (it := std_lower_bound KeyLessComparer d key) in *.
  assert (Hins : (forall kv, d !! it = Some kv -> kv.1 <> key) ->
                 StronglySorted key_lt (vector_insert it (key, value) d)).
  { intros Hne. apply sorted_insert_at; [done | done |].
    apply Forall_lookup. intros i x Hx. unfold key_lt. simpl.
    assert (Hx' : String_less x.1 key = false)
      by (rewrite Forall_lookup in Hhi; by apply (Hhi i)).
    destruct i as [|i].
    - rewrite lookup_drop, Nat.add_0_r in Hx.
      destruct (String_less_cases key x.1) as [H|[H|H]]; [done | | congruence].
      by destruct (Hne x Hx).
    - assert (is_Some (drop it d !! 0%nat)) as [y Hy].
      { apply lookup_lt_is_Some_2. apply lookup_lt_Some in Hx. lia. }
      assert (Hy' : String_less y.1 key = false)
        by (rewrite Forall_lookup in Hhi; by apply (Hhi 0%nat)).
      assert (Hyx : key_lt y x).
      { apply (StronglySorted_lookup key_lt (drop it d) 0 (S i)); [| lia | done | done].
        rewrite <- (take_drop it d) in Hs. by apply StronglySorted_app_1_r in Hs. }
      destruct (String_less_cases key y.1) as [H|[H|H]]; [| | congruence].
      + by apply String_less_trans with y.1.
      + by rewrite H. }
  destruct (d !! it) as [kv|] eqn:Hit.
  - destruct (String.eqb kv.1 key) eqn:Heq; simpl.
    + apply (sorted_same_keys d); [| done].
      rewrite list_fmap_insert. simpl. symmetry. apply list_insert_id.
      by rewrite list_lookup_fmap, Hit.
    + apply Hins. intros kv' [= <-]. by apply String.eqb_neq.
  - simpl. apply Hins. intros kv' [=].
Qed.

Lemma Dictionary_Remove_sorted key d :
  StronglySorted key_lt d -> StronglySorted key_lt (Dictionary_Remove key d).2.
Proof.
  intros Hs. unfold Dictionary_Remove, rcu_ptr_copy_update.
  destruct (d !! _) as [kv|]; [destruct (String.eqb kv.1 key) |]; simpl; try done.
  by apply sorted_delete.
Qed.

Lemma Dictionary_CopyTo_sorted d dest :
  StronglySorted key_lt dest -> StronglySorted key_lt (Dictionary_CopyTo d dest).2.
Proof.
  unfold Dictionary_CopyTo, Dictionary_GetView, rcu_ptr_read.
  revert dest. induction d as [|kv d IH]; intros dest Hs; simpl; [done|].
  pose proof (Dictionary_Set_Ok kv.1 kv.2 dest) as Hok.
  pose proof (Dictionary_Set_sorted kv.1 kv.2 dest Hs) as Hs'.
  destruct (Dictionary_Set kv.1 kv.2 dest) as [r dest']. simpl in *. subst r.
  by apply IH.
Qed.

(** *** [std::unique] *)

Lemma unique_from_elem {A} (pred : A -> A -> bool) (x : A) (l : list A) z :
  z ∈ unique_from pred x l -> z ∈ x :: l.
Proof.
  revert x. induction l as [|y l IH]; intros x Hz; simpl in Hz; [done|].
  destruct (pred x y).
  - apply IH in Hz. apply elem_of_cons in Hz as [->|Hz]; [left | right; by right].
  - apply elem_of_cons in Hz as [->|Hz]; [left | right; by apply IH].
Qed.

Lemma std_unique_elem {A} (pred : A -> A -> bool) (l : list A) z :
  z ∈ std_unique pred l -> z ∈ l.
Proof. destruct l; [done|]. apply unique_from_elem. Qed.

Lemma unique_from_keys (x : DictionaryPair) (l : DictionaryData) k :
  k ∈ (x :: l).*1 -> k ∈ (unique_from pair_key_equal x l).*1.
Proof.
  revert x. induction l as [|y l IH]; intros x Hk; simpl; [done|].
  unfold pair_key_equal at 1. destruct (String.eqb x.1 y.1) eqn:Heq.
  - apply String.eqb_eq in Heq. apply IH. simpl in *.
    rewrite !elem_of_cons in Hk. rewrite elem_of_cons.
    destruct Hk as [Hk|[Hk|Hk]]; [by left | left; congruence | by right].
  - simpl in *. rewrite !elem_of_cons in Hk. rewrite elem_of_cons.
    destruct Hk as [Hk|Hk]; [by left | right]. apply IH. simpl. by rewrite elem_of_cons.
Qed.

Lemma std_unique_keys (l : DictionaryData) k :
  k ∈ l.*1 -> k ∈ (std_unique pair_key_equal l).*1.
Proof. destruct l; [done|]. apply unique_from_keys. Qed.

Lemma unique_from_sorted (x : DictionaryPair) (l : DictionaryData) :
  StronglySorted key_le (x :: l) ->
  StronglySorted key_lt (unique_from pair_key_equal x l).
Proof.
  revert x. induction l as [|y l IH]; intros x Hs; simpl.
  - repeat constructor.
  - apply StronglySorted_inv in Hs as [Hs Hx].
    unfold pair_key_equal at 1. destruct (String.eqb x.1 y.1) eqn:Heq.
    + apply IH. apply StronglySorted_inv in Hs as [Hs Hy].
      apply Forall_cons in Hx as [_ Hx]. by constructor.
    + constructor; [by apply IH|].
      apply Forall_forall. intros z Hz. apply unique_from_elem in Hz.
      apply Forall_cons in Hx as [Hxy Hx]. unfold key_le, pair_key_less in Hxy.
      assert (Hlt : String_less x.1 y.1 = true).
      { destruct (String_less_cases x.1 y.1) as [H|[H|H]]; [done | | congruence].
        apply String.eqb_neq in Heq. done. }
      apply elem_of_cons in Hz as [->|Hz]; [done|].
      apply StronglySorted_inv in Hs as [_ Hy]. rewrite Forall_forall in Hy.
      specialize (Hy z Hz). unfold key_le, pair_key_less in Hy. unfold key_lt.
      by apply String_less_le_trans with y.1.
Qed.

Lemma std_unique_sorted (l : DictionaryData) :
  StronglySorted key_le l -> StronglySorted key_lt (std_unique pair_key_equal l).
Proof. destruct l; [constructor|]. apply unique_from_sorted. Qed.

(** *** First occurrences *)

Lemma first_occurrence_unique_from key (x : DictionaryPair) (l : DictionaryData) :
  first_occurrence key (unique_from pair_key_equal x l) = first_occurrence key (x :: l).
Proof.
  unfold first_occurrence.
  revert x. induction l as [|y l IH]; intros x; [done|].
  cbn [unique_from]. unfold pair_key_equal at 1.
  destruct (String.eqb x.1 y.1) eqn:Heq.
  - rewrite IH. apply String.eqb_eq in Heq. simpl. rewrite Heq.
    by destruct (String.eqb y.1 key).
  - cbn [find]. rewrite IH. done.
Qed.

Lemma first_occurrence_std_unique key (l : DictionaryData) :
  first_occurrence key (std_unique pair_key_equal l) = first_occurrence key l.
Proof. destruct l; [done|]. apply first_occurrence_unique_from. Qed.

Lemma first_occurrence_pairs_of_key key (l : DictionaryData) :
  first_occurrence key l = head (pairs_of_key key l).
Proof.
  unfold first_occurrence, pairs_of_key. induction l as [|x l IH]; [done|].
  simpl. by destruct (String.eqb x.1 key).
Qed.

(** *** The two sorts *)

Lemma insert_sorted_Permutation x (l : DictionaryData) :
  insert_sorted pair_key_less x l ≡ₚ x :: l.
Proof.
  induction l as [|y l IH]; simpl; [done|].
  destruct (pair_key_less y x); [| done].
  rewrite IH. apply Permutation_swap.
Qed.

Lemma stable_sort_Permutation (l : DictionaryData) :
  stable_sort pair_key_less l ≡ₚ l.
Proof.
  induction l as [|x l IH]; simpl; [done|].
  by rewrite insert_sorted_Permutation, IH.
Qed.

Lemma insert_sorted_sorted x (l : DictionaryData) :
  StronglySorted key_le l -> StronglySorted key_le (insert_sorted pair_key_less x l).
Proof.
  induction 1 as [|y l Hs IH Hy]; simpl; [repeat constructor|].
  destruct (pair_key_less y x) eqn:Hyx.
  - constructor; [done|].
    rewrite insert_sorted_Permutation. constructor; [| done].
    unfold key_le, pair_key_less in *.
    destruct (String_less x.1 y.1) eqn:Hxy; [| done].
    pose proof (String_less_trans _ _ _ Hxy Hyx) as H. by rewrite String_less_irrefl in H.
  - constructor; [by constructor|].
    constructor; [done|].
    apply Forall_forall. intros z Hz. rewrite Forall_forall in Hy. specialize (Hy z Hz).
    unfold key_le, pair_key_less in *.
    destruct (String_less z.1 x.1) eqn:Hzx; [| done].
    destruct (String_less_cases y.1 x.1) as [H|[H|H]]; [congruence | |].
    + rewrite H in Hy. congruence.
    + pose proof (String_less_trans _ _ _ Hzx H). congruence.
Qed.

Lemma stable_sort_sorted (l : DictionaryData) :
  StronglySorted key_le (stable_sort pair_key_less l).
Proof.
  induction l as [|x l IH]; simpl; [constructor|]. by apply insert_sorted_sorted.
Qed.

Lemma pairs_of_key_insert_sorted key x (l : DictionaryData) :
  pairs_of_key key (insert_sorted pair_key_less x l) = pairs_of_key key (x :: l).
Proof.
  unfold pairs_of_key. induction l as [|y l IH]; [done|].
  cbn [insert_sorted]. destruct (pair_key_less y x) eqn:Hyx; [| done].
  cbn [List.filter] in *. rewrite IH.
  destruct (String.eqb y.1 key) eqn:Hy; [| done].
  destruct (String.eqb x.1 key) eqn:Hx; [| done].
  apply String.eqb_eq in Hy, Hx. unfold pair_key_less in Hyx.
  rewrite Hy, Hx, String_less_irrefl in Hyx. done.
Qed.

Lemma stable_sort_stable (l : DictionaryData) : stable_on stable_sort l.
Proof.
  intros key. induction l as [|x l IH]; [done|].
  cbn [stable_sort]. rewrite pairs_of_key_insert_sorted.
  unfold pairs_of_key in *. cbn [List.filter]. by rewrite IH.
Qed.

Lemma stable_sort_contract : std_sort_contract stable_sort.
Proof. intros data. split; [apply stable_sort_Permutation | apply stable_sort_sorted]. Qed.

Lemma reversing_sort_contract : std_sort_contract reversing_sort.
Proof.
  intros data. unfold reversing_sort. split.
  - by rewrite stable_sort_Permutation, reverse_Permutation.
  - apply stable_sort_sorted.
Qed.

(** *** The sort of the library on short sequences *)

Lemma insert_upper_length x (l : DictionaryData) :
  length (insert_upper pair_key_less x l) = S (length l).
Proof.
  induction l as [|y l IH]; simpl; [done|].
  destruct (pair_key_less x y); simpl; by rewrite ?IH.
Qed.

Lemma insert_upper_Permutation x (l : DictionaryData) :
  insert_upper pair_key_less x l ≡ₚ x :: l.
Proof.
  induction l as [|y l IH]; simpl; [done|].
  destruct (pair_key_less x y); [done|].
  rewrite IH. apply Permutation_swap.
Qed.

Lemma insert_upper_sorted x (l : DictionaryData) :
  StronglySorted key_le l -> StronglySorted key_le (insert_upper pair_key_less x l).
Proof.
  induction 1 as [|y l Hs IH Hy]; simpl; [repeat constructor|].
  destruct (pair_key_less x y) eqn:Hxy.
  - constructor; [by constructor|].
    constructor.
    + unfold key_le, pair_key_less in *.
      destruct (String_less y.1 x.1) eqn:Hyx; [| done].
      pose proof (String_less_trans _ _ _ Hxy Hyx) as H. by rewrite String_less_irrefl in H.
    + apply Forall_forall. intros z Hz. rewrite Forall_forall in Hy. specialize (Hy z Hz).
      unfold key_le, pair_key_less in *.
      destruct (String_less z.1 x.1) eqn:Hzx; [| done].
      pose proof (String_less_trans _ _ _ Hzx Hxy). congruence.
  - constructor; [done|].
    rewrite insert_upper_Permutation. by constructor.
Qed.

Lemma insert_upper_snoc_less x y (l : DictionaryData) :
  pair_key_less x y = true ->
  insert_upper pair_key_less x (l ++ [y]) = insert_upper pair_key_less x l ++ [y].
Proof.
  intros Hxy. induction l as [|z l IH]; simpl; [by rewrite Hxy|].
  destruct (pair_key_less x z); [done|]. by rewrite IH.
Qed.

Lemma insert_upper_last x (l : DictionaryData) :
  Forall (fun z => pair_key_less x z = false) l ->
  insert_upper pair_key_less x l = l ++ [x].
Proof.
  induction 1 as [|z l Hz _ IH]; simpl; [done|]. by rewrite Hz, IH.
Qed.

Lemma pairs_of_key_insert_upper key x (l : DictionaryData) :
  StronglySorted key_le l ->
  pairs_of_key key (insert_upper pair_key_less x l) = pairs_of_key key (l ++ [x]).
Proof.
  unfold pairs_of_key. induction 1 as [|y l Hs IH Hy]; [done|].
  cbn [insert_upper]. destruct (pair_key_less x y) eqn:Hxy.
  - rewrite List.filter_app. cbn [List.filter].
    destruct (String.eqb x.1 key) eqn:Hx; [| by rewrite app_nil_r].
    apply String.eqb_eq in Hx.
    assert (Hnone : Forall (fun z : DictionaryPair => String.eqb z.1 key = false) (y :: l)).
    { apply Forall_forall. intros z Hz.
      assert (Hlt : String_less x.1 z.1 = true).
      { apply elem_of_cons in Hz as [->|Hz]; [done|].
        rewrite Forall_forall in Hy. specialize (Hy z Hz).
        unfold key_le, pair_key_less in *. by apply String_less_le_trans with y.1. }
      destruct (String.eqb z.1 key) eqn:Hzk; [| done].
      apply String.eqb_eq in Hzk. rewrite Hx, Hzk, String_less_irrefl in Hlt. done. }
    assert (Hnil : List.filter (fun kv : DictionaryPair => String.eqb kv.1 key) (y :: l) = []).
    { clear -Hnone. induction Hnone as [|z l' Hz _ IH']; [done|]. simpl. by rewrite Hz. }
    cbn [List.filter] in Hnil. by rewrite Hnil.
  - cbn [app List.filter]. rewrite IH. done.
Qed.

(** The loop of [__unguarded_linear_insert] on a sorted front part whose first
    element is not greater than the value. *)
Lemma unguarded_linear_insert_loop_sorted (q : DictionaryData) :
  forall fuel h t x y0 q0,
    q = y0 :: q0 -> pair_key_less x y0 = false ->
    StronglySorted key_le q -> (length q <= fuel)%nat ->
    unguarded_linear_insert_loop pair_key_less fuel (length q) x (q ++ h :: t)
    = insert_upper pair_key_less x q ++ t.
Proof.
  induction q as [|y q IH] using rev_ind; intros fuel h t x y0 q0 Hq Hsentinel Hs Hfuel;
    [done|].
  rewrite length_app in *. simpl in Hfuel.
  destruct fuel as [|fuel]; [lia|].
  cbn [unguarded_linear_insert_loop]. cbn zeta.
  replace (length q + length [y] - 1)%nat with (length q) by (simpl; lia).
  assert (Hy : ((q ++ [y]) ++ h :: t) !! length q = Some y).
  { rewrite <- app_assoc. by apply list_lookup_middle. }
  unfold comp_val_at. rewrite Hy.
  assert (Hlast : forall z, <[(length q + length [y])%nat := z]> ((q ++ [y]) ++ h :: t)
                            = (q ++ [y]) ++ z :: t).
  { intros z. rewrite <- (length_app q [y]). rewrite insert_app_r_alt by lia.
    by rewrite Nat.sub_diag. }
  pose proof (StronglySorted_app_1_l _ _ _ Hs) as Hsq.
  destruct (pair_key_less x y) eqn:Hxy.
  - assert (Hq' : exists q0', q = y0 :: q0').
    { destruct q as [|z q']; simpl in Hq; [injection Hq as ->; congruence|].
      injection Hq as -> _. by eexists. }
    destruct Hq' as [q0' Hq'].
    unfold move_to. rewrite Hy, Hlast. rewrite <- app_assoc. cbn [app].
    rewrite (IH fuel y (y :: t) x y0 q0' Hq' Hsentinel Hsq) by lia.
    rewrite insert_upper_snoc_less by done. by rewrite <- app_assoc.
  - rewrite Hlast. rewrite insert_upper_last; [by rewrite <- !app_assoc|].
    apply Forall_app. split; [| by constructor].
    apply Forall_forall. intros z Hz.
    pose proof (StronglySorted_app_1_elem_of _ _ _ z y Hs Hz) as Hcross. unfold key_le, pair_key_less in *.
    destruct (String_less x.1 z.1) eqn:Hxz; [| done].
    rewrite (String_less_le_trans _ _ _ Hxz) in Hxy; [done|].
    apply Hcross. left.
Qed.

(** One round of [__insertion_sort] behind a sorted front part. *)
Lemma insertion_sort_step_sorted (p : DictionaryData) x rest y0 p0 :
  p = y0 :: p0 -> StronglySorted key_le p ->
  insertion_sort_step pair_key_less 0 (p ++ x :: rest) (length p)
  = insert_upper pair_key_less x p ++ rest.
Proof.
  intros Hp Hs. unfold insertion_sort_step, comp_at.
  rewrite list_lookup_middle by done.
  assert (H0 : (p ++ x :: rest) !! 0%nat = Some y0) by by rewrite Hp.
  rewrite H0. destruct (pair_key_less x y0) eqn:Hxy.
  - unfold move_backward_to_first. rewrite list_lookup_middle by done.
    rewrite Nat.sub_0_r, take_0, drop_0. cbn [app].
    rewrite take_app_length.
    replace (S (length p)) with (length (p ++ [x])) by (rewrite length_app; simpl; lia).
    rewrite (cons_middle x p rest), app_assoc, drop_app_length.
    rewrite Hp. simpl. by rewrite Hxy.
  - unfold unguarded_linear_insert. rewrite list_lookup_middle by done.
    by apply (unguarded_linear_insert_loop_sorted p (length p) x rest x y0 p0).
Qed.

Lemma insertion_sort_rounds (rest : DictionaryData) :
  forall (p : DictionaryData) y0 p0,
    p = y0 :: p0 -> StronglySorted key_le p ->
    foldl (insertion_sort_step pair_key_less 0) (p ++ rest) (List.seq (length p) (length rest))
    = foldl (fun front x => insert_upper pair_key_less x front) p rest.
Proof.
  induction rest as [|x rest IH]; intros p y0 p0 Hp Hs; simpl; [by rewrite app_nil_r|].
  rewrite (insertion_sort_step_sorted p x rest y0 p0 Hp Hs).
  rewrite <- (insert_upper_length x p).
  destruct (insert_upper pair_key_less x p) as [|y1 p1] eqn:Hins.
  { pose proof (insert_upper_length x p) as Hlen. rewrite Hins in Hlen. done. }
  apply (IH _ y1 p1 eq_refl). rewrite <- Hins. by apply insert_upper_sorted.
Qed.

Lemma insert_upper_rounds_Permutation (rest p : DictionaryData) :
  foldl (fun front x => insert_upper pair_key_less x front) p rest ≡ₚ p ++ rest.
Proof.
  revert p. induction rest as [|x rest IH]; intros p; simpl; [by rewrite app_nil_r|].
  rewrite IH, insert_upper_Permutation. simpl. apply Permutation_middle.
Qed.

Lemma insert_upper_rounds_sorted (rest p : DictionaryData) :
  StronglySorted key_le p ->
  StronglySorted key_le (foldl (fun front x => insert_upper pair_key_less x front) p rest).
Proof.
  revert p. induction rest as [|x rest IH]; intros p Hs; simpl; [done|].
  apply IH. by apply insert_upper_sorted.
Qed.

Lemma insert_upper_rounds_stable key (rest p : DictionaryData) :
  StronglySorted key_le p ->
  pairs_of_key key (foldl (fun front x => insert_upper pair_key_less x front) p rest)
  = pairs_of_key key (p ++ rest).
Proof.
  revert p. induction rest as [|x rest IH]; intros p Hs; simpl; [by rewrite app_nil_r|].
  rewrite IH by by apply insert_upper_sorted.
  unfold pairs_of_key. rewrite List.filter_app.
  fold (pairs_of_key key (insert_upper pair_key_less x p)).
  rewrite pairs_of_key_insert_upper by done.
  unfold pairs_of_key. rewrite <- List.filter_app. by rewrite <- app_assoc.
Qed.

(** Up to [_S_threshold] elements the library sorts by insertion alone. *)
Lemma libstdcxx_sort_short (data : DictionaryData) :
  (length data <= S_threshold)%nat ->
  libstdcxx_sort pair_key_less data
  = match data with
    | [] => []
    | x :: rest => foldl (fun front x => insert_upper pair_key_less x front) [x] rest
    end.
Proof.
  intros Hlen. unfold libstdcxx_sort. destruct data as [|x rest]; [done|].
  cbn [length Nat.eqb]. cbn zeta. cbn [introsort_loop].
  assert (Hshort : (S_threshold <? S (length rest) - 0)%nat = false).
  { apply Nat.ltb_ge. simpl in Hlen. lia. }
  rewrite Hshort. unfold final_insertion_sort. rewrite Hshort.
  unfold insertion_sort. cbn [Nat.eqb].
  replace (S (length rest) - (0 + 1))%nat with (length rest) by lia.
  apply (insertion_sort_rounds rest [x] x [] eq_refl). repeat constructor.
Qed.

Lemma libstdcxx_sort_short_contract (data : DictionaryData) :
  (length data <= S_threshold)%nat ->
  std_sort_contract_on libstdcxx_sort data /\ stable_on libstdcxx_sort data.
Proof.
  intros Hlen. unfold std_sort_contract_on, stable_on.
  rewrite (libstdcxx_sort_short data Hlen). destruct data as [|x rest].
  - split; [split; [done | constructor] | done].
  - split; [split|].
    + apply (insert_upper_rounds_Permutation rest [x]).
    + apply insert_upper_rounds_sorted. repeat constructor.
    + intros key. apply (insert_upper_rounds_stable key rest [x]). repeat constructor.
Qed.

(** *** The constructor and the reachable snapshots *)

Lemma Dictionary_Dictionary_sorted_on std_sort data :
  std_sort_contract_on std_sort data ->
  StronglySorted key_lt (Dictionary_Dictionary std_sort data).
Proof.
  intros Hsort. unfold Dictionary_Dictionary. apply std_unique_sorted. apply Hsort.
Qed.


Section Dictionary_theorems.
Variable std_sort :
  (DictionaryPair -> DictionaryPair -> bool) -> DictionaryData -> DictionaryData.
Variable Value_Clone : Value -> Value.
Hypothesis std_sort_ok : std_sort_contract std_sort.

Lemma Dictionary_Dictionary_sorted data :
  StronglySorted key_lt (Dictionary_Dictionary std_sort data).
Proof. apply Dictionary_Dictionary_sorted_on. apply std_sort_ok. Qed.

Lemma Dictionary_reachable_sorted d :
  Dictionary_reachable std_sort Value_Clone d -> StronglySorted key_lt d.
Proof.
  induction 1.
  - constructor.
  - apply Dictionary_Dictionary_sorted.
  - by apply Dictionary_Set_sorted.
  - by apply Dictionary_Set_sorted.
  - by apply Dictionary_Remove_sorted.
  - constructor.
  - by apply Dictionary_CopyTo_sorted.
  - apply Dictionary_Dictionary_sorted.
  - apply Dictionary_Dictionary_sorted.
Qed.
End Dictionary_theorems.


(** C5.  With a [std::sort] that keeps its contract, every snapshot a mapping
    can reach by construction, set, remove, clear, copy-to and the two clones
    has its keys in strictly ascending order: of any two positions, the
    earlier holds the smaller key. *)
Theorem Dictionary_keys_ascending std_sort Value_Clone (d : DictionaryData) :
  std_sort_contract std_sort ->
  Dictionary_reachable std_sort Value_Clone d ->
  forall i j ki kj, (i < j)%nat ->
    Dictionary_GetKeys d !! i = Some ki -> Dictionary_GetKeys d !! j = Some kj ->
    String_less ki kj = true.
Proof.
  intros Hsort Hreach. apply keys_ascending_sorted.
  by apply (Dictionary_reachable_sorted std_sort Value_Clone).
Qed.

Lemma Dictionary_keys_ascending_witness :
  let d := (Dictionary_Set "aa" (ValueBoolean true)
              (Dictionary_Remove "b" (Dictionary_Dictionary stable_sort a1_b2_a3)).2).2 in
  d = [("a", ValueNumber 1); ("aa", ValueBoolean true)] /\
  String_less "a" "aa" = true.
Proof.
  split; [reflexivity|].
  apply (Dictionary_keys_ascending stable_sort (fun v => v)
           (Dictionary_Set "aa" (ValueBoolean true)
              (Dictionary_Remove "b" (Dictionary_Dictionary stable_sort a1_b2_a3)).2).2
           stable_sort_contract
           (reach_Set _ _ _ _ _ (reach_Remove _ _ _ _ (reach_construct _ _ a1_b2_a3)))
           0%nat 1%nat "a" "aa"); [lia | reflexivity | reflexivity].
Defined.

(** What a snapshot with ascending keys made of pairs of [(a,1),(b,2),(a,3)],
    one for each of the keys, can be. *)
Lemma a1_b2_a3_snapshots (result : DictionaryData) :
  StronglySorted key_lt result ->
  (forall kv, kv ∈ result -> kv ∈ a1_b2_a3) ->
  (forall key, key ∈ a1_b2_a3.*1 -> key ∈ result.*1) ->
  result = [("a", ValueNumber 1); ("b", ValueNumber 2)] \/
  result = [("a", ValueNumber 3); ("b", ValueNumber 2)].
Proof.
  intros Hs Hin Hkeys.
  assert (Hpair : forall kv, kv ∈ result ->
            kv = ("a", ValueNumber 1) \/ kv = ("b", ValueNumber 2) \/ kv = ("a", ValueNumber 3)).
  { intros kv Hkv. apply Hin in Hkv. unfold a1_b2_a3 in Hkv.
    rewrite !elem_of_cons, elem_of_nil in Hkv. tauto. }
  assert (Ha : "a" ∈ result.*1) by (apply Hkeys; unfold a1_b2_a3; simpl; left).
  assert (Hb : "b" ∈ result.*1) by (apply Hkeys; unfold a1_b2_a3; simpl; right; left).
  destruct result as [|x [|y [|z result]]]; simpl in Ha, Hb.
  - by apply elem_of_nil in Ha.
  - apply list_elem_of_singleton in Ha, Hb. congruence.
  - apply StronglySorted_inv in Hs as [_ Hxy]. apply Forall_cons in Hxy as [Hxy _].
    unfold key_lt in Hxy.
    destruct (Hpair x) as [->|[->| ->]]; [left | ..];
      (destruct (Hpair y) as [->|[->| ->]]; [right; left | ..]);
      try (vm_compute in Hxy; discriminate Hxy); auto.
    all: rewrite !elem_of_cons, elem_of_nil in Ha, Hb; simpl in Ha, Hb.
    all: destruct Ha as [Ha|[Ha|Ha]]; destruct Hb as [Hb|[Hb|Hb]];
      try discriminate Ha; try discriminate Hb; done.
  - apply StronglySorted_inv in Hs as [Hs Hx].
    apply StronglySorted_inv in Hs as [_ Hy].
    apply Forall_cons in Hx as [Hxy _]. apply Forall_cons in Hy as [Hyz _].
    unfold key_lt in Hxy, Hyz.
    destruct (Hpair x) as [->|[->| ->]]; [left | ..];
      (destruct (Hpair y) as [->|[->| ->]]; [right; left | ..]);
      try (vm_compute in Hxy; discriminate Hxy);
      (destruct (Hpair z) as [->|[->| ->]]; [right; right; left | ..]);
      vm_compute in Hyz; discriminate Hyz.
Qed.

(** The head of the left sequence is found in the right one and taken out of
    both. *)
Ltac place_head :=
  lazymatch goal with
  | |- ?x :: ?l ≡ₚ ?r =>
      let rec go front rest :=
        lazymatch rest with
        | x :: ?rest' => apply (Permutation_cons_app front rest' x); cbn [app]
        | ?y :: ?rest' => let front' := eval cbn [app] in (front ++ [y]) in go front' rest'
        end in
      go (@nil DictionaryPair) r
  end.

(** C1, as amended.  With a [std::sort] that returns the input sorted,
    constructing a mapping from a sequence of pairs gives a snapshot with
    strictly ascending keys, made of pairs of the input, one for every key of
    the input; and when the sort is stable on the input, the pair kept for a
    key is its first occurrence in the input.  From [(a,1),(b,2),(a,3)] the
    snapshot is [(a,1),(b,2)] or [(a,3),(b,2)], and [(a,1),(b,2)] when the
    sort is stable on it.  The [std::sort] of GNU libstdc++ returns every
    input of at most 16 pairs sorted and is stable on it, so that the first
    occurrence of every key is the one kept. *)
Theorem Dictionary_constructor_spec std_sort (data : DictionaryData) :
  std_sort_contract_on std_sort data ->
  let result := Dictionary_Dictionary std_sort data in
  keys_ascending result /\
  (forall kv, kv ∈ result -> kv ∈ data) /\
  (forall key, key ∈ data.*1 -> key ∈ result.*1) /\
  (stable_on std_sort data ->
   forall key, first_occurrence key result = first_occurrence key data) /\
  (data = a1_b2_a3 ->
   (result = [("a", ValueNumber 1); ("b", ValueNumber 2)] \/
    result = [("a", ValueNumber 3); ("b", ValueNumber 2)]) /\
   (stable_on std_sort data -> result = [("a", ValueNumber 1); ("b", ValueNumber 2)])) /\
  ((length data <= 16)%nat ->
   std_sort_contract_on libstdcxx_sort data /\
   stable_on libstdcxx_sort data /\
   forall key,
     first_occurrence key (Dictionary_Dictionary libstdcxx_sort data)
     = first_occurrence key data).
Proof.
  intros Hsort result.
  assert (Hs : StronglySorted key_lt result) by by apply Dictionary_Dictionary_sorted_on.
  assert (Hin : forall kv, kv ∈ result -> kv ∈ data).
  { intros kv Hkv. apply std_unique_elem in Hkv. by rewrite (proj1 Hsort) in Hkv. }
  assert (Hkeys : forall key, key ∈ data.*1 -> key ∈ result.*1).
  { intros key Hkey. apply std_unique_keys. by rewrite (proj1 Hsort). }
  assert (Hfirst : forall sort, stable_on sort data ->
            forall key, first_occurrence key (Dictionary_Dictionary sort data)
                        = first_occurrence key data).
  { intros sort Hstable key. unfold Dictionary_Dictionary.
    rewrite first_occurrence_std_unique, !first_occurrence_pairs_of_key.
    by rewrite Hstable. }
  split; [by apply keys_ascending_sorted|]. split; [done|]. split; [done|].
  split; [by apply Hfirst|]. split.
  - intros ->.
    destruct (a1_b2_a3_snapshots result Hs Hin Hkeys) as [Hr|Hr]; (split; [by auto|]);
      intros Hstable; [done|].
    specialize (Hfirst std_sort Hstable "a"). fold result in Hfirst. rewrite Hr in Hfirst.
    apply (f_equal (fun found => match found with Some kv => is_number 1 kv.2 | None => false end))
      in Hfirst.
    vm_compute in Hfirst. discriminate Hfirst.
  - intros Hlen. destruct (libstdcxx_sort_short_contract data Hlen) as [Hcontract Hstable].
    split; [done|]. split; [done|]. by apply Hfirst.
Qed.

Lemma Dictionary_constructor_spec_witness :
  Dictionary_Dictionary libstdcxx_sort a1_b2_a3 = [("a", ValueNumber 1); ("b", ValueNumber 2)].
Proof.
  assert (Hlen : (length a1_b2_a3 <= S_threshold)%nat) by (vm_compute; lia).
  destruct (libstdcxx_sort_short_contract a1_b2_a3 Hlen) as [Hcontract Hstable].
  apply (proj2 (proj1 (proj2 (proj2 (proj2 (proj2
           (Dictionary_constructor_spec libstdcxx_sort a1_b2_a3 Hcontract))))) eq_refl)).
  exact Hstable.
Defined.

(** The claim as stated fails.  With the [std::sort] of GNU libstdc++,
    seventeen pairs of the key [a] with the values 1 to 17 are constructed
    into the single pair [(a,9)]: the sort returns them sorted and brings the
    ninth to the front.  And a sort within the contract of [std::sort] may
    bring the later of two pairs of one key to the front, and then
    [(a,1),(b,2),(a,3)] is constructed into [(a,3),(b,2)]. *)
Lemma Dictionary_constructor_keeps_later_duplicate :
  (std_sort_contract_on libstdcxx_sort seventeen_a /\
   Dictionary_Dictionary libstdcxx_sort seventeen_a = [("a", ValueNumber 9)] /\
   first_occurrence "a" seventeen_a = Some ("a", ValueNumber 1) /\
   first_occurrence "a" (Dictionary_Dictionary libstdcxx_sort seventeen_a)
   <> first_occurrence "a" seventeen_a) /\
  (std_sort_contract reversing_sort /\
   Dictionary_Dictionary reversing_sort a1_b2_a3 = [("a", ValueNumber 3); ("b", ValueNumber 2)] /\
   Dictionary_Dictionary reversing_sort a1_b2_a3 <> [("a", ValueNumber 1); ("b", ValueNumber 2)] /\
   first_occurrence "a" (Dictionary_Dictionary reversing_sort a1_b2_a3)
   <> first_occurrence "a" a1_b2_a3).
Proof.
  split.
  - split; [|split; [reflexivity|split; [reflexivity|]]].
    + let sorted := eval vm_compute in (libstdcxx_sort pair_key_less seventeen_a) in
      assert (Hsorted : libstdcxx_sort pair_key_less seventeen_a = sorted)
        by (vm_compute; reflexivity).
      unfold std_sort_contract_on. rewrite Hsorted. split.
      * unfold seventeen_a. symmetry. repeat place_head. reflexivity.
      * repeat (constructor; [| repeat (constructor; [reflexivity|]); constructor]).
        constructor.
    + intros H.
      apply (f_equal (fun found => match found with Some kv => is_number 1 kv.2 | None => false end))
        in H.
      vm_compute in H. discriminate H.
  - split; [apply reversing_sort_contract|]. split; [reflexivity|]. split.
    + intros H.
      apply (f_equal (fun data => match data with kv :: _ => is_number 1 kv.2 | [] => false end))
        in H.
      vm_compute in H. discriminate H.
    + intros H.
      apply (f_equal (fun found => match found with Some kv => is_number 1 kv.2 | None => false end))
        in H.
      vm_compute in H. discriminate H.
Qed.

(** ** The escapers *)

(** *** Replacing in strings *)


Lemma prefix_cons a s1 b s2 :
  String.prefix (String a s1) (String b s2) = Ascii.eqb a b && String.prefix s1 s2.
Proof.
  simpl. destruct (ascii_dec a b) as [->|Hne].
  - by rewrite Ascii.eqb_refl.
  - apply Ascii.eqb_neq in Hne. by rewrite Hne.
Qed.

Lemma prefix_empty s : String.prefix EmptyString s = true.
Proof. by destruct s. Qed.

Lemma prefix_char a c s : String.prefix (String a EmptyString) (String c s) = Ascii.eqb c a.
Proof. by rewrite prefix_cons, prefix_empty, andb_true_r, Ascii.eqb_sym. Qed.

Lemma boost_replace_all_char s a b :
  boost_replace_all s (String a EmptyString) (String b EmptyString)
    = String_map (replace_char a b) s.
Proof.
  unfold boost_replace_all. induction s as [|c s IH]; [done|].
  cbn [replace_all_from String_map]. rewrite prefix_char. unfold replace_char at 1.
  destruct (Ascii.eqb c a); simpl; by rewrite IH.
Qed.

Lemma String_map_map f g s : String_map f (String_map g s) = String_map (fun c => f (g c)) s.
Proof. induction s as [|c s IH]; simpl; by rewrite ?IH. Qed.

Lemma String_map_ext f g s : (forall c, f c = g c) -> String_map f s = String_map g s.
Proof. intros H. induction s as [|c s IH]; simpl; by rewrite ?H, ?IH. Qed.

Lemma String_map_app f s t : String_map f (s +:+ t) = String_map f s +:+ String_map f t.
Proof. induction s as [|c s IH]; simpl; by rewrite ?IH. Qed.

Lemma has_char_map f c s :
  (forall c', f c' <> c) -> has_char c (String_map f s) = false.
Proof.
  intros H. induction s as [|c' s IH]; simpl; [done|].
  rewrite IH, orb_false_r. by apply Ascii.eqb_neq.
Qed.

Lemma replace_all_from_fixed f search format skip s :
  String_map f format = format -> String_map f s = s ->
  String_map f (replace_all_from search format skip s) = replace_all_from search format skip s.
Proof.
  intros Hformat. revert skip. induction s as [|c s IH]; intros skip Hs; [done|].
  simpl in Hs. injection Hs as Hc Hs.
  cbn [replace_all_from]. destruct skip as [|skip]; [| by apply IH].
  destruct (String.prefix search (String c s)).
  - rewrite String_map_app, Hformat. f_equal. by apply IH.
  - simpl. rewrite Hc. f_equal. by apply IH.
Qed.

Lemma replace_all_from_absent search format s :
  occurs search s = false -> replace_all_from search format 0 s = s.
Proof.
  induction s as [|c s IH]; [done|]. cbn [occurs replace_all_from].
  intros H. apply orb_false_iff in H as [Hp Ho]. rewrite Hp. f_equal. by apply IH.
Qed.

Lemma boost_replace_all_absent s search format :
  occurs search s = false -> boost_replace_all s search format = s.
Proof. unfold boost_replace_all. destruct search; [done|]. apply replace_all_from_absent. Qed.

Lemma occurs_without_char c search' s :
  has_char c s = false -> occurs (String c search') s = false.
Proof.
  induction s as [|c' s IH]; [done|]. cbn [has_char occurs].
  intros H. apply orb_false_iff in H as [Hc Hs].
  by rewrite prefix_cons, (IH Hs), Ascii.eqb_sym, Hc.
Qed.

(** What replacing "::" by "." leaves holds no "::". *)
Lemma double_colon_gone s :
  occurs "::" (replace_all_from "::" "." 0 s) = false /\
  occurs "::" (replace_all_from "::" "." 1 s) = false.
Proof.
  induction s as [|c s [IH0 IH1]]; [done|]. split; [| exact IH0].
  cbn [replace_all_from].
  destruct (String.prefix "::" (String c s)) eqn:Hp.
  - change (String.length "::" - 1)%nat with 1%nat.
    change ("." +:+ ?t) with (String "."%char t). cbn [occurs]. by rewrite IH1.
  - cbn [occurs]. rewrite IH0, orb_false_r.
    rewrite prefix_cons in Hp |- *.
    destruct (Ascii.eqb ":" c) eqn:Hc; [| done]. rewrite andb_true_l in Hp |- *.
    destruct s as [|d s]; [done|].
    rewrite prefix_char in Hp. cbn [replace_all_from].
    rewrite prefix_cons, (Ascii.eqb_sym ":" d), Hp, andb_false_l.
    by rewrite prefix_char.
Qed.

(** *** The escapers as character maps *)


Ltac each_char c := destruct c as [[] [] [] [] [] [] [] []]; vm_compute; congruence.

Lemma GraphiteWriter_EscapeMetric_map s :
  GraphiteWriter.EscapeMetric s = String_map graphite_metric_char s.
Proof.
  unfold GraphiteWriter.EscapeMetric. cbn zeta.
  by rewrite !boost_replace_all_char, !String_map_map.
Qed.

Lemma GraphiteWriter_EscapeMetricLabel_map s :
  GraphiteWriter.EscapeMetricLabel s
    = boost_replace_all (String_map graphite_label_char s) "::" ".".
Proof.
  unfold GraphiteWriter.EscapeMetricLabel. cbn zeta.
  by rewrite !boost_replace_all_char, !String_map_map.
Qed.

Lemma OpenTsdbWriter_EscapeMetric_map s :
  OpenTsdbWriter.EscapeMetric s = String_map tsdb_metric_char s.
Proof.
  unfold OpenTsdbWriter.EscapeMetric. cbn zeta.
  by rewrite !boost_replace_all_char, !String_map_map.
Qed.

Lemma OpenTsdbWriter_EscapeTag_map s :
  OpenTsdbWriter.EscapeTag s = String_map tsdb_tag_char s.
Proof.
  unfold OpenTsdbWriter.EscapeTag. cbn zeta.
  by rewrite !boost_replace_all_char, !String_map_map.
Qed.

Lemma String_map_idempotent f s :
  (forall c, f (f c) = f c) -> String_map f (String_map f s) = String_map f s.
Proof. intros H. rewrite String_map_map. by apply String_map_ext. Qed.

Lemma graphite_metric_char_idempotent c :
  graphite_metric_char (graphite_metric_char c) = graphite_metric_char c.
Proof. each_char c. Qed.

Lemma graphite_label_char_idempotent c :
  graphite_label_char (graphite_label_char c) = graphite_label_char c.
Proof. each_char c. Qed.

Lemma tsdb_metric_char_idempotent c :
  tsdb_metric_char (tsdb_metric_char c) = tsdb_metric_char c.
Proof. each_char c. Qed.

Lemma tsdb_tag_char_idempotent c : tsdb_tag_char (tsdb_tag_char c) = tsdb_tag_char c.
Proof. each_char c. Qed.

Lemma tsdb_metric_char_avoids c :
  tsdb_metric_char c <> " "%char /\ tsdb_metric_char c <> "."%char /\
  tsdb_metric_char c <> "\"%char /\ tsdb_metric_char c <> ":"%char.
Proof. destruct c as [[] [] [] [] [] [] [] []]; vm_compute; repeat split; congruence. Qed.

Lemma GraphiteWriter_EscapeMetricLabel_idempotent s :
  GraphiteWriter.EscapeMetricLabel (GraphiteWriter.EscapeMetricLabel s)
    = GraphiteWriter.EscapeMetricLabel s.
Proof.
  rewrite (GraphiteWriter_EscapeMetricLabel_map (GraphiteWriter.EscapeMetricLabel s)).
  rewrite GraphiteWriter_EscapeMetricLabel_map.
  set (t := String_map graphite_label_char s).
  unfold boost_replace_all.
  rewrite replace_all_from_fixed.
  - apply replace_all_from_absent. apply double_colon_gone.
  - reflexivity.
  - apply String_map_idempotent, graphite_label_char_idempotent.
Qed.

(** C7.  The escapers are functions of their input string alone; they map
    "a b.c" to "a_b_c", "a b::c" to "a_b.c" and "a:b" to "a_b", and each of
    them, applied to its own result, gives that result back. *)
Theorem escape_functions_idempotent :
  GraphiteWriter.EscapeMetric "a b.c" = "a_b_c" /\
  GraphiteWriter.EscapeMetricLabel "a b::c" = "a_b.c" /\
  OpenTsdbWriter.EscapeMetric "a:b" = "a_b" /\
  (forall s, GraphiteWriter.EscapeMetric (GraphiteWriter.EscapeMetric s)
               = GraphiteWriter.EscapeMetric s) /\
  (forall s, GraphiteWriter.EscapeMetricLabel (GraphiteWriter.EscapeMetricLabel s)
               = GraphiteWriter.EscapeMetricLabel s) /\
  (forall s, OpenTsdbWriter.EscapeMetric (OpenTsdbWriter.EscapeMetric s)
               = OpenTsdbWriter.EscapeMetric s) /\
  (forall s, OpenTsdbWriter.EscapeTag (OpenTsdbWriter.EscapeTag s)
               = OpenTsdbWriter.EscapeTag s).
Proof.
  split; [reflexivity|]. split; [reflexivity|]. split; [reflexivity|].
  split; [| split; [| split]]; intros s.
  - rewrite !GraphiteWriter_EscapeMetric_map.
    apply String_map_idempotent, graphite_metric_char_idempotent.
  - apply GraphiteWriter_EscapeMetricLabel_idempotent.
  - rewrite !OpenTsdbWriter_EscapeMetric_map.
    apply String_map_idempotent, tsdb_metric_char_idempotent.
  - rewrite !OpenTsdbWriter_EscapeTag_map.
    apply String_map_idempotent, tsdb_tag_char_idempotent.
Qed.

(** C10.  In the OpenTSDB writer the escaped label holds no space, dot,
    backslash or colon, so the replacement of "::" by "." that follows changes
    nothing: the key is the escaped label, it holds no dot, and a "::" of the
    label comes out as "__" (the Graphite label escaper makes it a dot). *)
Theorem OpenTsdbWriter_escaped_key_keeps_no_colon (label : string) :
  (has_char " " (OpenTsdbWriter.EscapeMetric label) = false /\
   has_char "." (OpenTsdbWriter.EscapeMetric label) = false /\
   has_char "\" (OpenTsdbWriter.EscapeMetric label) = false /\
   has_char ":" (OpenTsdbWriter.EscapeMetric label) = false) /\
  boost_replace_all (OpenTsdbWriter.EscapeMetric label) "::" "."
    = OpenTsdbWriter.EscapeMetric label /\
  OpenTsdbWriter.escaped_key label = OpenTsdbWriter.EscapeMetric label /\
  has_char "." (OpenTsdbWriter.escaped_key label) = false /\
  (forall s t, label = s +:+ "::" +:+ t ->
     OpenTsdbWriter.escaped_key label
       = OpenTsdbWriter.escaped_key s +:+ "__" +:+ OpenTsdbWriter.escaped_key t) /\
  OpenTsdbWriter.escaped_key "a::b" = "a__b" /\
  GraphiteWriter.EscapeMetricLabel "a::b" = "a.b".
Proof.
  assert (Hchars : forall c, (c = " " \/ c = "." \/ c = "\" \/ c = ":")%char ->
            forall l, has_char c (OpenTsdbWriter.EscapeMetric l) = false).
  { intros c Hc l. rewrite OpenTsdbWriter_EscapeMetric_map. apply has_char_map.
    intros c'. destruct (tsdb_metric_char_avoids c') as (H1 & H2 & H3 & H4).
    by destruct Hc as [->|[->|[->| ->]]]. }
  assert (Hid : forall l, OpenTsdbWriter.escaped_key l = OpenTsdbWriter.EscapeMetric l).
  { intros l. unfold OpenTsdbWriter.escaped_key. cbn zeta.
    apply boost_replace_all_absent, occurs_without_char, Hchars. auto. }
  split; [repeat split; apply Hchars; auto|].
  split; [apply Hid|]. split; [apply Hid|].
  split; [rewrite Hid; apply Hchars; auto|].
  split; [| split; reflexivity].
  intros s t ->. rewrite !Hid, !OpenTsdbWriter_EscapeMetric_map.
  by rewrite !String_map_app.
Qed.

Lemma OpenTsdbWriter_escaped_key_keeps_no_colon_witness :
  OpenTsdbWriter.escaped_key "disk::/var" = "disk__/var".
Proof.
  destruct (OpenTsdbWriter_escaped_key_keeps_no_colon "disk::/var")
    as (_ & _ & _ & _ & H & _).
  rewrite (H "disk" "/var" eq_refl). reflexivity.
Defined.

(** ** The writers *)


Lemma append_cons c (a b : string) : String c a +:+ b = String c (a +:+ b).
Proof. reflexivity. Qed.

Lemma append_assoc (a b c : string) : (a +:+ b) +:+ c = a +:+ (b +:+ c).
Proof. induction a as [|x a IH]; [done|]. by rewrite !append_cons, IH. Qed.

Lemma append_inj_l (a b c : string) : a +:+ b = a +:+ c -> b = c.
Proof. apply (inj (String.app a)). Qed.

Lemma numeric_ToBool v : Value_numeric v = true -> Value_ToBool v = Value_nonzero v.
Proof. by destruct v. Qed.

Lemma numeric_ToDouble lexd v :
  Value_numeric v = true -> Value_ToDouble lexd v = Ok (threshold_number v).
Proof. by destruct v. Qed.

Section GraphiteWriter_theorems.
Variable cvtD : float -> string.
Variable cvtL : float -> Z.
Variable lexd : Value -> Result float.
Variable asP : Value -> option PerfdataValue.
Variable parse : Value -> option PerfdataValue.

Lemma GraphiteWriter_SendMetric_connected prefix name value ts lines thresholds metadata :
  GraphiteWriter.SendMetric cvtD cvtL prefix name value ts
    (connected_writer lines thresholds metadata)
  = (Ok tt, connected_writer
              (lines ++ [GraphiteWriter.metric_line cvtD cvtL prefix name value ts])
              thresholds metadata).
Proof. reflexivity. Qed.

Lemma GraphiteWriter_SendThreshold_connected prefix key suffix threshold ts
    lines thresholds metadata :
  Value_numeric threshold = true ->
  GraphiteWriter.SendThreshold cvtD cvtL lexd prefix (key +:+ suffix) threshold ts
    (connected_writer lines thresholds metadata)
  = (Ok tt, connected_writer
              (lines ++ expected_threshold_line cvtD cvtL prefix key suffix threshold ts)
              thresholds metadata).
Proof.
  intros Hnum. unfold GraphiteWriter.SendThreshold, expected_threshold_line.
  rewrite (numeric_ToBool _ Hnum), (numeric_ToDouble lexd _ Hnum).
  destruct (Value_nonzero threshold); simpl.
  - apply GraphiteWriter_SendMetric_connected.
  - by rewrite app_nil_r.
Qed.

Lemma GraphiteWriter_SendPerfdataValue_connected prefix pdv ts lines metadata :
  numeric_thresholds pdv = true ->
  GraphiteWriter.SendPerfdataValue cvtD cvtL lexd prefix pdv ts
    (connected_writer lines true metadata)
  = (Ok tt, connected_writer
              (lines ++ expected_perfdata_lines cvtD cvtL prefix pdv ts) true metadata).
Proof.
  unfold numeric_thresholds. rewrite !andb_true_iff. intros [[[Hc Hw] Hmin] Hmax].
  unfold GraphiteWriter.SendPerfdataValue, expected_perfdata_lines, seq, when.
  cbn zeta. rewrite GraphiteWriter_SendMetric_connected.
  cbn [GraphiteWriter.GetEnableSendThresholds connected_writer].
  rewrite (GraphiteWriter_SendThreshold_connected _ _ ".crit") by done.
  rewrite (GraphiteWriter_SendThreshold_connected _ _ ".warn") by done.
  rewrite (GraphiteWriter_SendThreshold_connected _ _ ".min") by done.
  rewrite (GraphiteWriter_SendThreshold_connected _ _ ".max") by done.
  by rewrite <- !app_assoc.
Qed.
End GraphiteWriter_theorems.

Section GraphiteWriter_lines.
Variable cvtD : float -> string.
Variable cvtL : float -> Z.

Lemma metric_line_name prefix key suffix1 suffix2 v1 v2 ts :
  GraphiteWriter.metric_line cvtD cvtL prefix (key +:+ suffix1) v1 ts
    = GraphiteWriter.metric_line cvtD cvtL prefix (key +:+ suffix2) v2 ts ->
  exists rest1 rest2, suffix1 +:+ " " +:+ rest1 = suffix2 +:+ " " +:+ rest2.
Proof.
  unfold GraphiteWriter.metric_line. intros H.
  apply append_inj_l, append_inj_l in H. rewrite !append_assoc in H.
  apply append_inj_l in H. eauto.
Qed.

Lemma elem_of_expected_threshold_line prefix key suffix threshold ts line :
  line ∈ expected_threshold_line cvtD cvtL prefix key suffix threshold ts <->
  Value_nonzero threshold = true /\
  line = GraphiteWriter.metric_line cvtD cvtL prefix (key +:+ suffix)
           (threshold_number threshold) ts.
Proof.
  unfold expected_threshold_line. destruct (Value_nonzero threshold).
  - rewrite list_elem_of_singleton. tauto.
  - rewrite elem_of_nil. intuition congruence.
Qed.

Lemma elem_of_expected_perfdata_lines prefix pdv ts line :
  let key := GraphiteWriter.EscapeMetricLabel (GetLabel pdv) in
  let emitted suffix v := line = GraphiteWriter.metric_line cvtD cvtL prefix (key +:+ suffix) v ts in
  line ∈ expected_perfdata_lines cvtD cvtL prefix pdv ts <->
  emitted ".value" (GetValue pdv) \/
  (Value_nonzero (GetCrit pdv) = true /\ emitted ".crit" (threshold_number (GetCrit pdv))) \/
  (Value_nonzero (GetWarn pdv) = true /\ emitted ".warn" (threshold_number (GetWarn pdv))) \/
  (Value_nonzero (GetMin pdv) = true /\ emitted ".min" (threshold_number (GetMin pdv))) \/
  (Value_nonzero (GetMax pdv) = true /\ emitted ".max" (threshold_number (GetMax pdv))).
Proof.
  intros key emitted. unfold expected_perfdata_lines. fold key.
  rewrite !elem_of_app, list_elem_of_singleton, !elem_of_expected_threshold_line.
  reflexivity.
Qed.
End GraphiteWriter_lines.

(** Two lines of one perfdata value that differ in their suffix differ. *)
Ltac other_suffix H :=
  apply metric_line_name in H as (? & ? & H); vm_compute in H; discriminate H.

(** C9.  A connected Graphite writer that sends thresholds puts on the wire,
    for every perfdata value with numeric thresholds, its [.value] line and,
    of the [.crit], [.warn], [.min] and [.max] lines, exactly those whose
    threshold is not zero; a value with [crit = 0] has no [.crit] line. *)
Theorem GraphiteWriter_SendPerfdata_thresholds
    (cvtD : float -> string) (cvtL : float -> Z) (lexd : Value -> Result float)
    (asP parse : Value -> option PerfdataValue) (prefix : string) (ts : float) :
  let element := perfdata_element asP parse in
  let lines_of val :=
    match element val with
    | Some pdv => expected_perfdata_lines cvtD cvtL prefix pdv ts
    | None => []
    end in
  (forall perfdata lines metadata,
     Forall (fun val => forall pdv, element val = Some pdv -> numeric_thresholds pdv = true)
       perfdata ->
     GraphiteWriter.SendPerfdata cvtD cvtL lexd asP parse prefix (Some perfdata) ts
       (connected_writer lines true metadata)
     = (Ok tt, connected_writer (lines ++ flat_map lines_of perfdata) true metadata)) /\
  (forall pdv lines metadata,
     numeric_thresholds pdv = true ->
     exists new,
       GraphiteWriter.SendPerfdataValue cvtD cvtL lexd prefix pdv ts
         (connected_writer lines true metadata)
       = (Ok tt, connected_writer (lines ++ new) true metadata) /\
       let key := GraphiteWriter.EscapeMetricLabel (GetLabel pdv) in
       let sent suffix :=
         exists v, GraphiteWriter.metric_line cvtD cvtL prefix (key +:+ suffix) v ts ∈ new in
       sent ".value" /\
       (sent ".crit" <-> Value_nonzero (GetCrit pdv) = true) /\
       (sent ".warn" <-> Value_nonzero (GetWarn pdv) = true) /\
       (sent ".min" <-> Value_nonzero (GetMin pdv) = true) /\
       (sent ".max" <-> Value_nonzero (GetMax pdv) = true) /\
       (GetCrit pdv = ValueNumber 0 -> ~ sent ".crit")).
Proof.
  intros element lines_of. split.
  - intros perfdata. unfold GraphiteWriter.SendPerfdata.
    induction perfdata as [|val perfdata IH]; intros lines metadata Hnum.
    + simpl. by rewrite app_nil_r.
    + apply Forall_cons in Hnum as [Hval Hnum]. cbn [for_each flat_map].
      unfold lines_of at 1. fold element in Hval |- *.
      destruct (element val) as [pdv|] eqn:Hel.
      * rewrite GraphiteWriter_SendPerfdataValue_connected by auto.
        rewrite IH by done. by rewrite app_assoc.
      * unfold skip. rewrite IH by done. by rewrite app_nil_l.
  - intros pdv lines metadata Hnum.
    exists (expected_perfdata_lines cvtD cvtL prefix pdv ts).
    split; [by apply GraphiteWriter_SendPerfdataValue_connected|].
    intros key sent.
    assert (Hsent : forall suffix,
              sent suffix <->
              exists v, let line := GraphiteWriter.metric_line cvtD cvtL prefix (key +:+ suffix) v ts in
                let emitted suffix v :=
                  line = GraphiteWriter.metric_line cvtD cvtL prefix (key +:+ suffix) v ts in
                emitted ".value" (GetValue pdv) \/
                (Value_nonzero (GetCrit pdv) = true /\ emitted ".crit" (threshold_number (GetCrit pdv))) \/
                (Value_nonzero (GetWarn pdv) = true /\ emitted ".warn" (threshold_number (GetWarn pdv))) \/
                (Value_nonzero (GetMin pdv) = true /\ emitted ".min" (threshold_number (GetMin pdv))) \/
                (Value_nonzero (GetMax pdv) = true /\ emitted ".max" (threshold_number (GetMax pdv)))).
    { intros suffix. unfold sent. split; intros [v Hv]; exists v;
        by apply elem_of_expected_perfdata_lines in Hv. }
    assert (Hcrit : sent ".crit" <-> Value_nonzero (GetCrit pdv) = true).
    { rewrite Hsent. split.
      - intros [v [H|[[Hn H]|[[Hn H]|[[Hn H]|[Hn H]]]]]]; [other_suffix H | done | other_suffix H ..].
      - intros Hn. exists (threshold_number (GetCrit pdv)). right; left. done. }
    split; [apply Hsent; exists (GetValue pdv); by left|].
    split; [exact Hcrit|].
    split; [| split; [| split]].
    + rewrite Hsent. split.
      * intros [v [H|[[Hn H]|[[Hn H]|[[Hn H]|[Hn H]]]]]];
          [other_suffix H | other_suffix H | done | other_suffix H ..].
      * intros Hn. exists (threshold_number (GetWarn pdv)). right; right; left. done.
    + rewrite Hsent. split.
      * intros [v [H|[[Hn H]|[[Hn H]|[[Hn H]|[Hn H]]]]]];
          [other_suffix H | other_suffix H | other_suffix H | done | other_suffix H].
      * intros Hn. exists (threshold_number (GetMin pdv)). right; right; right; left. done.
    + rewrite Hsent. split.
      * intros [v [H|[[Hn H]|[[Hn H]|[[Hn H]|[Hn H]]]]]];
          [other_suffix H | other_suffix H | other_suffix H | other_suffix H | done].
      * intros Hn. exists (threshold_number (GetMax pdv)). right; right; right; right. done.
    + intros H0 Hs. apply Hcrit in Hs. rewrite H0 in Hs. discriminate Hs.
Qed.


Lemma GraphiteWriter_SendPerfdata_thresholds_witness :
  GraphiteWriter.SendPerfdata (fun _ => "0") (fun _ => 1600000000%Z) (fun _ => Ok 0%float)
      (fun _ => Some rta) (fun _ => None) "icinga2.web01.host.perfdata"
      (Some [ValueObject 1]) 1600000000 (connected_writer [] true false)
    = (Ok tt, connected_writer
                ["icinga2.web01.host.perfdata.rta.value 0 1600000000" +:+ LF;
                 "icinga2.web01.host.perfdata.rta.crit 0 1600000000" +:+ LF;
                 "icinga2.web01.host.perfdata.rta.warn 0 1600000000" +:+ LF;
                 "icinga2.web01.host.perfdata.rta.max 0 1600000000" +:+ LF]
                true false).
Proof.
  apply (proj1 (GraphiteWriter_SendPerfdata_thresholds (fun _ => "0")
                  (fun _ => 1600000000%Z) (fun _ => Ok 0%float) (fun _ => Some rta)
                  (fun _ => None) "icinga2.web01.host.perfdata" 1600000000)
           [ValueObject 1] [] false).
  apply List.Forall_cons; [| apply List.Forall_nil].
  intros pdv H. apply (inj Some) in H. subst pdv. reflexivity.
Defined.

Lemma String_length_app (a b : string) :
  String.length (a +:+ b) = (String.length a + String.length b)%nat.
Proof. induction a as [|c a IH]; [done|]. rewrite append_cons. simpl. by rewrite IH. Qed.

Lemma tags_string_from acc (tags : std_map) :
  foldl (fun tags_string tag => tags_string +:+ (" " +:+ tag.1 +:+ "=" +:+ tag.2)) acc tags
    = acc +:+ spec_tags tags.
Proof.
  revert acc. induction tags as [|tag tags IH]; intros acc; simpl.
  - clear. induction acc as [|c acc IH]; [done|]. by rewrite append_cons, <- IH.
  - rewrite IH. by rewrite !append_assoc.
Qed.

Lemma tags_string_spec (tags : std_map) : OpenTsdbWriter.tags_string tags = spec_tags tags.
Proof. unfold OpenTsdbWriter.tags_string. by rewrite tags_string_from. Qed.

(** C2.  What the OpenTSDB writer hands to its stream for a metric is
    [put <metric> <ts> <value>], one space, and then every tag behind a space
    of its own: two spaces stand between the value and the first tag, so the
    line is never the one of the specification; the state of service [cpu] on
    host [db-01] is written as
    [put icinga.service.cpu.state 1600000000 2  host=db-01]. *)
Theorem OpenTsdbWriter_SendMetric_line :
  (forall (cvtD : float -> string) (cvtL : float -> Z) paused lines metric tags value ts,
     OpenTsdbWriter.SendMetric cvtD cvtL metric tags value ts (streaming_writer paused lines)
       = (Ok tt, streaming_writer paused
                   (lines ++ [OpenTsdbWriter.put_line cvtD cvtL metric tags value ts])) /\
     OpenTsdbWriter.put_line cvtD cvtL metric tags value ts
       = "put " +:+ metric +:+ " " +:+ Convert_ToString_long (cvtL ts) +:+ " "
           +:+ cvtD value +:+ " " +:+ spec_tags tags +:+ LF /\
     OpenTsdbWriter.put_line cvtD cvtL metric tags value ts
       <> spec_put_line cvtD cvtL metric tags value ts) /\
  (forall (cvtD : float -> string) (cvtL : float -> Z) lexd asP parse,
     cvtD 2%float = "2" -> cvtL 1600000000%float = 1600000000%Z ->
     OpenTsdbWriter.put_line cvtD cvtL "icinga.service.cpu.state" [("host", "db-01")]
         2 1600000000
       = "put icinga.service.cpu.state 1600000000 2  host=db-01" +:+ LF /\
     exists lines,
       OpenTsdbWriter.CheckResultHandler cvtD cvtL lexd asP parse true cpu_checkable
           cpu_result (streaming_writer false [])
         = (Ok tt, streaming_writer false
                     (("put icinga.service.cpu.state 1600000000 2  host=db-01" +:+ LF)
                        :: lines))).
Proof.
  split.
  - intros cvtD cvtL paused lines metric tags value ts.
    split; [reflexivity|].
    assert (Hline : OpenTsdbWriter.put_line cvtD cvtL metric tags value ts
              = "put " +:+ metric +:+ " " +:+ Convert_ToString_long (cvtL ts) +:+ " "
                  +:+ cvtD value +:+ " " +:+ spec_tags tags +:+ LF).
    { unfold OpenTsdbWriter.put_line. by rewrite tags_string_spec. }
    split; [exact Hline|].
    rewrite Hline. unfold spec_put_line. intros H.
    do 6 apply append_inj_l in H.
    apply (f_equal String.length) in H.
    rewrite (String_length_app " ") in H. simpl in H. lia.
  - intros cvtD cvtL lexd asP parse HD HL. split.
    + unfold OpenTsdbWriter.put_line. rewrite HD, HL. reflexivity.
    + eexists. unfold OpenTsdbWriter.CheckResultHandler. simpl.
      unfold seq, OpenTsdbWriter.SendMetric, OpenTsdbWriter.SendPerfdata, skip. simpl.
      unfold OpenTsdbWriter.put_line. rewrite HD, HL. reflexivity.
Qed.

Lemma OpenTsdbWriter_SendMetric_line_witness :
  OpenTsdbWriter.put_line (fun _ => "2") (fun _ => 1600000000%Z)
      "icinga.service.cpu.state" [("host", "db-01")] 2 1600000000
    = "put icinga.service.cpu.state 1600000000 2  host=db-01" +:+ LF.
Proof.
  apply (proj2 OpenTsdbWriter_SendMetric_line (fun _ => "2") (fun _ => 1600000000%Z)
           (fun _ => Ok 0%float) (fun _ => None) (fun _ => None) eq_refl eq_refl).
Defined.

(** * Further properties of the code *)

(** ** The mapping as a finite map *)

Lemma sorted_NoDup_keys (d : DictionaryData) :
  StronglySorted key_lt d -> NoDup d.*1.
Proof.
  induction 1 as [|x d Hs IH Hx]; csimpl; constructor; [| done].
  intros Hin. apply list_elem_of_fmap in Hin as (y & Hxy & Hy).
  rewrite Forall_forall in Hx. specialize (Hx y Hy). unfold key_lt in Hx.
  rewrite Hxy, String_less_irrefl in Hx. done.
Qed.

(** Where the binary search ends in a sorted snapshot: at the pair of [key],
    or [key] is not among the keys. *)
Lemma lower_bound_found (d : DictionaryData) key :
  StronglySorted key_lt d ->
  match d !! std_lower_bound KeyLessComparer d key with
  | Some kv => if String.eqb kv.1 key then True else key ∉ d.*1
  | None => key ∉ d.*1
  end.
Proof.
  intros Hs. destruct (lower_bound_sorted d key Hs) as [Hlo Hhi].
  set (it := std_lower_bound KeyLessComparer d key) in *.
  assert (Hfront : key ∉ (take it d).*1).
  { intros Hin. apply list_elem_of_fmap in Hin as (y & -> & Hy).
    rewrite Forall_forall in Hlo. specialize (Hlo y Hy).
    by rewrite String_less_irrefl in Hlo. }
  destruct (d !! it) as [kv|] eqn:Hit.
  - destruct (String.eqb kv.1 key) eqn:Heq; [done|].
    apply String.eqb_neq in Heq.
    rewrite <- (take_drop it d), fmap_app, elem_of_app. intros [Hin|Hin]; [done|].
    apply list_elem_of_fmap in Hin as (y & -> & Hy).
    apply list_elem_of_lookup in Hy as [i Hi].
    assert (Hkv : drop it d !! 0%nat = Some kv) by (by rewrite lookup_drop, Nat.add_0_r).
    assert (Hkv' : String_less kv.1 y.1 = false)
      by (rewrite Forall_lookup in Hhi; by apply (Hhi 0%nat)).
    destruct i as [|i]; [congruence|].
    assert (Hlt : key_lt kv y).
    { apply (StronglySorted_lookup key_lt (drop it d) 0 (S i)); [| lia | done | done].
      rewrite <- (take_drop it d) in Hs. by apply StronglySorted_app_1_r in Hs. }
    unfold key_lt in Hlt. congruence.
  - apply lookup_ge_None in Hit. by rewrite take_ge in Hfront.
Qed.

Lemma Dictionary_Get_result_map (d : DictionaryData) key :
  StronglySorted key_lt d ->
  Dictionary_Get_result key d
  = match Dictionary_to_map d !! key with
    | Some v => (true, Some v)
    | None => (false, None)
    end.
Proof.
  intros Hs. pose proof (lower_bound_found d key Hs) as Hit.
  unfold Dictionary_Get_result, Dictionary_GetView, rcu_ptr_read, Dictionary_to_map. cbn zeta.
  destruct (d !! std_lower_bound KeyLessComparer d key) as [kv|] eqn:Hkv.
  - destruct (String.eqb kv.1 key) eqn:Heq; simpl.
    + apply String.eqb_eq in Heq.
      rewrite (elem_of_list_to_map_1 d key kv.2); [done | by apply sorted_NoDup_keys |].
      rewrite <- Heq. destruct kv. by eapply list_elem_of_lookup_2.
    + by rewrite (not_elem_of_list_to_map_1 d key).
  - by rewrite (not_elem_of_list_to_map_1 d key).
Qed.

Lemma Dictionary_Get_map (d : DictionaryData) key :
  StronglySorted key_lt d ->
  Dictionary_Get key d = default Empty (Dictionary_to_map d !! key).
Proof.
  intros Hs. pose proof (Dictionary_Get_result_map d key Hs) as H.
  unfold Dictionary_Get_result, Dictionary_Get in *. cbn zeta in *.
  destruct (Dictionary_GetView d !! _) as [kv|]; [destruct (String.eqb kv.1 key) |];
    simpl in *; destruct (Dictionary_to_map d !! key); by simplify_eq.
Qed.

Lemma Dictionary_Contains_map (d : DictionaryData) key :
  StronglySorted key_lt d ->
  Dictionary_Contains key d = bool_decide (is_Some (Dictionary_to_map d !! key)).
Proof.
  intros Hs. pose proof (Dictionary_Get_result_map d key Hs) as H.
  unfold Dictionary_Get_result, Dictionary_Contains in *. cbn zeta in *.
  destruct (Dictionary_GetView d !! _) as [kv|]; [destruct (String.eqb kv.1 key) |];
    simpl in *; destruct (Dictionary_to_map d !! key); by simplify_eq.
Qed.

(** Two sorted snapshots that stand for the same map are the same. *)
Lemma Dictionary_to_map_inj (d1 d2 : DictionaryData) :
  StronglySorted key_lt d1 -> StronglySorted key_lt d2 ->
  Dictionary_to_map d1 = Dictionary_to_map d2 -> d1 = d2.
Proof.
  intros Hs1 Hs2 Heq.
  apply (StronglySorted_unique_strong key_lt); [| done | done |].
  - intros x1 x2 _ _ H12 H21. unfold key_lt in *.
    pose proof (String_less_trans _ _ _ H12 H21) as H. by rewrite String_less_irrefl in H.
  - apply list_to_map_inj; [by apply sorted_NoDup_keys.. | done].
Qed.

Lemma Dictionary_Set_map key value (d : DictionaryData) :
  StronglySorted key_lt d ->
  Dictionary_to_map (Dictionary_Set key value d).2 = <[key := value]> (Dictionary_to_map d).
Proof.
  intros Hs. pose proof (lower_bound_found d key Hs) as Hit.
  pose proof (sorted_NoDup_keys d Hs) as Hnd.
  unfold Dictionary_Set, rcu_ptr_copy_update, Dictionary_to_map.
  set (it := std_lower_bound KeyLessComparer d key) in *.
  assert (Hnew : key ∉ d.*1 ->
            list_to_map (vector_insert it (key, value) d)
            =@{gmap string Value} <[key := value]> (list_to_map d)).
  { intros Hnotin. rewrite <- list_to_map_cons. symmetry. apply list_to_map_proper.
    - csimpl. by constructor.
    - unfold vector_insert. rewrite <- Permutation_middle. by rewrite take_drop. }
  destruct (d !! it) as [kv|] eqn:Hkv; [| by apply Hnew].
  destruct (String.eqb kv.1 key) eqn:Heq; [| by apply Hnew].
  apply String.eqb_eq in Heq. simpl.
  apply map_eq. intros k. destruct (decide (k = key)) as [->|Hne].
  - rewrite lookup_insert_eq. apply elem_of_list_to_map_1.
    + rewrite list_fmap_insert. simpl. rewrite list_insert_id; [done|].
      by rewrite list_lookup_fmap, Hkv.
    + rewrite <- Heq. eapply list_elem_of_lookup_2. apply list_lookup_insert_eq.
      by eapply lookup_lt_Some.
  - rewrite lookup_insert_ne by done. apply option_eq. intros v.
    rewrite <- !elem_of_list_to_map; [| done |].
    + rewrite !list_elem_of_lookup. split; intros [i Hi]; exists i.
      * destruct (decide (i = it)) as [->|Hi'].
        -- rewrite list_lookup_insert_eq in Hi by (by eapply lookup_lt_Some). naive_solver.
        -- by rewrite list_lookup_insert_ne in Hi.
      * destruct (decide (i = it)) as [->|Hi'].
        -- rewrite Hkv in Hi. destruct kv. simpl in *. naive_solver.
        -- by rewrite list_lookup_insert_ne.
    + rewrite list_fmap_insert. simpl. rewrite list_insert_id; [done|].
      by rewrite list_lookup_fmap, Hkv.
Qed.

Lemma Dictionary_Remove_map key (d : DictionaryData) :
  StronglySorted key_lt d ->
  Dictionary_to_map (Dictionary_Remove key d).2 = delete key (Dictionary_to_map d).
Proof.
  intros Hs. pose proof (lower_bound_found d key Hs) as Hit.
  pose proof (sorted_NoDup_keys d Hs) as Hnd.
  unfold Dictionary_Remove, rcu_ptr_copy_update, Dictionary_to_map.
  set (it := std_lower_bound KeyLessComparer d key) in *.
  assert (Hmissing : key ∉ d.*1 ->
            list_to_map d =@{gmap string Value} delete key (list_to_map d)).
  { intros Hnotin. symmetry. apply delete_id. by apply not_elem_of_list_to_map_1. }
  destruct (d !! it) as [kv|] eqn:Hkv; [| by apply Hmissing].
  destruct (String.eqb kv.1 key) eqn:Heq; [| by apply Hmissing].
  apply String.eqb_eq in Heq. simpl.
  pose proof (delete_Permutation d it kv Hkv) as Hperm.
  rewrite (list_to_map_proper d (kv :: delete it d) Hnd Hperm).
  destruct kv as [k v]. simpl in Heq. subst k. rewrite list_to_map_cons.
  rewrite delete_insert_eq. symmetry. apply delete_id.
  apply not_elem_of_list_to_map_1.
  rewrite Hperm in Hnd. csimpl in Hnd. by apply NoDup_cons in Hnd as [? _].
Qed.

Lemma Dictionary_Remove_Ok key d : (Dictionary_Remove key d).1 = Ok tt.
Proof.
  unfold Dictionary_Remove, rcu_ptr_copy_update.
  destruct (d !! _) as [kv|]; [destruct (String.eqb kv.1 key) |]; done.
Qed.

Lemma Dictionary_GetLength_map (d : DictionaryData) :
  StronglySorted key_lt d -> Dictionary_GetLength d = size (Dictionary_to_map d).
Proof.
  intros Hs. unfold Dictionary_to_map.
  by rewrite map_size_list_to_map by by apply sorted_NoDup_keys.
Qed.

Lemma Dictionary_GetKeys_map (d : DictionaryData) key :
  key ∈ Dictionary_GetKeys d <-> is_Some (Dictionary_to_map d !! key).
Proof.
  unfold Dictionary_GetKeys, Dictionary_GetView, rcu_ptr_read, Dictionary_to_map.
  rewrite <- not_eq_None_Some, <- not_elem_of_list_to_map.
  change (map fst d) with (d.*1).
  destruct (decide (key ∈ d.*1)); naive_solver.
Qed.

(** The copy loop, pair by pair on the map of the destination. *)
Lemma Dictionary_CopyTo_map (src dest : DictionaryData) :
  StronglySorted key_lt dest ->
  (Dictionary_CopyTo src dest).1 = Ok tt /\
  Dictionary_to_map (Dictionary_CopyTo src dest).2
  = foldl (fun m kv => <[kv.1 := kv.2]> m) (Dictionary_to_map dest) src.
Proof.
  unfold Dictionary_CopyTo, Dictionary_GetView, rcu_ptr_read.
  revert dest. induction src as [|kv src IH]; intros dest Hs; simpl; [done|].
  pose proof (Dictionary_Set_Ok kv.1 kv.2 dest) as Hok.
  pose proof (Dictionary_Set_sorted kv.1 kv.2 dest Hs) as Hs'.
  pose proof (Dictionary_Set_map kv.1 kv.2 dest Hs) as Hm.
  destruct (Dictionary_Set kv.1 kv.2 dest) as [r dest']. simpl in *. subst r.
  rewrite <- Hm. by apply IH.
Qed.

Lemma foldl_insert_union (src : DictionaryData) (m : gmap string Value) :
  NoDup src.*1 ->
  foldl (fun m kv => <[kv.1 := kv.2]> m) m src = list_to_map src ∪ m.
Proof.
  revert m. induction src as [|[k v] src IH]; intros m Hnd; simpl.
  - by rewrite (left_id_L ∅ (∪)).
  - csimpl in Hnd. apply NoDup_cons in Hnd as [Hk Hnd].
    rewrite IH by done. rewrite <- insert_union_l.
    by rewrite insert_union_r by by apply not_elem_of_list_to_map_1.
Qed.

(** A sort within the contract finds nothing to do on a sorted snapshot, and
    [std::unique] nothing to drop. *)
Lemma std_unique_sorted_id (d : DictionaryData) :
  StronglySorted key_lt d -> std_unique pair_key_equal d = d.
Proof.
  destruct d as [|x d]; [done|]. simpl. revert x.
  induction d as [|y d IH]; intros x Hs; simpl; [done|].
  apply StronglySorted_inv in Hs as [Hs Hx]. apply Forall_cons in Hx as [Hxy _].
  unfold pair_key_equal at 1. destruct (String.eqb x.1 y.1) eqn:Heq.
  - apply String.eqb_eq in Heq. unfold key_lt in Hxy.
    by rewrite Heq, String_less_irrefl in Hxy.
  - f_equal. by apply IH.
Qed.

Lemma key_lt_le (d : DictionaryData) :
  StronglySorted key_lt d -> StronglySorted key_le d.
Proof.
  induction 1 as [|x d Hs IH Hx]; constructor; [done|].
  eapply Forall_impl; [exact Hx|]. intros y Hxy. unfold key_lt, key_le, pair_key_less in *.
  destruct (String_less y.1 x.1) eqn:Hyx; [| done].
  pose proof (String_less_trans _ _ _ Hxy Hyx) as H. by rewrite String_less_irrefl in H.
Qed.

Lemma Dictionary_Dictionary_sorted_id std_sort (d : DictionaryData) :
  std_sort_contract_on std_sort d -> StronglySorted key_lt d ->
  Dictionary_Dictionary std_sort d = d.
Proof.
  intros [Hperm Hsorted] Hs. unfold Dictionary_Dictionary.
  assert (Hsame : std_sort pair_key_less d = d).
  { apply (StronglySorted_unique_strong key_le); [| done | by apply key_lt_le | done].
    intros x1 x2 Hx1 Hx2 H12 H21. rewrite Hperm in Hx1.
    unfold key_le, pair_key_less in *.
    pose proof (String_less_total _ _ H21 H12) as Hkey.
    apply list_elem_of_lookup in Hx1 as [i Hi]. apply list_elem_of_lookup in Hx2 as [j Hj].
    assert (i = j); [| by simplify_eq].
    apply (NoDup_lookup d.*1 i j x1.1); [by apply sorted_NoDup_keys | |].
    - by rewrite list_lookup_fmap, Hi.
    - by rewrite list_lookup_fmap, Hj, Hkey. }
  rewrite Hsame. by apply std_unique_sorted_id.
Qed.

Lemma Clone_loop_sorted (Value_Clone : Value -> Value) (d : DictionaryData) :
  StronglySorted key_lt d ->
  StronglySorted key_lt (map (fun kv : DictionaryPair => (kv.1, Value_Clone kv.2)) d).
Proof.
  intros Hs. apply (sorted_same_keys d); [| done].
  change (d.*1 = ((fun kv : DictionaryPair => (kv.1, Value_Clone kv.2)) <$> d).*1).
  rewrite <- list_fmap_compose. by apply list_fmap_ext.
Qed.

(** A snapshot of two entries for the examples. *)
Lemma keys_ascending_a1_b2 :
  keys_ascending [("a", ValueNumber 1); ("b", ValueNumber 2)].
Proof.
  apply keys_ascending_sorted. repeat constructor.
Qed.

(** X1.  In a snapshot with ascending keys the binary search of the lookups
    finds every key that is there: [Get] returns the value paired with the
    key, the two-argument [Get] reports it and writes it to its result, and
    [Contains] is true; for a key that is not there [Get] returns the empty
    value, the two-argument [Get] returns false and writes nothing, and
    [Contains] is false.  The number of entries is the number of keys. *)
Theorem Dictionary_Get_spec (d : DictionaryData) (key : string) :
  keys_ascending d ->
  (forall v, (key, v) ∈ d ->
     Dictionary_Get key d = v /\
     Dictionary_Get_result key d = (true, Some v) /\
     Dictionary_Contains key d = true) /\
  (key ∉ Dictionary_GetKeys d ->
     Dictionary_Get key d = Empty /\
     Dictionary_Get_result key d = (false, None) /\
     Dictionary_Contains key d = false) /\
  (Dictionary_Contains key d = true <-> key ∈ Dictionary_GetKeys d) /\
  Dictionary_Get key d = default Empty (Dictionary_to_map d !! key) /\
  Dictionary_GetLength d = size (Dictionary_to_map d).
Proof.
  intros Hs. apply keys_ascending_sorted in Hs.
  rewrite Dictionary_Get_map, Dictionary_Get_result_map, Dictionary_Contains_map by done.
  split; [| split; [| split; [| split]]].
  - intros v Hv.
    assert (Hfound : Dictionary_to_map d !! key = Some v)
      by (apply elem_of_list_to_map_1; [by apply sorted_NoDup_keys | done]).
    by rewrite Hfound.
  - intros Hkey. rewrite Dictionary_GetKeys_map, <- eq_None_not_Some in Hkey.
    by rewrite Hkey.
  - rewrite Dictionary_GetKeys_map. by rewrite bool_decide_eq_true.
  - done.
  - by apply Dictionary_GetLength_map.
Qed.

Lemma Dictionary_Get_spec_witness :
  Dictionary_Get "b" [("a", ValueNumber 1); ("b", ValueNumber 2)] = ValueNumber 2 /\
  Dictionary_Get_result "b" [("a", ValueNumber 1); ("b", ValueNumber 2)]
    = (true, Some (ValueNumber 2)) /\
  Dictionary_Contains "b" [("a", ValueNumber 1); ("b", ValueNumber 2)] = true.
Proof.
  apply (proj1 (Dictionary_Get_spec [("a", ValueNumber 1); ("b", ValueNumber 2)] "b"
                  keys_ascending_a1_b2) (ValueNumber 2)).
  right. left.
Defined.

(** X2.  [Set] on a snapshot with ascending keys never fails and publishes a
    snapshot with ascending keys that stands for the old map with the key
    bound to the value: a lookup of the key gives the value, every other key
    answers as before, and the length grows by one exactly when the key is
    new. *)
Theorem Dictionary_Set_spec (d : DictionaryData) (key : string) (value : Value) :
  keys_ascending d ->
  let d' := (Dictionary_Set key value d).2 in
  Dictionary_Set key value d = (Ok tt, d') /\
  keys_ascending d' /\
  Dictionary_to_map d' = <[key := value]> (Dictionary_to_map d) /\
  Dictionary_Get key d' = value /\
  Dictionary_Contains key d' = true /\
  (forall key', key' <> key ->
     Dictionary_Get key' d' = Dictionary_Get key' d /\
     Dictionary_Contains key' d' = Dictionary_Contains key' d) /\
  Dictionary_GetLength d'
  = (if Dictionary_Contains key d then Dictionary_GetLength d else S (Dictionary_GetLength d)).
Proof.
  intros Hs d'. apply keys_ascending_sorted in Hs.
  pose proof (Dictionary_Set_sorted key value d Hs) as Hs'.
  pose proof (Dictionary_Set_map key value d Hs) as Hm. fold d' in Hs', Hm.
  split; [| split; [by apply keys_ascending_sorted|]; split; [done|]].
  { pose proof (Dictionary_Set_Ok key value d) as Hok. unfold d'.
    destruct (Dictionary_Set key value d). simpl in Hok. by subst. }
  rewrite !Dictionary_GetLength_map, !Dictionary_Get_map, !Dictionary_Contains_map, Hm by done.
  split; [by rewrite lookup_insert_eq|].
  split; [rewrite lookup_insert_eq; by apply bool_decide_eq_true|].
  split.
  - intros key' Hne. rewrite !Dictionary_Get_map, !Dictionary_Contains_map, Hm by done.
    by rewrite lookup_insert_ne.
  - rewrite map_size_insert. by destruct (Dictionary_to_map d !! key).
Qed.

Lemma Dictionary_Set_spec_witness :
  Dictionary_Set "aa" Empty [("a", ValueNumber 1); ("b", ValueNumber 2)]
  = (Ok tt, [("a", ValueNumber 1); ("aa", Empty); ("b", ValueNumber 2)]).
Proof.
  apply (proj1 (Dictionary_Set_spec [("a", ValueNumber 1); ("b", ValueNumber 2)] "aa" Empty
                  keys_ascending_a1_b2)).
Defined.

(** X3.  [Remove] on a snapshot with ascending keys never fails and
    publishes a snapshot with ascending keys that stands for the old map
    without the key: the key is gone, every other key answers as before, the
    length drops by one exactly when the key was there, and removing a key
    that is not there leaves the snapshot as it was. *)
Theorem Dictionary_Remove_spec (d : DictionaryData) (key : string) :
  keys_ascending d ->
  let d' := (Dictionary_Remove key d).2 in
  Dictionary_Remove key d = (Ok tt, d') /\
  keys_ascending d' /\
  Dictionary_to_map d' = delete key (Dictionary_to_map d) /\
  Dictionary_Get key d' = Empty /\
  Dictionary_Contains key d' = false /\
  (forall key', key' <> key ->
     Dictionary_Get key' d' = Dictionary_Get key' d /\
     Dictionary_Contains key' d' = Dictionary_Contains key' d) /\
  Dictionary_GetLength d'
  = (if Dictionary_Contains key d then pred (Dictionary_GetLength d) else Dictionary_GetLength d) /\
  (Dictionary_Contains key d = false -> d' = d).
Proof.
  intros Hs d'. apply keys_ascending_sorted in Hs.
  pose proof (Dictionary_Remove_sorted key d Hs) as Hs'.
  pose proof (Dictionary_Remove_map key d Hs) as Hm. fold d' in Hs', Hm.
  split; [| split; [by apply keys_ascending_sorted|]; split; [done|]].
  { pose proof (Dictionary_Remove_Ok key d) as Hok. unfold d'.
    destruct (Dictionary_Remove key d). simpl in Hok. by subst. }
  rewrite !Dictionary_GetLength_map, !Dictionary_Get_map, !Dictionary_Contains_map, Hm by done.
  split; [by rewrite lookup_delete_eq|].
  split; [rewrite lookup_delete_eq; apply bool_decide_eq_false; by intros [? ?]|].
  split; [| split].
  - intros key' Hne. rewrite !Dictionary_Get_map, !Dictionary_Contains_map, Hm by done.
    by rewrite lookup_delete_ne.
  - rewrite map_size_delete. by destruct (Dictionary_to_map d !! key).
  - intros Hmissing. apply bool_decide_eq_false in Hmissing.
    apply Dictionary_to_map_inj; [done | done |].
    rewrite Hm. apply delete_id. by apply eq_None_not_Some.
Qed.

Lemma Dictionary_Remove_spec_witness :
  Dictionary_Remove "a" [("a", ValueNumber 1); ("b", ValueNumber 2)]
  = (Ok tt, [("b", ValueNumber 2)]).
Proof.
  apply (proj1 (Dictionary_Remove_spec [("a", ValueNumber 1); ("b", ValueNumber 2)] "a"
                  keys_ascending_a1_b2)).
Defined.

(** X4.  A snapshot with ascending keys is determined by what its lookups
    answer: two such snapshots in which the two-argument [Get] gives the same
    answer for every key are the same sequence of pairs. *)
Theorem Dictionary_snapshot_canonical (d1 d2 : DictionaryData) :
  keys_ascending d1 -> keys_ascending d2 ->
  (forall key, Dictionary_Get_result key d1 = Dictionary_Get_result key d2) ->
  d1 = d2.
Proof.
  intros Hs1 Hs2 Hsame. apply keys_ascending_sorted in Hs1, Hs2.
  apply Dictionary_to_map_inj; [done | done |].
  apply map_eq. intros key. specialize (Hsame key).
  rewrite !Dictionary_Get_result_map in Hsame by done.
  destruct (Dictionary_to_map d1 !! key), (Dictionary_to_map d2 !! key); by simplify_eq.
Qed.

Lemma Dictionary_snapshot_canonical_witness :
  (Dictionary_Set "a" (ValueNumber 1) [("b", ValueNumber 2)]).2
  = [("a", ValueNumber 1); ("b", ValueNumber 2)].
Proof.
  apply Dictionary_snapshot_canonical.
  - apply keys_ascending_sorted. repeat constructor.
  - apply keys_ascending_a1_b2.
  - intros key. apply eq_refl.
Defined.

(** X5.  On a snapshot with ascending keys, of two [Set] of one key the
    later one wins, and two [Set] of different keys give the same snapshot in
    either order. *)
Theorem Dictionary_Set_Set (d : DictionaryData) (k1 k2 : string) (v1 v2 : Value) :
  keys_ascending d ->
  (Dictionary_Set k1 v2 (Dictionary_Set k1 v1 d).2).2 = (Dictionary_Set k1 v2 d).2 /\
  (k1 <> k2 ->
   (Dictionary_Set k1 v1 (Dictionary_Set k2 v2 d).2).2
   = (Dictionary_Set k2 v2 (Dictionary_Set k1 v1 d).2).2).
Proof.
  intros Hs. apply keys_ascending_sorted in Hs.
  pose proof (fun k v => Dictionary_Set_sorted k v d Hs) as Hs1.
  split; [| intros Hne];
    (apply Dictionary_to_map_inj; [by repeat apply Dictionary_Set_sorted.. |]);
    rewrite !Dictionary_Set_map by (done || by apply Dictionary_Set_sorted).
  - apply insert_insert_eq.
  - by apply insert_insert_ne.
Qed.

Lemma Dictionary_Set_Set_witness :
  (Dictionary_Set "c" Empty
     (Dictionary_Set "0" (ValueBoolean true) [("a", ValueNumber 1); ("b", ValueNumber 2)]).2).2
  = (Dictionary_Set "0" (ValueBoolean true)
       (Dictionary_Set "c" Empty [("a", ValueNumber 1); ("b", ValueNumber 2)]).2).2.
Proof.
  apply (proj2 (Dictionary_Set_Set [("a", ValueNumber 1); ("b", ValueNumber 2)] "c" "0"
                  Empty (ValueBoolean true) keys_ascending_a1_b2)).
  discriminate.
Defined.

(** X6.  On a snapshot with ascending keys, [Set] of a new key followed by
    [Remove] of that key gives the snapshot back, and so does [Set] of a key
    to the value it has. *)
Theorem Dictionary_Set_Remove (d : DictionaryData) (key : string) (value : Value) :
  keys_ascending d ->
  (Dictionary_Contains key d = false ->
   (Dictionary_Remove key (Dictionary_Set key value d).2).2 = d) /\
  (Dictionary_Contains key d = true ->
   (Dictionary_Set key (Dictionary_Get key d) d).2 = d).
Proof.
  intros Hs. apply keys_ascending_sorted in Hs.
  rewrite Dictionary_Contains_map, Dictionary_Get_map by done. split.
  - intros Hnew. apply bool_decide_eq_false in Hnew.
    apply Dictionary_to_map_inj;
      [by apply Dictionary_Remove_sorted, Dictionary_Set_sorted | done |].
    rewrite Dictionary_Remove_map, Dictionary_Set_map by (done || by apply Dictionary_Set_sorted).
    apply delete_insert_id. by apply eq_None_not_Some.
  - intros Hold. apply bool_decide_eq_true in Hold as [v Hv].
    apply Dictionary_to_map_inj; [by apply Dictionary_Set_sorted | done |].
    rewrite Dictionary_Set_map by done. rewrite Hv. by apply insert_id.
Qed.

Lemma Dictionary_Set_Remove_witness :
  (Dictionary_Remove "aa"
     (Dictionary_Set "aa" Empty [("a", ValueNumber 1); ("b", ValueNumber 2)]).2).2
  = [("a", ValueNumber 1); ("b", ValueNumber 2)].
Proof.
  apply (proj1 (Dictionary_Set_Remove [("a", ValueNumber 1); ("b", ValueNumber 2)] "aa" Empty
                  keys_ascending_a1_b2)).
  reflexivity.
Defined.

(** X7.  [CopyTo] between snapshots with ascending keys never fails and
    leaves in the destination a snapshot with ascending keys in which every
    key of the source has the value of the source and every other key the
    value it had; copying a mapping to itself, or an empty mapping to any,
    changes nothing. *)
Theorem Dictionary_CopyTo_spec (src dest : DictionaryData) :
  keys_ascending src -> keys_ascending dest ->
  let dest' := (Dictionary_CopyTo src dest).2 in
  Dictionary_CopyTo src dest = (Ok tt, dest') /\
  keys_ascending dest' /\
  Dictionary_to_map dest' = Dictionary_to_map src ∪ Dictionary_to_map dest /\
  (forall key,
     Dictionary_Get key dest'
     = (if Dictionary_Contains key src then Dictionary_Get key src else Dictionary_Get key dest) /\
     Dictionary_Contains key dest' = Dictionary_Contains key src || Dictionary_Contains key dest) /\
  (src = dest -> dest' = dest) /\
  (src = [] -> dest' = dest).
Proof.
  intros Hsrc Hdest dest'. apply keys_ascending_sorted in Hsrc, Hdest.
  pose proof (Dictionary_CopyTo_sorted src dest Hdest) as Hs'.
  destruct (Dictionary_CopyTo_map src dest Hdest) as [Hok Hm].
  rewrite foldl_insert_union in Hm by by apply sorted_NoDup_keys.
  fold (Dictionary_to_map src) in Hm. fold dest' in Hs', Hm.
  split; [| split; [by apply keys_ascending_sorted|]; split; [done|]; split; [| split]].
  - unfold dest'. destruct (Dictionary_CopyTo src dest). simpl in Hok. by subst.
  - intros key. rewrite !Dictionary_Get_map, !Dictionary_Contains_map, Hm by done.
    rewrite lookup_union.
    destruct (Dictionary_to_map src !! key), (Dictionary_to_map dest !! key); done.
  - intros ->. apply Dictionary_to_map_inj; [done | done |].
    rewrite Hm. apply (idemp_L (∪)).
  - intros ->. apply Dictionary_to_map_inj; [done | done |].
    rewrite Hm. apply (left_id_L ∅ (∪)).
Qed.

Lemma Dictionary_CopyTo_spec_witness :
  Dictionary_CopyTo [("a", ValueNumber 1); ("b", ValueNumber 2)]
    [("b", Empty); ("c", ValueBoolean true)]
  = (Ok tt, [("a", ValueNumber 1); ("b", ValueNumber 2); ("c", ValueBoolean true)]).
Proof.
  assert (Hdest : keys_ascending [("b", Empty); ("c", ValueBoolean true)])
    by (apply keys_ascending_sorted; repeat constructor).
  apply (proj1 (Dictionary_CopyTo_spec [("a", ValueNumber 1); ("b", ValueNumber 2)]
                  [("b", Empty); ("c", ValueBoolean true)] keys_ascending_a1_b2 Hdest)).
Defined.

(** X8.  With a [std::sort] that returns its input sorted, the shallow clone
    of a snapshot with ascending keys holds the same pairs, and the deep
    clone holds the same keys in the same places, each with the clone of its
    value. *)
Theorem Dictionary_clones std_sort (Value_Clone : Value -> Value) (d : DictionaryData) :
  std_sort_contract std_sort -> keys_ascending d ->
  Dictionary_ShallowClone std_sort d = d /\
  Dictionary_Clone std_sort Value_Clone d
  = map (fun kv : DictionaryPair => (kv.1, Value_Clone kv.2)) d /\
  Dictionary_GetKeys (Dictionary_Clone std_sort Value_Clone d) = Dictionary_GetKeys d /\
  (forall key,
     Dictionary_Get_result key (Dictionary_Clone std_sort Value_Clone d)
     = match Dictionary_Get_result key d with
       | (found, written) => (found, Value_Clone <$> written)
       end).
Proof.
  intros Hsort Hs. apply keys_ascending_sorted in Hs.
  pose proof (Clone_loop_sorted Value_Clone d Hs) as Hs'.
  assert (Hclone : Dictionary_Clone std_sort Value_Clone d
                   = map (fun kv : DictionaryPair => (kv.1, Value_Clone kv.2)) d).
  { unfold Dictionary_Clone, Dictionary_GetView, rcu_ptr_read. cbn zeta.
    by apply Dictionary_Dictionary_sorted_id. }
  split; [by apply Dictionary_Dictionary_sorted_id|]. split; [done|].
  rewrite Hclone. split.
  - unfold Dictionary_GetKeys, Dictionary_GetView, rcu_ptr_read.
    rewrite map_map. by apply map_ext.
  - intros key. rewrite !Dictionary_Get_result_map by done.
    unfold Dictionary_to_map.
    change (map (fun kv : DictionaryPair => (kv.1, Value_Clone kv.2)) d)
      with (prod_map id Value_Clone <$> d).
    rewrite list_to_map_fmap, lookup_fmap.
    by destruct (list_to_map d !! key).
Qed.

Lemma Dictionary_clones_witness :
  Dictionary_ShallowClone stable_sort [("a", ValueNumber 1); ("b", ValueNumber 2)]
  = [("a", ValueNumber 1); ("b", ValueNumber 2)].
Proof.
  apply (proj1 (Dictionary_clones stable_sort (fun v => v)
                  [("a", ValueNumber 1); ("b", ValueNumber 2)]
                  stable_sort_contract keys_ascending_a1_b2)).
Defined.

(** X9.  The field accessors of a mapping with ascending keys: a field that
    was set is read back as it was set, whatever the prototype holds, and is
    an own field; a field that is not in the mapping is looked up in the
    prototype, and that lookup is made outside the sandbox whatever the
    caller asked for. *)
Theorem Dictionary_field_access
    (GetPrototypeField : DictionaryData -> string -> bool -> DebugInfo -> Result Value)
    (d : DictionaryData) (field : string) (sandboxed : bool) (debugInfo : DebugInfo) :
  keys_ascending d ->
  (forall value debugInfo',
     let d' := (Dictionary_SetFieldByName field value debugInfo' d).2 in
     Dictionary_SetFieldByName field value debugInfo' d = (Ok tt, d') /\
     Dictionary_GetFieldByName GetPrototypeField field sandboxed debugInfo d' = Ok value /\
     Dictionary_HasOwnField field d' = true /\
     Dictionary_GetOwnField field d' = (true, Some value)) /\
  (forall value, (field, value) ∈ d ->
     Dictionary_GetFieldByName GetPrototypeField field sandboxed debugInfo d = Ok value) /\
  (Dictionary_HasOwnField field d = false ->
     Dictionary_GetFieldByName GetPrototypeField field sandboxed debugInfo d
     = GetPrototypeField d field false debugInfo /\
     Dictionary_GetOwnField field d = (false, None)).
Proof.
  intros Hs. apply keys_ascending_sorted in Hs.
  unfold Dictionary_GetFieldByName, Dictionary_GetOwnField, Dictionary_HasOwnField,
    Dictionary_SetFieldByName. cbn zeta.
  split; [| split].
  - intros value _.
    pose proof (Dictionary_Set_sorted field value d Hs) as Hs'.
    pose proof (Dictionary_Set_map field value d Hs) as Hm.
    pose proof (Dictionary_Set_Ok field value d) as Hok.
    destruct (Dictionary_Set field value d) as [r d']. simpl in *. subst r.
    rewrite Dictionary_Get_result_map, Dictionary_Contains_map, Hm by done.
    rewrite lookup_insert_eq. repeat split; by apply bool_decide_eq_true.
  - intros value Hin. rewrite Dictionary_Get_result_map by done.
    assert (Hfound : Dictionary_to_map d !! field = Some value)
      by (apply elem_of_list_to_map_1; [by apply sorted_NoDup_keys | done]).
    by rewrite Hfound.
  - rewrite Dictionary_Get_result_map, Dictionary_Contains_map by done.
    intros Hmissing. apply bool_decide_eq_false in Hmissing.
    apply eq_None_not_Some in Hmissing. by rewrite Hmissing.
Qed.

Lemma Dictionary_field_access_witness :
  Dictionary_GetFieldByName (fun _ _ _ _ => Throw std_out_of_range) "b" true script_position
    [("a", ValueNumber 1); ("b", ValueNumber 2)]
  = Ok (ValueNumber 2).
Proof.
  apply (proj1 (proj2 (Dictionary_field_access (fun _ _ _ _ => Throw std_out_of_range)
                         [("a", ValueNumber 1); ("b", ValueNumber 2)] "b" true script_position
                         keys_ascending_a1_b2)) (ValueNumber 2)).
  right. left.
Defined.

(** ** The array *)

Lemma Array_Clone_loop (Value_Clone : Value -> Value) (A acc : ArrayData) :
  foldl (fun result val => result ++ [Value_Clone val]) acc A = acc ++ map Value_Clone A.
Proof.
  revert acc. induction A as [|x A IH]; intros acc; simpl; [by rewrite app_nil_r|].
  by rewrite IH, <- app_assoc.
Qed.

Lemma find_app_true {X} (p : X -> bool) (l1 l2 : list X) :
  match find p (l1 ++ l2) with Some _ => true | None => false end
  = match find p l1 with Some _ => true | None => false end
    || match find p l2 with Some _ => true | None => false end.
Proof. induction l1 as [|x l1 IH]; simpl; [done|]. by destruct (p x). Qed.

(** X10.  [Set] at an index below the length never fails: the element at the
    index is then the value, every other element and the length are as
    before.  At an index from the length on, [Set] and [Get] throw
    [std::out_of_range], and the snapshot stays as it was. *)
Theorem Array_Set_Get (A : ArrayData) (index : nat) (value : Value) :
  ((index < Array_GetLength A)%nat ->
     let A' := (Array_Set index value A).2 in
     Array_Set index value A = (Ok tt, A') /\
     Array_Get index A' = Ok value /\
     Array_GetLength A' = Array_GetLength A /\
     (forall j, j <> index -> Array_Get j A' = Array_Get j A) /\
     (exists x, Array_Get index A = Ok x)) /\
  ((Array_GetLength A <= index)%nat ->
     Array_Set index value A = (Throw std_out_of_range, A) /\
     Array_Get index A = Throw std_out_of_range).
Proof.
  unfold Array_Set, Array_Get, Array_GetLength, Array_GetView, rcu_ptr_read,
    rcu_ptr_copy_update, vector_at_assign, vector_at. cbn zeta.
  split; intros Hi.
  - destruct (Nat.ltb_spec index (length A)); [| lia]. simpl.
    split; [done|]. split; [by rewrite list_lookup_insert_eq|].
    split; [by rewrite length_insert|]. split.
    + intros j Hj. by rewrite list_lookup_insert_ne.
    + destruct (lookup_lt_is_Some_2 A index) as [x Hx]; [done|]. exists x. by rewrite Hx.
  - destruct (Nat.ltb_spec index (length A)); [lia|].
    split; [done|]. by rewrite lookup_ge_None_2.
Qed.

Lemma Array_Set_Get_witness :
  Array_Set 1 (ValueString "x") [ValueBoolean true; Empty]
  = (Ok tt, [ValueBoolean true; ValueString "x"]).
Proof.
  apply (proj1 (Array_Set_Get [ValueBoolean true; Empty] 1 (ValueString "x"))).
  vm_compute. lia.
Defined.

(** X11.  [Add] never fails: the value becomes the last element, the
    elements in front stay, the length grows by one; it is [Insert] at the
    length. *)
Theorem Array_Add_spec (A : ArrayData) (value : Value) :
  let A' := (Array_Add value A).2 in
  Array_Add value A = (Ok tt, A') /\
  Array_GetLength A' = S (Array_GetLength A) /\
  Array_Get (Array_GetLength A) A' = Ok value /\
  (forall j, (j < Array_GetLength A)%nat -> Array_Get j A' = Array_Get j A) /\
  Array_Add value A = Array_Insert (Array_GetLength A) value A.
Proof.
  unfold Array_Add, Array_Insert, Array_Get, Array_GetLength, Array_GetView, rcu_ptr_read,
    rcu_ptr_copy_update, vector_at, vector_insert, ASSERT. cbn zeta. simpl.
  split; [done|]. split; [rewrite length_app; simpl; lia|].
  split; [by rewrite list_lookup_middle|]. split.
  - intros j Hj. by rewrite lookup_app_l.
  - rewrite Nat.leb_refl. simpl. by rewrite take_ge, drop_ge by lia.
Qed.

(** X12.  [Remove] at an index below the length never fails: the elements in
    front of the index stay, those behind it move one place to the front, and
    the length drops by one. *)
Theorem Array_Remove_spec (A : ArrayData) (index : nat) :
  (index < Array_GetLength A)%nat ->
  let A' := (Array_Remove index A).2 in
  Array_Remove index A = (Ok tt, A') /\
  S (Array_GetLength A') = Array_GetLength A /\
  (forall j, (j < index)%nat -> Array_Get j A' = Array_Get j A) /\
  (forall j, (index <= j)%nat -> Array_Get j A' = Array_Get (S j) A).
Proof.
  unfold Array_Remove, Array_Get, Array_GetLength, Array_GetView, rcu_ptr_read,
    rcu_ptr_copy_update, vector_at, vector_erase. cbn zeta. simpl.
  intros Hi. split; [done|]. split; [| split].
  - rewrite length_delete by by apply lookup_lt_is_Some_2. lia.
  - intros j Hj. by rewrite list_lookup_delete_lt.
  - intros j Hj. by rewrite list_lookup_delete_ge.
Qed.

Lemma Array_Remove_spec_witness :
  Array_Remove 0 [ValueBoolean true; Empty] = (Ok tt, [Empty]).
Proof.
  apply (proj1 (Array_Remove_spec [ValueBoolean true; Empty] 0 ltac:(vm_compute; lia))).
Defined.

(** X13.  [Remove] undoes [Insert] at the same index, and [Remove] at the old
    length undoes [Add]; [Insert] of an element at the index it was removed
    from gives the array back. *)
Theorem Array_Insert_Remove (A : ArrayData) (index : nat) (value : Value) :
  ((index <= Array_GetLength A)%nat ->
     Array_Remove index (Array_Insert index value A).2 = (Ok tt, A)) /\
  Array_Remove (Array_GetLength A) (Array_Add value A).2 = (Ok tt, A) /\
  (forall x, Array_Get index A = Ok x ->
     Array_Insert index x (Array_Remove index A).2 = (Ok tt, A)).
Proof.
  unfold Array_Remove, Array_Insert, Array_Add, Array_Get, Array_GetLength, Array_GetView,
    rcu_ptr_read, rcu_ptr_copy_update, vector_at, vector_erase, vector_insert, ASSERT.
  cbn zeta. split; [| split].
  - intros Hi. destruct (Nat.leb_spec index (length A)); [| lia]. simpl.
    f_equal. rewrite delete_take_drop.
    assert (Hlen : length (take index A) = index) by (rewrite length_take; lia).
    rewrite take_app_length' by done.
    rewrite (cons_middle value (take index A) (drop index A)), app_assoc.
    rewrite drop_app_length' by (rewrite length_app; simpl; lia).
    apply take_drop.
  - simpl. f_equal. rewrite delete_take_drop.
    rewrite take_app_length. rewrite drop_ge by (rewrite length_app; simpl; lia).
    by rewrite app_nil_r.
  - intros x Hx. destruct (A !! index) as [y|] eqn:Hy; [| done]. injection Hx as ->.
    simpl. assert (Hi : (index < length A)%nat) by by eapply lookup_lt_Some.
    rewrite length_delete by done.
    destruct (Nat.leb_spec index (length A - 1)); [| lia]. simpl. f_equal.
    rewrite delete_take_drop.
    assert (Hlen : length (take index A) = index) by (rewrite length_take; lia).
    rewrite take_app_length', drop_app_length' by done.
    by apply take_drop_middle.
Qed.

Lemma Array_Insert_Remove_witness :
  Array_Remove 1 (Array_Insert 1 (ValueString "x") [ValueBoolean true; Empty]).2
  = (Ok tt, [ValueBoolean true; Empty]).
Proof.
  apply (proj1 (Array_Insert_Remove [ValueBoolean true; Empty] 1 (ValueString "x"))).
  vm_compute. lia.
Defined.


(** X14.  [Reverse] gives a new array of the same length that holds at
    place [i] the element of place [length - 1 - i]; reversing twice gives
    the elements back in their order. *)
Theorem Array_Reverse_spec (A : ArrayData) :
  Array_GetLength (Array_Reverse A) = Array_GetLength A /\
  (forall i, (i < Array_GetLength A)%nat ->
     Array_Get i (Array_Reverse A) = Array_Get (Array_GetLength A - 1 - i) A) /\
  Array_Reverse (Array_Reverse A) = A.
Proof.
  unfold Array_Reverse, Array_Get, Array_GetLength, Array_GetView, rcu_ptr_read,
    rcu_ptr_copy_update, EmptyArrayData, vector_at. cbn zeta. simpl.
  split; [by rewrite length_reverse|]. split.
  - intros i Hi. rewrite reverse_lookup by done.
    by replace (length A - S i)%nat with (length A - 1 - i)%nat by lia.
  - by rewrite reverse_involutive.
Qed.

(** X15.  [CopyTo] never fails and appends the elements of the source to the
    destination: the elements of the destination keep their places, those of
    the source follow in their order; copying an array to itself doubles
    it. *)
Theorem Array_CopyTo_spec (src dest : ArrayData) :
  let dest' := (Array_CopyTo src dest).2 in
  Array_CopyTo src dest = (Ok tt, dest') /\
  Array_GetLength dest' = (Array_GetLength dest + Array_GetLength src)%nat /\
  (forall i, (i < Array_GetLength dest)%nat -> Array_Get i dest' = Array_Get i dest) /\
  (forall i, Array_Get (Array_GetLength dest + i) dest' = Array_Get i src) /\
  (Array_CopyTo src src).2 = src ++ src.
Proof.
  unfold Array_CopyTo, Array_Get, Array_GetLength, Array_GetView, rcu_ptr_read,
    rcu_ptr_copy_update, vector_at. cbn zeta. simpl.
  split; [done|]. split; [by rewrite length_app|]. split; [| split; [| done]].
  - intros i Hi. by rewrite lookup_app_l.
  - intros i. rewrite lookup_app_r by lia.
    by replace (length dest + i - length dest)%nat with i by lia.
Qed.

(** X16.  [Reserve] leaves the elements as they are, whether it returns or
    throws.  [Resize] that returns leaves an array of the new size, with the
    old elements at the places that remain and the empty value at the new
    places; down to a size within the length it always returns and keeps the
    front part.  [Clear] leaves no element. *)
Theorem Array_capacity (A : ArrayData) (newSize : nat) :
  (Array_Reserve newSize A).2 = A /\
  (forall A', Array_Resize newSize A = (Ok tt, A') ->
     Array_GetLength A' = newSize /\
     (forall i, (i < newSize)%nat -> (i < Array_GetLength A)%nat ->
        Array_Get i A' = Array_Get i A) /\
     (forall i, (Array_GetLength A <= i < newSize)%nat -> Array_Get i A' = Ok Empty)) /\
  ((newSize <= Array_GetLength A)%nat -> Z.of_nat (Array_GetLength A) <= PTRDIFF_MAX ->
     Array_Resize newSize A = (Ok tt, take newSize A)) /\
  Array_Clear A = (Ok tt, []) /\
  (forall i, Array_Get i (Array_Clear A).2 = Throw std_out_of_range).
Proof.
  unfold Array_Reserve, Array_Resize, Array_Clear, Array_Get, Array_GetLength, Array_GetView,
    rcu_ptr_read, rcu_ptr_reset, rcu_ptr_copy_update, vector_at, vector_reserve, vector_resize.
  cbn zeta.
  split; [by destruct (Z.of_nat newSize <=? PTRDIFF_MAX)|].
  split; [| split; [| split; [done|]]].
  - intros A' HA'. destruct (Z.of_nat newSize <=? PTRDIFF_MAX); [| done].
    injection HA' as <-. rewrite Nat2Z.id.
    split; [by rewrite length_resize|]. split.
    + intros i Hi HiA. by rewrite lookup_resize by lia.
    + intros i Hi. by rewrite lookup_resize_new by lia.
  - intros Hle Hmax. destruct (Z.leb_spec (Z.of_nat newSize) PTRDIFF_MAX); [| lia].
    rewrite Nat2Z.id. by rewrite resize_le.
  - intros i. by destruct i.
Qed.

Lemma Array_capacity_witness :
  Array_Resize 1 [ValueBoolean true; Empty] = (Ok tt, [ValueBoolean true]).
Proof.
  apply (proj1 (proj2 (proj2 (Array_capacity [ValueBoolean true; Empty] 1))));
    vm_compute; [lia | discriminate].
Defined.

(** X17.  The clones of an array: the shallow one holds the same elements;
    the deep one has the same length and holds at every place the clone of
    the element of that place. *)
Theorem Array_clones (Value_Clone : Value -> Value) (A : ArrayData) :
  Array_ShallowClone A = A /\
  Array_Clone Value_Clone A = map Value_Clone A /\
  Array_GetLength (Array_Clone Value_Clone A) = Array_GetLength A /\
  (forall i x, Array_Get i A = Ok x ->
     Array_Get i (Array_Clone Value_Clone A) = Ok (Value_Clone x)).
Proof.
  unfold Array_ShallowClone, Array_Clone, Array_Array, Array_Get, Array_GetLength,
    Array_GetView, rcu_ptr_read, vector_at. cbn zeta.
  rewrite Array_Clone_loop. simpl.
  split; [done|]. split; [done|]. split; [by rewrite length_map|].
  intros i x Hx. change (map Value_Clone A) with (Value_Clone <$> A).
  rewrite list_lookup_fmap. destruct (A !! i); [| done]. by injection Hx as ->.
Qed.

(** X18.  [Contains] tells whether some element equals the value under
    [operator==]; it is false on a cleared array, and what it answers is not
    changed by [Reverse] and is the disjunction of its answers for source and
    destination after [CopyTo]. *)
Theorem Array_Contains_spec (Value_equals : Value -> Value -> bool)
    (A B : ArrayData) (value : Value) :
  (Array_Contains Value_equals value A = true <->
     exists i x, Array_Get i A = Ok x /\ Value_equals x value = true) /\
  Array_Contains Value_equals value (Array_Clear A).2 = false /\
  Array_Contains Value_equals value (Array_Reverse A) = Array_Contains Value_equals value A /\
  Array_Contains Value_equals value (Array_CopyTo A B).2
  = Array_Contains Value_equals value B || Array_Contains Value_equals value A.
Proof.
  assert (Hfind : forall l : ArrayData,
            match find (fun x => Value_equals x value) l with Some _ => true | None => false end
            = true <-> exists x, x ∈ l /\ Value_equals x value = true).
  { induction l as [|y l IH]; simpl.
    - split; [done|]. intros (x & Hx & _). by apply elem_of_nil in Hx.
    - destruct (Value_equals y value) eqn:Hy.
      + split; [| done]. intros _. exists y. split; [left | done].
      + rewrite IH. split; intros (x & Hx & Hv); exists x; (split; [| done]).
        * by right.
        * apply elem_of_cons in Hx as [->|Hx]; [congruence | done]. }
  unfold Array_Contains, Array_Clear, Array_Reverse, Array_CopyTo, Array_Get, Array_GetView,
    rcu_ptr_read, rcu_ptr_reset, rcu_ptr_copy_update, EmptyArrayData, vector_at.
  cbn zeta. simpl. split; [| split; [done|]; split].
  - rewrite Hfind. split.
    + intros (x & Hx & Hv). apply list_elem_of_lookup in Hx as [i Hi].
      exists i, x. by rewrite Hi.
    + intros (i & x & Hi & Hv). exists x. split; [| done].
      destruct (A !! i) as [y|] eqn:Hy; [| done]. injection Hi as ->.
      by eapply list_elem_of_lookup_2.
  - apply eq_true_iff_eq. rewrite !Hfind.
    split; intros (x & Hx & Hv); exists x; (split; [| done]).
    + exact (proj1 (elem_of_reverse x A) Hx).
    + exact (proj2 (elem_of_reverse x A) Hx).
  - apply find_app_true.
Qed.

(** X19.  A field set by name is read back by name: for a key that converts
    to an index from 0 up to, but not including, [INT_MAX],
    [SetFieldByName] returns and [GetFieldByName] with the same key then
    returns the value, without a look at the prototype; the array has grown
    to hold the index if it was too short, and kept its length otherwise. *)
Theorem Array_field_roundtrip
    (ToLong : string -> Result Z) (Proto : string -> bool -> DebugInfo -> Result Value)
    (A : ArrayData) (s : string) (v : Value) (di di' : DebugInfo) (sandboxed : bool) (n : Z) :
  ToLong s = Ok n -> 0 <= n < INT_MAX ->
  let A' := (Array_SetFieldByName ToLong s v di A).2 in
  Array_SetFieldByName ToLong s v di A = (Ok tt, A') /\
  Array_GetFieldByName ToLong Proto s sandboxed di' A' = Ok v /\
  Array_Get (Z.to_nat n) A' = Ok v /\
  Z.of_nat (Array_GetLength A') = Z.max (Z.of_nat (Array_GetLength A)) (n + 1).
Proof.
  intros Hs Hn A'. unfold A'.
  rewrite (Array_SetFieldByName_in_range ToLong A s v di n) by done.
  assert (Hrange : INT_MIN <= n <= INT_MAX) by (unfold INT_MIN, INT_MAX in *; lia).
  unfold Array_Get, Array_GetLength, Array_GetView, rcu_ptr_read, vector_at. cbn zeta.
  destruct (Z.leb_spec (Z.of_nat (length A)) n) as [Hge|Hlt]; simpl.
  - assert (Hlen : length (A ++ replicate (Z.to_nat n - length A) Empty ++ [v])
                   = S (Z.to_nat n))
      by (rewrite !length_app, length_replicate; simpl; lia).
    assert (Hv : (A ++ replicate (Z.to_nat n - length A) Empty ++ [v]) !! Z.to_nat n = Some v).
    { rewrite app_assoc. apply list_lookup_middle.
      rewrite length_app, length_replicate. lia. }
    split; [done|].
    rewrite (Array_GetFieldByName_in_range ToLong Proto _ s sandboxed di' n) by done.
    rewrite Hlen, Hv.
    destruct (Z.ltb_spec n 0); [lia|].
    destruct (Z.leb_spec (Z.of_nat (S (Z.to_nat n))) n); [lia|]. simpl.
    split; [done|]. split; [done | lia].
  - assert (Hv : <[Z.to_nat n := v]> A !! Z.to_nat n = Some v)
      by (apply list_lookup_insert_eq; lia).
    split; [done|].
    rewrite (Array_GetFieldByName_in_range ToLong Proto _ s sandboxed di' n) by done.
    rewrite length_insert, Hv.
    destruct (Z.ltb_spec n 0); [lia|].
    destruct (Z.leb_spec (Z.of_nat (length A)) n); [lia|]. simpl.
    split; [done|]. split; [done | lia].
Qed.

Lemma Array_field_roundtrip_witness :
  Array_GetFieldByName Convert_ToLong (fun _ _ _ => Throw std_out_of_range) "2" false
    script_position
    (Array_SetFieldByName Convert_ToLong "2" (ValueString "x") script_position
       [ValueBoolean true]).2
  = Ok (ValueString "x").
Proof.
  apply (proj1 (proj2 (Array_field_roundtrip Convert_ToLong (fun _ _ _ => Throw std_out_of_range)
                         [ValueBoolean true] "2" (ValueString "x") script_position
                         script_position false 2 eq_refl
                         ltac:(vm_compute; split; [discriminate | reflexivity])))).
Defined.

(** ** The object lock *)

(** X20.  The scope of an [ObjectLock]: the constructor never fails; with an
    object it leaves the lock locked and the mutex of the object held once
    more than before, other mutexes as they were, and with a null pointer it
    locks nothing.  The destructor then never fails, leaves the lock unlocked
    and every mutex held as often as before the constructor. *)
Theorem ObjectLock_scope (object : option Lockable) (held : Mutexes) :
  let constructed := ObjectLock_ObjectLock object held in
  let destroyed := ObjectLock_destructor constructed.2 in
  constructed.1 = Ok tt /\
  m_Object constructed.2.1 = object /\
  m_Locked constructed.2.1 = bool_decide (is_Some object) /\
  (forall o, constructed.2.2 o = if decide (object = Some o) then S (held o) else held o) /\
  destroyed.1 = Ok tt /\
  m_Locked destroyed.2.1 = false /\
  (forall o, destroyed.2.2 o = held o).
Proof.
  destruct object as [object|]; cbn.
  - repeat split; try done.
    + intros o. unfold recursive_mutex_lock.
      destruct (decide (o = object)) as [->|Hne].
      * by rewrite decide_True.
      * rewrite decide_False; [done | congruence].
    + intros o. unfold recursive_mutex_unlock, recursive_mutex_lock.
      by destruct (decide (o = object)).
  - repeat split; try done.
Qed.

(** X21.  The misuse of an [ObjectLock]: [Lock] on a lock that is locked, or
    that has no object, stops at the assertion and changes nothing; [Unlock]
    on a lock that is not locked does nothing, so that a second [Unlock] is
    harmless; and [Lock] followed by [Unlock] leaves the lock and every
    mutex as they were. *)
Theorem ObjectLock_Lock_Unlock (s : ObjectLock_State) :
  (m_Locked s.1 = true -> ObjectLock_Lock s = (AssertionFailed, s)) /\
  (m_Object s.1 = None -> ObjectLock_Lock s = (AssertionFailed, s)) /\
  (m_Locked s.1 = false -> ObjectLock_Unlock s = (Ok tt, s)) /\
  (ObjectLock_Unlock (ObjectLock_Unlock s).2).2 = (ObjectLock_Unlock s).2 /\
  (forall object, m_Locked s.1 = false -> m_Object s.1 = Some object ->
     let locked := (ObjectLock_Lock s).2 in
     let unlocked := (ObjectLock_Unlock locked).2 in
     ObjectLock_Lock s = (Ok tt, locked) /\
     m_Locked locked.1 = true /\
     locked.2 object = S (s.2 object) /\
     ObjectLock_Unlock locked = (Ok tt, unlocked) /\
     unlocked.1 = s.1 /\
     (forall o, unlocked.2 o = s.2 o)).
Proof.
  destruct s as [[object locked] held]. unfold ObjectLock_Lock, ObjectLock_Unlock. cbn.
  split; [by intros ->|]. split; [intros ->; by destruct locked|].
  split; [by intros ->|]. split.
  - destruct locked; [| done]. by destruct object.
  - intros o -> ->. cbn. unfold recursive_mutex_unlock, recursive_mutex_lock.
    rewrite decide_True by done. repeat split; try done.
    intros o'. by destruct (decide (o' = o)).
Qed.

Lemma ObjectLock_Lock_Unlock_witness :
  ObjectLock_Lock ({| m_Object := Some 1%positive; m_Locked := true |}, fun _ => 1%nat)
  = (AssertionFailed, ({| m_Object := Some 1%positive; m_Locked := true |}, fun _ => 1%nat)).
Proof.
  apply (proj1 (ObjectLock_Lock_Unlock
                  ({| m_Object := Some 1%positive; m_Locked := true |}, fun _ => 1%nat))).
  reflexivity.
Defined.

(** ** The writers *)

Lemma for_each_filter {S A} (body : A -> S -> Result unit * S) (P : A -> Prop)
    `{!forall x, Decision (P x)} (range : list A) (s : S) :
  (forall x s, ~ P x -> body x s = (Ok tt, s)) ->
  for_each body range s = for_each body (filter P range) s.
Proof.
  intros Hskip. revert s. induction range as [|x range IH]; intros s; [done|].
  destruct (decide (P x)) as [HP|HP].
  - rewrite filter_cons_True by done. simpl.
    destruct (body x s) as [[| |] s']; [apply IH | done | done].
  - rewrite filter_cons_False by done. simpl. rewrite Hskip by done. apply IH.
Qed.

Lemma for_each_app {S A} (body : A -> S -> Result unit * S) (l1 l2 : list A) (s s' : S) :
  for_each body l1 s = (Ok tt, s') ->
  for_each body (l1 ++ l2) s = for_each body l2 s'.
Proof.
  revert s. induction l1 as [|x l1 IH]; intros s H; simpl in *; [by injection H as ->|].
  destruct (body x s) as [[| |] s'']; [by apply IH | done | done].
Qed.





Section GraphiteWriter_more.
Variable cvtD : float -> string.
Variable cvtL : float -> Z.
Variable lexd : Value -> Result float.
Variable asP : Value -> option PerfdataValue.
Variable parse : Value -> option PerfdataValue.






Lemma GraphiteWriter_SendPerfdataValue_value_only prefix pdv ts lines metadata :
  GraphiteWriter.SendPerfdataValue cvtD cvtL lexd prefix pdv ts
    (connected_writer lines false metadata)
  = (Ok tt, connected_writer (lines ++ [graphite_value_line cvtD cvtL prefix pdv ts])
              false metadata).
Proof. reflexivity. Qed.
End GraphiteWriter_more.



(** X23.  A connected Graphite writer that does not send thresholds puts
    exactly one line on the wire for every element of the performance data
    that is or parses to a perfdata value, its [.value] line, in the order of
    the elements; the thresholds are not looked at. *)
Theorem GraphiteWriter_SendPerfdata_values_only
    (cvtD : float -> string) (cvtL : float -> Z) (lexd : Value -> Result float)
    (asP parse : Value -> option PerfdataValue) (prefix : string) (ts : float)
    (perfdata : ArrayData) (lines : list string) (metadata : bool) :
  GraphiteWriter.SendPerfdata cvtD cvtL lexd asP parse prefix (Some perfdata) ts
    (connected_writer lines false metadata)
  = (Ok tt,
     connected_writer
       (lines ++ omap (fun val => (fun pdv => graphite_value_line cvtD cvtL prefix pdv ts)
                                    <$> perfdata_element asP parse val) perfdata)
       false metadata).
Proof.
  unfold GraphiteWriter.SendPerfdata. revert lines.
  induction perfdata as [|val perfdata IH]; intros lines; cbn [for_each omap list_omap];
    [by rewrite app_nil_r|].
  destruct (perfdata_element asP parse val) as [pdv|]; cbn [fmap option_fmap option_map].
  - rewrite GraphiteWriter_SendPerfdataValue_value_only, IH. by rewrite <- app_assoc.
  - apply IH.
Qed.

(** X24.  Both writers pass over an element of the performance data that is
    no perfdata value and does not parse to one: what [SendPerfdata] does is
    what it does on the valid elements alone, and without performance data it
    does nothing. *)
Theorem SendPerfdata_skips_invalid
    (cvtD : float -> string) (cvtL : float -> Z) (lexd : Value -> Result float)
    (asP parse : Value -> option PerfdataValue) (perfdata : ArrayData) (ts : float) :
  let valid val := is_Some (perfdata_element asP parse val) in
  (forall prefix self,
     GraphiteWriter.SendPerfdata cvtD cvtL lexd asP parse prefix (Some perfdata) ts self
     = GraphiteWriter.SendPerfdata cvtD cvtL lexd asP parse prefix
         (Some (filter valid perfdata)) ts self) /\
  (forall metric tags cr self,
     GetPerformanceData cr = Some perfdata ->
     OpenTsdbWriter.SendPerfdata cvtD cvtL lexd asP parse metric tags cr ts self
     = OpenTsdbWriter.SendPerfdata cvtD cvtL lexd asP parse metric tags
         {| GetExecutionEnd := GetExecutionEnd cr;
            GetPerformanceData := Some (filter valid perfdata);
            CalculateLatency := CalculateLatency cr;
            CalculateExecutionTime := CalculateExecutionTime cr |} ts self) /\
  (forall prefix self,
     GraphiteWriter.SendPerfdata cvtD cvtL lexd asP parse prefix None ts self = (Ok tt, self)) /\
  (forall metric tags cr self,
     GetPerformanceData cr = None ->
     OpenTsdbWriter.SendPerfdata cvtD cvtL lexd asP parse metric tags cr ts self = (Ok tt, self)).
Proof.
  intros valid. split; [| split; [| split]].
  - intros prefix self. unfold GraphiteWriter.SendPerfdata.
    apply (for_each_filter _ valid). intros val s Hval. unfold valid in Hval.
    destruct (perfdata_element asP parse val); [| done]. by destruct Hval.
  - intros metric tags cr self Hcr. unfold OpenTsdbWriter.SendPerfdata. rewrite Hcr. simpl.
    apply (for_each_filter _ valid). intros val s Hval. unfold valid in Hval.
    destruct (perfdata_element asP parse val); [| done]. by destruct Hval.
  - done.
  - intros metric tags cr self Hcr. unfold OpenTsdbWriter.SendPerfdata. by rewrite Hcr.
Qed.


Section OpenTsdbWriter_more.
Variable cvtD : float -> string.
Variable cvtL : float -> Z.
Variable lexd : Value -> Result float.
Variable asP : Value -> option PerfdataValue.
Variable parse : Value -> option PerfdataValue.

(** What an action of the OpenTSDB writer that cannot throw does to the
    writer: it returns, keeps the pause flag, and leaves a writer without a
    stream as it is. *)
Lemma OpenTsdbWriter_SendMetric_quiet metric tags value ts self :
  (OpenTsdbWriter.SendMetric cvtD cvtL metric tags value ts self).1 = Ok tt /\
  OpenTsdbWriter.IsPaused (OpenTsdbWriter.SendMetric cvtD cvtL metric tags value ts self).2
  = OpenTsdbWriter.IsPaused self /\
  (OpenTsdbWriter.m_Stream self = None ->
   (OpenTsdbWriter.SendMetric cvtD cvtL metric tags value ts self).2 = self).
Proof.
  unfold OpenTsdbWriter.SendMetric, Stream_Write. cbn zeta.
  destruct (OpenTsdbWriter.m_Stream self) as [stream|]; [| done].
  by destruct (failing stream).
Qed.

Lemma quiet_seq (a b : Action OpenTsdbWriter.State) :
  (forall self, (a self).1 = Ok tt /\
     OpenTsdbWriter.IsPaused (a self).2 = OpenTsdbWriter.IsPaused self /\
     (OpenTsdbWriter.m_Stream self = None -> (a self).2 = self)) ->
  (forall self, (b self).1 = Ok tt /\
     OpenTsdbWriter.IsPaused (b self).2 = OpenTsdbWriter.IsPaused self /\
     (OpenTsdbWriter.m_Stream self = None -> (b self).2 = self)) ->
  forall self, (seq a b self).1 = Ok tt /\
     OpenTsdbWriter.IsPaused (seq a b self).2 = OpenTsdbWriter.IsPaused self /\
     (OpenTsdbWriter.m_Stream self = None -> (seq a b self).2 = self).
Proof.
  intros Ha Hb self. unfold seq. destruct (Ha self) as (Ha1 & Ha2 & Ha3).
  destruct (a self) as [r s']. simpl in *. subst r.
  destruct (Hb s') as (Hb1 & Hb2 & Hb3).
  split; [done|]. split; [congruence|].
  intros Hnone. specialize (Ha3 Hnone). subst s'. by apply Hb3.
Qed.

Lemma OpenTsdbWriter_SendThreshold_quiet metric tags threshold ts self :
  Value_numeric threshold = true ->
  (OpenTsdbWriter.SendThreshold cvtD cvtL lexd metric tags threshold ts self).1 = Ok tt /\
  OpenTsdbWriter.IsPaused
    (OpenTsdbWriter.SendThreshold cvtD cvtL lexd metric tags threshold ts self).2
  = OpenTsdbWriter.IsPaused self /\
  (OpenTsdbWriter.m_Stream self = None ->
   (OpenTsdbWriter.SendThreshold cvtD cvtL lexd metric tags threshold ts self).2 = self).
Proof.
  intros Hnum. unfold OpenTsdbWriter.SendThreshold, when, with_value.
  rewrite (numeric_ToDouble lexd _ Hnum).
  destruct (Value_ToBool threshold); [| done]. apply OpenTsdbWriter_SendMetric_quiet.
Qed.

Lemma OpenTsdbWriter_SendPerfdataValue_quiet metric tags pdv ts self :
  numeric_thresholds pdv = true ->
  (OpenTsdbWriter.SendPerfdataValue cvtD cvtL lexd metric tags pdv ts self).1 = Ok tt /\
  OpenTsdbWriter.IsPaused
    (OpenTsdbWriter.SendPerfdataValue cvtD cvtL lexd metric tags pdv ts self).2
  = OpenTsdbWriter.IsPaused self /\
  (OpenTsdbWriter.m_Stream self = None ->
   (OpenTsdbWriter.SendPerfdataValue cvtD cvtL lexd metric tags pdv ts self).2 = self).
Proof.
  unfold numeric_thresholds. rewrite !andb_true_iff. intros [[[Hc Hw] Hmin] Hmax].
  unfold OpenTsdbWriter.SendPerfdataValue. cbn zeta. revert self.
  repeat (apply quiet_seq;
          [intros self;
           first [apply OpenTsdbWriter_SendMetric_quiet
                 | by apply OpenTsdbWriter_SendThreshold_quiet] |]).
  intros self. by apply OpenTsdbWriter_SendThreshold_quiet.
Qed.

Lemma OpenTsdbWriter_SendPerfdata_quiet metric tags cr ts self :
  (forall perfdata, GetPerformanceData cr = Some perfdata ->
     Forall (fun val => forall pdv, perfdata_element asP parse val = Some pdv ->
                                    numeric_thresholds pdv = true) perfdata) ->
  (OpenTsdbWriter.SendPerfdata cvtD cvtL lexd asP parse metric tags cr ts self).1 = Ok tt /\
  OpenTsdbWriter.IsPaused
    (OpenTsdbWriter.SendPerfdata cvtD cvtL lexd asP parse metric tags cr ts self).2
  = OpenTsdbWriter.IsPaused self /\
  (OpenTsdbWriter.m_Stream self = None ->
   (OpenTsdbWriter.SendPerfdata cvtD cvtL lexd asP parse metric tags cr ts self).2 = self).
Proof.
  intros Hnum. unfold OpenTsdbWriter.SendPerfdata.
  destruct (GetPerformanceData cr) as [perfdata|]; [| done].
  specialize (Hnum perfdata eq_refl). revert self.
  induction Hnum as [|val perfdata Hval _ IH]; intros self; [done|]. cbn [for_each].
  destruct (perfdata_element asP parse val) as [pdv|] eqn:Hpdv; [| apply IH].
  destruct (OpenTsdbWriter_SendPerfdataValue_quiet metric tags pdv ts self (Hval pdv eq_refl))
    as (H1 & H2 & H3).
  destruct (OpenTsdbWriter.SendPerfdataValue cvtD cvtL lexd metric tags pdv ts self)
    as [r s']. simpl in *. subst r.
  destruct (IH s') as (I1 & I2 & I3). split; [done|]. split; [congruence|].
  intros Hnone. specialize (H3 Hnone). subst s'. by apply I3.
Qed.

Lemma OpenTsdbWriter_SendMetric_streaming paused lines metric tags value ts :
  OpenTsdbWriter.SendMetric cvtD cvtL metric tags value ts (streaming_writer paused lines)
  = (Ok tt, streaming_writer paused
              (lines ++ [OpenTsdbWriter.put_line cvtD cvtL metric tags value ts])).
Proof. reflexivity. Qed.

Lemma OpenTsdbWriter_SendThreshold_streaming paused lines metric tags key suffix threshold ts :
  Value_numeric threshold = true ->
  OpenTsdbWriter.SendThreshold cvtD cvtL lexd (metric +:+ "." +:+ key +:+ suffix) tags
    threshold ts (streaming_writer paused lines)
  = (Ok tt, streaming_writer paused
              (lines ++ tsdb_threshold_line cvtD cvtL metric tags key suffix threshold ts)).
Proof.
  intros Hnum. unfold OpenTsdbWriter.SendThreshold, tsdb_threshold_line.
  rewrite (numeric_ToBool _ Hnum), (numeric_ToDouble lexd _ Hnum).
  destruct (Value_nonzero threshold); simpl.
  - apply OpenTsdbWriter_SendMetric_streaming.
  - by rewrite app_nil_r.
Qed.

Lemma OpenTsdbWriter_SendPerfdataValue_streaming paused lines metric tags pdv ts :
  numeric_thresholds pdv = true ->
  OpenTsdbWriter.SendPerfdataValue cvtD cvtL lexd metric tags pdv ts
    (streaming_writer paused lines)
  = (Ok tt, streaming_writer paused
              (lines ++ tsdb_perfdata_lines cvtD cvtL metric tags pdv ts)).
Proof.
  unfold numeric_thresholds. rewrite !andb_true_iff. intros [[[Hc Hw] Hmin] Hmax].
  unfold OpenTsdbWriter.SendPerfdataValue, tsdb_perfdata_lines, seq. cbn zeta.
  rewrite OpenTsdbWriter_SendMetric_streaming.
  rewrite (OpenTsdbWriter_SendThreshold_streaming _ _ _ _ _ "_crit") by done.
  rewrite (OpenTsdbWriter_SendThreshold_streaming _ _ _ _ _ "_warn") by done.
  rewrite (OpenTsdbWriter_SendThreshold_streaming _ _ _ _ _ "_min") by done.
  rewrite (OpenTsdbWriter_SendThreshold_streaming _ _ _ _ _ "_max") by done.
  by rewrite <- !app_assoc.
Qed.

Lemma OpenTsdbWriter_SendPerfdata_streaming paused lines metric tags cr ts perfdata :
  GetPerformanceData cr = Some perfdata ->
  Forall (fun val => forall pdv, perfdata_element asP parse val = Some pdv ->
                                 numeric_thresholds pdv = true) perfdata ->
  OpenTsdbWriter.SendPerfdata cvtD cvtL lexd asP parse metric tags cr ts
    (streaming_writer paused lines)
  = (Ok tt, streaming_writer paused
              (lines ++ flat_map (fun val =>
                           match perfdata_element asP parse val with
                           | Some pdv => tsdb_perfdata_lines cvtD cvtL metric tags pdv ts
                           | None => []
                           end) perfdata)).
Proof.
  intros Hcr Hnum. unfold OpenTsdbWriter.SendPerfdata. rewrite Hcr. clear Hcr. revert lines.
  induction Hnum as [|val perfdata Hval _ IH]; intros lines; cbn [for_each flat_map];
    [by rewrite app_nil_r|].
  destruct (perfdata_element asP parse val) as [pdv|] eqn:Hpdv.
  - rewrite OpenTsdbWriter_SendPerfdataValue_streaming by auto.
    rewrite IH. by rewrite <- app_assoc.
  - apply IH.
Qed.
End OpenTsdbWriter_more.

(** X25.  The check result handler of the OpenTSDB writer never throws when
    the thresholds of the performance data are numbers or empty.  It leaves
    the writer as it was when the writer is paused, when performance data are
    disabled, or when there is no stream; and when the stream fails to write,
    the handler still returns, with the stream dropped. *)
Theorem OpenTsdbWriter_CheckResultHandler_returns
    (cvtD : float -> string) (cvtL : float -> Z) (lexd : Value -> Result float)
    (asP parse : Value -> option PerfdataValue) (enabled : bool)
    (checkable : Checkable) (cr : CheckResult) (self : OpenTsdbWriter.State) :
  (forall perfdata, GetPerformanceData cr = Some perfdata ->
     Forall (fun val => forall pdv, perfdata_element asP parse val = Some pdv ->
                                    numeric_thresholds pdv = true) perfdata) ->
  let result :=
    OpenTsdbWriter.CheckResultHandler cvtD cvtL lexd asP parse enabled checkable cr self in
  result.1 = Ok tt /\
  OpenTsdbWriter.IsPaused result.2 = OpenTsdbWriter.IsPaused self /\
  (OpenTsdbWriter.IsPaused self = true \/ enabled = false \/
   GetEnablePerfdata checkable = false \/ OpenTsdbWriter.m_Stream self = None ->
   result.2 = self) /\
  (forall stream,
     OpenTsdbWriter.IsPaused self = false -> enabled = true ->
     GetEnablePerfdata checkable = true ->
     OpenTsdbWriter.m_Stream self = Some stream -> failing stream = true ->
     OpenTsdbWriter.m_Stream result.2 = None).
Proof.
  intros Hnum result. unfold result, OpenTsdbWriter.CheckResultHandler.
  destruct (OpenTsdbWriter.IsPaused self) eqn:Hpaused.
  { simpl. repeat split; try done. }
  destruct (negb enabled || negb (GetEnablePerfdata checkable)) eqn:Hoff.
  { simpl. repeat split; try done.
    intros stream _ He Hc. by rewrite He, Hc in Hoff. }
  cbn zeta.
  match goal with
  | |- context [(seq ?first ?rest) self] =>
      set (head := first); set (chain := rest)
  end.
  assert (Hchain : forall s, (chain s).1 = Ok tt /\
            OpenTsdbWriter.IsPaused (chain s).2 = OpenTsdbWriter.IsPaused s /\
            (OpenTsdbWriter.m_Stream s = None -> (chain s).2 = s)).
  { unfold chain.
    repeat (apply quiet_seq;
            [intros s;
             first [apply OpenTsdbWriter_SendMetric_quiet
                   | by apply OpenTsdbWriter_SendPerfdata_quiet] |]).
    intros s. apply OpenTsdbWriter_SendMetric_quiet. }
  assert (Hhead : forall s, (head s).1 = Ok tt /\
            OpenTsdbWriter.IsPaused (head s).2 = OpenTsdbWriter.IsPaused s /\
            (OpenTsdbWriter.m_Stream s = None -> (head s).2 = s))
    by (intros s; apply OpenTsdbWriter_SendMetric_quiet).
  destruct (quiet_seq head chain Hhead Hchain self) as (H1 & H2 & H3).
  split; [done|]. split; [by rewrite H2|]. split.
  - intros [?|[He|[Hc|Hnone]]];
      [done | by rewrite He in Hoff | by rewrite Hc, orb_true_r in Hoff | by apply H3].
  - intros stream _ _ _ Hstream Hfail. unfold seq.
    assert (Hdrop : head self = (Ok tt, {| OpenTsdbWriter.IsPaused := false;
                                          OpenTsdbWriter.m_Stream := None |})).
    { unfold head, OpenTsdbWriter.SendMetric, Stream_Write. cbn zeta.
      by rewrite Hstream, Hfail, Hpaused. }
    rewrite Hdrop. destruct (Hchain {| OpenTsdbWriter.IsPaused := false;
                                       OpenTsdbWriter.m_Stream := None |}) as (_ & _ & Hsame).
    by rewrite Hsame.
Qed.

Lemma OpenTsdbWriter_CheckResultHandler_returns_witness :
  (OpenTsdbWriter.CheckResultHandler (fun _ => "0") (fun _ => 0) (fun _ => Ok 0%float)
     (fun _ => None) (fun _ => None) true cpu_checkable cpu_result
     {| OpenTsdbWriter.IsPaused := false;
        OpenTsdbWriter.m_Stream := Some {| written := []; failing := true |} |}).1
  = Ok tt.
Proof.
  apply (proj1 (OpenTsdbWriter_CheckResultHandler_returns (fun _ => "0") (fun _ => 0)
                  (fun _ => Ok 0%float) (fun _ => None) (fun _ => None) true cpu_checkable
                  cpu_result
                  {| OpenTsdbWriter.IsPaused := false;
                     OpenTsdbWriter.m_Stream := Some {| written := []; failing := true |} |}
                  ltac:(intros perfdata H; discriminate H))).
Defined.

(** X26.  The OpenTSDB writer with a stream that takes every line puts on
    the wire, for a perfdata value with numeric thresholds, its value under
    [<metric>.<key>] and then, in this order, the lines [_crit], [_warn],
    [_min] and [_max] of the thresholds that are not zero; for the
    performance data of a check result it does so element by element. *)
Theorem OpenTsdbWriter_SendPerfdata_lines
    (cvtD : float -> string) (cvtL : float -> Z) (lexd : Value -> Result float)
    (asP parse : Value -> option PerfdataValue) (metric : string) (tags : std_map)
    (ts : float) (paused : bool) (lines : list string) :
  (forall pdv, numeric_thresholds pdv = true ->
     OpenTsdbWriter.SendPerfdataValue cvtD cvtL lexd metric tags pdv ts
       (streaming_writer paused lines)
     = (Ok tt, streaming_writer paused
                 (lines ++ tsdb_perfdata_lines cvtD cvtL metric tags pdv ts)) /\
     length (tsdb_perfdata_lines cvtD cvtL metric tags pdv ts)
     = (1 + length (filter (fun v => Value_nonzero v = true)
                      [GetCrit pdv; GetWarn pdv; GetMin pdv; GetMax pdv]))%nat) /\
  (forall cr perfdata,
     GetPerformanceData cr = Some perfdata ->
     Forall (fun val => forall pdv, perfdata_element asP parse val = Some pdv ->
                                    numeric_thresholds pdv = true) perfdata ->
     OpenTsdbWriter.SendPerfdata cvtD cvtL lexd asP parse metric tags cr ts
       (streaming_writer paused lines)
     = (Ok tt, streaming_writer paused
                 (lines ++ flat_map (fun val =>
                              match perfdata_element asP parse val with
                              | Some pdv => tsdb_perfdata_lines cvtD cvtL metric tags pdv ts
                              | None => []
                              end) perfdata))).
Proof.
  split.
  - intros pdv Hnum. split; [by apply OpenTsdbWriter_SendPerfdataValue_streaming|].
    unfold tsdb_perfdata_lines, tsdb_threshold_line. cbn zeta.
    rewrite !length_app.
    destruct (Value_nonzero (GetCrit pdv)) eqn:Hc, (Value_nonzero (GetWarn pdv)) eqn:Hw,
      (Value_nonzero (GetMin pdv)) eqn:Hmin, (Value_nonzero (GetMax pdv)) eqn:Hmax;
      repeat (first [rewrite filter_cons_True by done | rewrite filter_cons_False by congruence]);
      reflexivity.
  - intros cr perfdata Hcr Hnum. by apply OpenTsdbWriter_SendPerfdata_streaming.
Qed.

Lemma OpenTsdbWriter_SendPerfdata_lines_witness :
  OpenTsdbWriter.SendPerfdataValue (fun _ => "0") (fun _ => 1600000000%Z)
    (fun _ => Ok 0%float) "icinga.host" [("host", "web01")] rta 1600000000
    (streaming_writer false [])
  = (Ok tt, streaming_writer false
              ["put icinga.host.rta 1600000000 0  host=web01" +:+ LF;
               "put icinga.host.rta_crit 1600000000 0  host=web01" +:+ LF;
               "put icinga.host.rta_warn 1600000000 0  host=web01" +:+ LF;
               "put icinga.host.rta_max 1600000000 0  host=web01" +:+ LF]).
Proof.
  apply (proj1 (proj1 (OpenTsdbWriter_SendPerfdata_lines (fun _ => "0")
                         (fun _ => 1600000000%Z) (fun _ => Ok 0%float) (fun _ => Some rta)
                         (fun _ => None) "icinga.host" [("host", "web01")] 1600000000
                         false []) rta eq_refl)).
Defined.

(** X27.  What the check result handler of the OpenTSDB writer puts on a
    stream that takes every line: five lines of the state under the metric of
    the host or service with the host tag alone, the lines of the performance
    data, and four lines under [icinga.check] whose tags come in the order of
    their keys, [host], [service], [type] for a service and [host], [type]
    for a host, whatever the order they were set in. *)
Theorem OpenTsdbWriter_CheckResultHandler_lines
    (cvtD : float -> string) (cvtL : float -> Z) (lexd : Value -> Result float)
    (asP parse : Value -> option PerfdataValue)
    (checkable : Checkable) (cr : CheckResult) (lines : list string) :
  GetEnablePerfdata checkable = true ->
  (forall perfdata, GetPerformanceData cr = Some perfdata ->
     Forall (fun val => forall pdv, perfdata_element asP parse val = Some pdv ->
                                    numeric_thresholds pdv = true) perfdata) ->
  let host :=
    match object checkable with
    | OfService service => Service_GetHost service
    | OfHost host => host
    end in
  let tags := [("host", OpenTsdbWriter.EscapeTag (Host_GetName host))] in
  let metric :=
    match object checkable with
    | OfService service =>
        "icinga.service." +:+ OpenTsdbWriter.EscapeMetric (Service_GetShortName service)
    | OfHost _ => "icinga.host"
    end in
  let state :=
    match object checkable with
    | OfService service => Service_GetState service
    | OfHost host => Host_GetState host
    end in
  let check_tags :=
    match object checkable with
    | OfService service =>
        [("host", OpenTsdbWriter.EscapeTag (Host_GetName host));
         ("service", OpenTsdbWriter.EscapeTag (Service_GetShortName service));
         ("type", "service")]
    | OfHost _ =>
        [("host", OpenTsdbWriter.EscapeTag (Host_GetName host)); ("type", "host")]
    end in
  let ts := GetExecutionEnd cr in
  let put := OpenTsdbWriter.put_line cvtD cvtL in
  let perfdata_lines :=
    match GetPerformanceData cr with
    | Some perfdata =>
        flat_map (fun val =>
                    match perfdata_element asP parse val with
                    | Some pdv => tsdb_perfdata_lines cvtD cvtL metric tags pdv ts
                    | None => []
                    end) perfdata
    | None => []
    end in
  OpenTsdbWriter.CheckResultHandler cvtD cvtL lexd asP parse true checkable cr
    (streaming_writer false lines)
  = (Ok tt,
     streaming_writer false
       (lines
        ++ [put (metric +:+ ".state") tags state ts;
            put (metric +:+ ".state_type") tags (GetStateType checkable) ts;
            put (metric +:+ ".reachable") tags (IsReachable checkable) ts;
            put (metric +:+ ".downtime_depth") tags (GetDowntimeDepth checkable) ts;
            put (metric +:+ ".acknowledgement") tags (GetAcknowledgement checkable) ts]
        ++ perfdata_lines
        ++ [put "icinga.check.current_attempt" check_tags (GetCheckAttempt checkable) ts;
            put "icinga.check.max_check_attempts" check_tags
              (GetMaxCheckAttempts checkable) ts;
            put "icinga.check.latency" check_tags (CalculateLatency cr) ts;
            put "icinga.check.execution_time" check_tags (CalculateExecutionTime cr) ts])).
Proof.
  intros Henabled Hnum. cbn zeta.
  unfold OpenTsdbWriter.CheckResultHandler.
  cbn [OpenTsdbWriter.IsPaused streaming_writer]. rewrite Henabled. cbn [negb orb].
  cbn zeta. unfold seq.
  rewrite !OpenTsdbWriter_SendMetric_streaming.
  assert (Hperf : forall metric tags lines,
            OpenTsdbWriter.SendPerfdata cvtD cvtL lexd asP parse metric tags cr
              (GetExecutionEnd cr) (streaming_writer false lines)
            = (Ok tt, streaming_writer false
                        (lines ++ match GetPerformanceData cr with
                                  | Some perfdata =>
                                      flat_map (fun val =>
                                        match perfdata_element asP parse val with
                                        | Some pdv =>
                                            tsdb_perfdata_lines cvtD cvtL metric tags pdv
                                              (GetExecutionEnd cr)
                                        | None => []
                                        end) perfdata
                                  | None => []
                                  end))).
  { intros metric tags lines'. destruct (GetPerformanceData cr) as [perfdata|] eqn:Hcr.
    - by apply OpenTsdbWriter_SendPerfdata_streaming; [| apply Hnum].
    - unfold OpenTsdbWriter.SendPerfdata. rewrite Hcr. unfold skip. by rewrite app_nil_r. }
  rewrite Hperf. rewrite !OpenTsdbWriter_SendMetric_streaming.
  destruct (object checkable) as [service|host]; cbn [std_map_assign];
    repeat (rewrite <- app_assoc; cbn [app]); reflexivity.
Qed.

Lemma OpenTsdbWriter_CheckResultHandler_lines_witness :
  OpenTsdbWriter.CheckResultHandler (fun _ => "2") (fun _ => 1600000000%Z)
    (fun _ => Ok 0%float) (fun _ => None) (fun _ => None) true cpu_checkable cpu_result
    (streaming_writer false [])
  = (Ok tt,
     streaming_writer false
       ["put icinga.service.cpu.state 1600000000 2  host=db-01" +:+ LF;
        "put icinga.service.cpu.state_type 1600000000 2  host=db-01" +:+ LF;
        "put icinga.service.cpu.reachable 1600000000 2  host=db-01" +:+ LF;
        "put icinga.service.cpu.downtime_depth 1600000000 2  host=db-01" +:+ LF;
        "put icinga.service.cpu.acknowledgement 1600000000 2  host=db-01" +:+ LF;
        "put icinga.check.current_attempt 1600000000 2  host=db-01 service=cpu type=service"
          +:+ LF;
        "put icinga.check.max_check_attempts 1600000000 2  host=db-01 service=cpu type=service"
          +:+ LF;
        "put icinga.check.latency 1600000000 2  host=db-01 service=cpu type=service" +:+ LF;
        "put icinga.check.execution_time 1600000000 2  host=db-01 service=cpu type=service"
          +:+ LF]).
Proof.
  apply (OpenTsdbWriter_CheckResultHandler_lines (fun _ => "2") (fun _ => 1600000000%Z)
           (fun _ => Ok 0%float) (fun _ => None) (fun _ => None) cpu_checkable cpu_result []
           eq_refl ltac:(intros perfdata H; discriminate H)).
Defined.

Lemma GraphiteWriter_SendPerfdata_connected
    (cvtD : float -> string) (cvtL : float -> Z) (lexd : Value -> Result float)
    (asP parse : Value -> option PerfdataValue) prefix perfdata ts lines thresholds metadata :
  Forall (fun val => forall pdv, perfdata_element asP parse val = Some pdv ->
                                 numeric_thresholds pdv = true) perfdata ->
  GraphiteWriter.SendPerfdata cvtD cvtL lexd asP parse prefix (Some perfdata) ts
    (connected_writer lines thresholds metadata)
  = (Ok tt,
     connected_writer
       (lines ++ flat_map (fun val =>
                    match perfdata_element asP parse val with
                    | Some pdv =>
                        if thresholds then expected_perfdata_lines cvtD cvtL prefix pdv ts
                        else [graphite_value_line cvtD cvtL prefix pdv ts]
                    | None => []
                    end) perfdata)
       thresholds metadata).
Proof.
  intros Hnum. unfold GraphiteWriter.SendPerfdata. revert lines.
  induction Hnum as [|val perfdata Hval _ IH]; intros lines; cbn [for_each flat_map];
    [by rewrite app_nil_r|].
  destruct (perfdata_element asP parse val) as [pdv|] eqn:Hpdv; [| apply IH].
  destruct thresholds.
  - rewrite (GraphiteWriter_SendPerfdataValue_connected cvtD cvtL lexd) by auto.
    rewrite IH. by rewrite <- app_assoc.
  - rewrite GraphiteWriter_SendPerfdataValue_value_only.
    rewrite IH. by rewrite <- app_assoc.
Qed.

(** X28.  The check result handler of the Graphite writer stops at its
    assertion when it does not run on the worker thread, does nothing when
    performance data are disabled for the application or the checkable, and
    passes on what the resolution of the name template throws, in all three
    cases with the writer as it was.  Otherwise a connected writer puts on
    the wire, when metadata are sent, nine lines under [<prefix>.metadata],
    and then the lines of the performance data under [<prefix>.perfdata]. *)
Theorem GraphiteWriter_CheckResultHandlerInternal_lines
    (cvtD : float -> string) (cvtL : float -> Z) (lexd : Value -> Result float)
    (asP parse : Value -> option PerfdataValue) (enabled worker : bool)
    (host_template service_template : string)
    (ResolveMacros : string -> Checkable -> CheckResult -> Result string)
    (checkable : Checkable) (cr : CheckResult) :
  let handler :=
    GraphiteWriter_CheckResultHandlerInternal cvtD cvtL lexd asP parse enabled worker
      host_template service_template ResolveMacros checkable cr in
  let template :=
    match object checkable with
    | OfService _ => service_template
    | OfHost _ => host_template
    end in
  (forall self, worker = false -> handler self = (AssertionFailed, self)) /\
  (forall self, worker = true -> enabled = false \/ GetEnablePerfdata checkable = false ->
     handler self = (Ok tt, self)) /\
  (forall self e, worker = true -> enabled = true -> GetEnablePerfdata checkable = true ->
     ResolveMacros template checkable cr = Throw e -> handler self = (Throw e, self)) /\
  (forall (prefix : string) (lines : list string) (thresholds metadata : bool),
     worker = true -> enabled = true -> GetEnablePerfdata checkable = true ->
     ResolveMacros template checkable cr = Ok prefix ->
     (forall perfdata, GetPerformanceData cr = Some perfdata ->
        Forall (fun val => forall pdv, perfdata_element asP parse val = Some pdv ->
                                       numeric_thresholds pdv = true) perfdata) ->
     let ts := GetExecutionEnd cr in
     let line := GraphiteWriter.metric_line cvtD cvtL (prefix +:+ ".metadata") in
     let state :=
       match object checkable with
       | OfService service => Service_GetState service
       | OfHost host => Host_GetState host
       end in
     let metadata_lines :=
       if metadata
       then [line "state" state ts;
             line "current_attempt" (GetCheckAttempt checkable) ts;
             line "max_check_attempts" (GetMaxCheckAttempts checkable) ts;
             line "state_type" (GetStateType checkable) ts;
             line "reachable" (IsReachable checkable) ts;
             line "downtime_depth" (GetDowntimeDepth checkable) ts;
             line "acknowledgement" (GetAcknowledgement checkable) ts;
             line "latency" (CalculateLatency cr) ts;
             line "execution_time" (CalculateExecutionTime cr) ts]
       else [] in
     let perfdata_lines :=
       match GetPerformanceData cr with
       | Some perfdata =>
           flat_map (fun val =>
                       match perfdata_element asP parse val with
                       | Some pdv =>
                           if thresholds
                           then expected_perfdata_lines cvtD cvtL (prefix +:+ ".perfdata") pdv ts
                           else [graphite_value_line cvtD cvtL (prefix +:+ ".perfdata") pdv ts]
                       | None => []
                       end) perfdata
       | None => []
       end in
     handler (connected_writer lines thresholds metadata)
     = (Ok tt, connected_writer (lines ++ metadata_lines ++ perfdata_lines)
                 thresholds metadata)).
Proof.
  cbn zeta. unfold GraphiteWriter_CheckResultHandlerInternal, GraphiteWriter_AssertOnWorkQueue,
    ASSERT.
  split; [by intros self ->|]. split; [| split].
  - intros self -> [->|Hc]; [done|]. by rewrite Hc, orb_true_r.
  - intros self e -> -> Hc Hres. rewrite Hc. cbn [negb orb]. by rewrite Hres.
  - intros prefix lines thresholds metadata -> -> Hc Hres Hnum. rewrite Hc. cbn [negb orb].
    rewrite Hres. cbn zeta. unfold seq at 1.
    assert (Hperf : forall lines,
              GraphiteWriter.SendPerfdata cvtD cvtL lexd asP parse (prefix +:+ ".perfdata")
                (GetPerformanceData cr) (GetExecutionEnd cr)
                (connected_writer lines thresholds metadata)
              = (Ok tt, connected_writer
                          (lines ++ match GetPerformanceData cr with
                                    | Some perfdata =>
                                        flat_map (fun val =>
                                          match perfdata_element asP parse val with
                                          | Some pdv =>
                                              if thresholds
                                              then expected_perfdata_lines cvtD cvtL
                                                     (prefix +:+ ".perfdata") pdv
                                                     (GetExecutionEnd cr)
                                              else [graphite_value_line cvtD cvtL
                                                      (prefix +:+ ".perfdata") pdv
                                                      (GetExecutionEnd cr)]
                                          | None => []
                                          end) perfdata
                                    | None => []
                                    end)
                          thresholds metadata)).
    { intros lines'. destruct (GetPerformanceData cr) as [perfdata|] eqn:Hcr.
      - by apply GraphiteWriter_SendPerfdata_connected, Hnum.
      - unfold GraphiteWriter.SendPerfdata, skip. by rewrite app_nil_r. }
    cbn [GraphiteWriter.GetEnableSendMetadata connected_writer].
    destruct metadata; unfold when.
    + unfold seq. fold (connected_writer lines thresholds true).
      rewrite !GraphiteWriter_SendMetric_connected. rewrite Hperf.
      repeat (rewrite <- app_assoc; cbn [app]). reflexivity.
    + unfold skip. fold (connected_writer lines thresholds false). by rewrite Hperf.
Qed.

Lemma GraphiteWriter_CheckResultHandlerInternal_lines_witness :
  GraphiteWriter_CheckResultHandlerInternal (fun _ => "2") (fun _ => 1600000000%Z)
    (fun _ => Ok 0%float) (fun _ => None) (fun _ => None) true true "h" "s"
    (fun _ _ _ => Ok "icinga2.db-01.services.cpu") cpu_checkable cpu_result
    (connected_writer [] false true)
  = (Ok tt,
     connected_writer
       ["icinga2.db-01.services.cpu.metadata.state 2 1600000000" +:+ LF;
        "icinga2.db-01.services.cpu.metadata.current_attempt 2 1600000000" +:+ LF;
        "icinga2.db-01.services.cpu.metadata.max_check_attempts 2 1600000000" +:+ LF;
        "icinga2.db-01.services.cpu.metadata.state_type 2 1600000000" +:+ LF;
        "icinga2.db-01.services.cpu.metadata.reachable 2 1600000000" +:+ LF;
        "icinga2.db-01.services.cpu.metadata.downtime_depth 2 1600000000" +:+ LF;
        "icinga2.db-01.services.cpu.metadata.acknowledgement 2 1600000000" +:+ LF;
        "icinga2.db-01.services.cpu.metadata.latency 2 1600000000" +:+ LF;
        "icinga2.db-01.services.cpu.metadata.execution_time 2 1600000000" +:+ LF]
       false true).
Proof.
  apply (proj2 (proj2 (proj2
           (GraphiteWriter_CheckResultHandlerInternal_lines (fun _ => "2")
              (fun _ => 1600000000%Z) (fun _ => Ok 0%float) (fun _ => None)
              (fun _ => None) true true "h" "s"
              (fun _ _ _ => Ok "icinga2.db-01.services.cpu") cpu_checkable cpu_result)))
           "icinga2.db-01.services.cpu" [] false true eq_refl eq_refl eq_refl eq_refl
           ltac:(intros perfdata H; discriminate H)).
Defined.

(** X29.  The timer of the OpenTSDB writer connects only a writer that is
    not paused and has no stream, and swallows a failed connection; so a
    writer that lost its stream to a failed write gets a new one at the next
    tick that connects, and the metric sent after it is the first line of
    that stream. *)
Theorem OpenTsdbWriter_ReconnectTimerHandler_spec
    (cvtD : float -> string) (cvtL : float -> Z)
    (connect : Result NetworkStream) (self : OpenTsdbWriter.State) :
  (OpenTsdbWriter.IsPaused self = true \/ is_Some (OpenTsdbWriter.m_Stream self) ->
   OpenTsdbWriter.ReconnectTimerHandler connect self = (Ok tt, self)) /\
  (forall e, connect = Throw e ->
   OpenTsdbWriter.ReconnectTimerHandler connect self = (Ok tt, self)) /\
  (forall stream, connect = Ok stream ->
   OpenTsdbWriter.IsPaused self = false -> OpenTsdbWriter.m_Stream self = None ->
   OpenTsdbWriter.ReconnectTimerHandler connect self
   = (Ok tt, {| OpenTsdbWriter.IsPaused := false; OpenTsdbWriter.m_Stream := Some stream |})) /\
  (forall broken metric tags value ts,
     OpenTsdbWriter.IsPaused self = false ->
     OpenTsdbWriter.m_Stream self = Some broken -> failing broken = true ->
     connect = Ok {| written := []; failing := false |} ->
     let dropped := (OpenTsdbWriter.SendMetric cvtD cvtL metric tags value ts self).2 in
     let reconnected := (OpenTsdbWriter.ReconnectTimerHandler connect dropped).2 in
     OpenTsdbWriter.m_Stream dropped = None /\
     OpenTsdbWriter.SendMetric cvtD cvtL metric tags value ts reconnected
     = (Ok tt, streaming_writer false [OpenTsdbWriter.put_line cvtD cvtL metric tags value ts])).
Proof.
  unfold OpenTsdbWriter.ReconnectTimerHandler. split; [| split; [| split]].
  - intros [->|[stream Hs]]; [done|]. rewrite Hs. by destruct (OpenTsdbWriter.IsPaused self).
  - intros e ->. destruct (OpenTsdbWriter.IsPaused self); [done|].
    by destruct (OpenTsdbWriter.m_Stream self).
  - by intros stream -> -> ->.
  - intros broken metric tags value ts Hp Hs Hf ->.
    assert (Hdrop : OpenTsdbWriter.SendMetric cvtD cvtL metric tags value ts self
                    = (Ok tt, {| OpenTsdbWriter.IsPaused := false;
                                 OpenTsdbWriter.m_Stream := None |})).
    { unfold OpenTsdbWriter.SendMetric, Stream_Write. cbn zeta. by rewrite Hs, Hf, Hp. }
    rewrite Hdrop. done.
Qed.

Lemma OpenTsdbWriter_ReconnectTimerHandler_spec_witness :
  OpenTsdbWriter.ReconnectTimerHandler (Ok {| written := []; failing := false |})
    (streaming_writer false ["line"])
  = (Ok tt, streaming_writer false ["line"]).
Proof.
  apply (proj1 (OpenTsdbWriter_ReconnectTimerHandler_spec (fun _ => "0") (fun _ => 0)
                  (Ok {| written := []; failing := false |})
                  (streaming_writer false ["line"]))).
  right. by eexists.
Defined.

Lemma String_map_length f s : String.length (String_map f s) = String.length s.
Proof. induction s as [|c s IH]; simpl; by rewrite ?IH. Qed.

Lemma has_char_app c s t : has_char c (s +:+ t) = has_char c s || has_char c t.
Proof. induction s as [|c' s IH]; simpl; [done|]. by rewrite IH, orb_assoc. Qed.

Lemma has_char_replace_all_from c search format skip s :
  has_char c format = false -> has_char c s = false ->
  has_char c (replace_all_from search format skip s) = false.
Proof.
  intros Hformat. revert skip. induction s as [|c' s IH]; intros skip Hs; [done|].
  cbn [has_char] in Hs. apply orb_false_iff in Hs as [Hc Hs].
  cbn [replace_all_from]. destruct skip as [|skip]; [| by apply IH].
  destruct (String.prefix search (String c' s)).
  - by rewrite has_char_app, Hformat, IH.
  - cbn [has_char]. by rewrite Hc, IH.
Qed.

Lemma double_colon_length skip s :
  (String.length (replace_all_from "::" "." skip s) <= String.length s)%nat.
Proof.
  revert skip. induction s as [|c s IH]; intros skip; [done|].
  cbn [replace_all_from]. destruct skip as [|skip].
  - destruct (String.prefix "::" (String c s)).
    + change (String.length "::" - 1)%nat with 1%nat.
      change ("." +:+ ?t) with (String "."%char t). simpl. specialize (IH 1%nat). lia.
    + simpl. specialize (IH 0%nat). lia.
  - simpl. specialize (IH skip). lia.
Qed.

Lemma String_map_clean f s :
  (forall c, has_char c s = true -> f c = c) -> String_map f s = s.
Proof.
  induction s as [|c s IH]; intros H; simpl; [done|]. rewrite H, IH; [done | |].
  - intros c' Hc'. apply H. simpl. by rewrite Hc', orb_true_r.
  - simpl. by rewrite Ascii.eqb_refl.
Qed.

Lemma graphite_metric_char_avoids c :
  graphite_metric_char c <> " "%char /\ graphite_metric_char c <> "."%char /\
  graphite_metric_char c <> "\"%char /\ graphite_metric_char c <> "/"%char.
Proof. destruct c as [[] [] [] [] [] [] [] []]; vm_compute; repeat split; congruence. Qed.

Lemma graphite_label_char_avoids c :
  graphite_label_char c <> " "%char /\ graphite_label_char c <> "\"%char /\
  graphite_label_char c <> "/"%char.
Proof. destruct c as [[] [] [] [] [] [] [] []]; vm_compute; repeat split; congruence. Qed.

Lemma tsdb_tag_char_avoids c :
  tsdb_tag_char c <> " "%char /\ tsdb_tag_char c <> "\"%char.
Proof. destruct c as [[] [] [] [] [] [] [] []]; vm_compute; repeat split; congruence. Qed.

Lemma graphite_metric_char_clean c :
  c <> " "%char -> c <> "."%char -> c <> "\"%char -> c <> "/"%char ->
  graphite_metric_char c = c.
Proof.
  intros H1 H2 H3 H4. unfold graphite_metric_char, replace_char.
  apply Ascii.eqb_neq in H1, H2, H3, H4. by rewrite H1, H2, H3, H4.
Qed.

(** X30.  What the escapers give never holds a character they replace: the
    Graphite metric escaper no space, dot, backslash or slash, the Graphite
    label escaper no space, backslash, slash or "::", the OpenTSDB tag
    escaper no space or backslash.  The metric and tag escapers keep the
    length of the string, the label escaper does not lengthen it, and the
    Graphite metric escaper gives back a string that holds none of its four
    characters. *)
Theorem escapers_output (s : string) :
  (has_char " " (GraphiteWriter.EscapeMetric s) = false /\
   has_char "." (GraphiteWriter.EscapeMetric s) = false /\
   has_char "\" (GraphiteWriter.EscapeMetric s) = false /\
   has_char "/" (GraphiteWriter.EscapeMetric s) = false) /\
  (has_char " " (GraphiteWriter.EscapeMetricLabel s) = false /\
   has_char "\" (GraphiteWriter.EscapeMetricLabel s) = false /\
   has_char "/" (GraphiteWriter.EscapeMetricLabel s) = false /\
   occurs "::" (GraphiteWriter.EscapeMetricLabel s) = false) /\
  (has_char " " (OpenTsdbWriter.EscapeTag s) = false /\
   has_char "\" (OpenTsdbWriter.EscapeTag s) = false) /\
  (String.length (GraphiteWriter.EscapeMetric s) = String.length s /\
   String.length (OpenTsdbWriter.EscapeMetric s) = String.length s /\
   String.length (OpenTsdbWriter.EscapeTag s) = String.length s /\
   (String.length (GraphiteWriter.EscapeMetricLabel s) <= String.length s)%nat) /\
  (has_char " " s = false -> has_char "." s = false -> has_char "\" s = false ->
   has_char "/" s = false -> GraphiteWriter.EscapeMetric s = s).
Proof.
  rewrite GraphiteWriter_EscapeMetric_map, GraphiteWriter_EscapeMetricLabel_map,
    OpenTsdbWriter_EscapeMetric_map, OpenTsdbWriter_EscapeTag_map.
  split; [| split; [| split; [| split]]].
  - repeat split; apply has_char_map; intros c;
      destruct (graphite_metric_char_avoids c) as (H1 & H2 & H3 & H4); done.
  - unfold boost_replace_all.
    repeat split; try (apply has_char_replace_all_from; [done|]; apply has_char_map; intros c;
      destruct (graphite_label_char_avoids c) as (H1 & H2 & H3); done).
    apply double_colon_gone.
  - split; apply has_char_map; intros c; destruct (tsdb_tag_char_avoids c) as (H1 & H2); done.
  - rewrite !String_map_length. repeat split.
    unfold boost_replace_all.
    etrans; [apply double_colon_length|]. by rewrite String_map_length.
  - intros H1 H2 H3 H4. apply String_map_clean. intros c Hc.
    apply graphite_metric_char_clean; intros ->; congruence.
Qed.
